(** * Contextual: the indexing, aggregation and query-translation core

    A shallow embedding of [backend/database.py], [backend/ai.py] and
    [backend/indexer.py], and the properties of the design document that
    can be stated over it.

    Conventions of the embedding.
    - A Python [str] is a [string] of ASCII characters: the character
      classes of [re] and of [str.lower], [str.strip], [str.split] are
      taken on ASCII, and a character above 127 belongs to none.
    - A SQLite table is the list of its rows in rowid order.  The [files]
      and [index_roots] tables have a primary key, enforced by
      [INSERT OR REPLACE]; the FTS table [file_index] has none.
    - A connection works on a private view of the database and publishes
      it with [commit]; closing a connection drops what was not committed.
    - Code that can raise runs in a small state-and-exception monad. *)

From Stdlib Require Import String Ascii List Bool Arith Lia ZArith Sorted Permutation.
Import ListNotations.

Set Warnings "-register-all".

Open Scope list_scope.
Open Scope string_scope.

(* ================================================================== *)
(** * Python strings *)
(* ================================================================== *)

Module pystr.

Definition chars : string -> list ascii := list_ascii_of_string.
Definition str : list ascii -> string := string_of_list_ascii.

(** ** Character classes (ASCII) *)

Definition between (lo hi c : ascii) : bool :=
  Nat.leb (nat_of_ascii lo) (nat_of_ascii c) && Nat.leb (nat_of_ascii c) (nat_of_ascii hi).

Definition is_upper (c : ascii) : bool := between "A" "Z" c.
Definition is_lower (c : ascii) : bool := between "a" "z" c.
Definition is_digit (c : ascii) : bool := between "0" "9" c.

(** [\w] *)
Definition is_word (c : ascii) : bool :=
  is_upper c || is_lower c || is_digit c || Ascii.eqb c "_".

(** [\s], also the characters removed by [str.strip()] and the
    separators of [str.split()]: space, \t, \n, \v, \f, \r and the
    four separators 0x1c to 0x1f. *)
Definition is_space (c : ascii) : bool :=
  Ascii.eqb c " " || between (ascii_of_nat 9) (ascii_of_nat 13) c
  || between (ascii_of_nat 28) (ascii_of_nat 31) c.

Definition lower_char (c : ascii) : ascii :=
  if is_upper c then ascii_of_nat (nat_of_ascii c + 32) else c.

Definition upper_char (c : ascii) : ascii :=
  if is_lower c then ascii_of_nat (nat_of_ascii c - 32) else c.

(** ** List-level helpers *)

Fixpoint drop_while (f : ascii -> bool) (l : list ascii) : list ascii :=
  match l with
  | [] => []
  | c :: l' => if f c then drop_while f l' else l
  end.

Fixpoint take_while (f : ascii -> bool) (l : list ascii) : list ascii :=
  match l with
  | [] => []
  | c :: l' => if f c then c :: take_while f l' else []
  end.

Fixpoint starts (p l : list ascii) : bool :=
  match p, l with
  | [], _ => true
  | _ :: _, [] => false
  | a :: p', b :: l' => Ascii.eqb a b && starts p' l'
  end.

(** ** [str] methods *)

Definition len (s : string) : nat := String.length s.

Definition lower (s : string) : string := str (map lower_char (chars s)).
Definition upper (s : string) : string := str (map upper_char (chars s)).

(** [s.startswith(p)] *)
Definition startswith (s p : string) : bool := starts (chars p) (chars s).

(** [s.lstrip(c)], [s.rstrip(c)] for a one-character argument *)
Definition lstrip_char (c : ascii) (s : string) : string :=
  str (drop_while (Ascii.eqb c) (chars s)).

Definition rstrip_char (c : ascii) (s : string) : string :=
  str (rev (drop_while (Ascii.eqb c) (rev (chars s)))).

(** [s.strip(c)] for a one-character argument *)
Definition strip_char (c : ascii) (s : string) : string :=
  lstrip_char c (rstrip_char c s).

(** [s.strip()] *)
Definition strip (s : string) : string :=
  str (drop_while is_space (rev (drop_while is_space (rev (chars s))))).

(** [sub in s] *)
Fixpoint contains_chars (sub l : list ascii) : bool :=
  starts sub l ||
  match l with
  | [] => false
  | _ :: l' => contains_chars sub l'
  end.

Definition contains (sub s : string) : bool := contains_chars (chars sub) (chars s).

(** [s[n:]] and [s[:n]] *)
Definition slice_from (n : nat) (s : string) : string := str (skipn n (chars s)).
Definition slice_to (n : nat) (s : string) : string := str (firstn n (chars s)).

(** [sep.join(l)] *)
Fixpoint join (sep : string) (l : list string) : string :=
  match l with
  | [] => ""
  | [x] => x
  | x :: l' => x ++ sep ++ join sep l'
  end.

(** [s.split(c)]: the fields between the occurrences of [c]; never
    empty as a list. *)
Fixpoint split_chars (c : ascii) (cur : list ascii) (l : list ascii) : list string :=
  match l with
  | [] => [str (rev cur)]
  | d :: l' =>
      if Ascii.eqb c d then str (rev cur) :: split_chars c [] l'
      else split_chars c (d :: cur) l'
  end.

Definition split (c : ascii) (s : string) : list string := split_chars c [] (chars s).

(** [s.split()]: the maximal runs of non-whitespace characters. *)
Fixpoint words_chars (cur : list ascii) (l : list ascii) : list string :=
  match l with
  | [] => match cur with [] => [] | _ => [str (rev cur)] end
  | d :: l' =>
      if is_space d then
        match cur with
        | [] => words_chars [] l'
        | _ => str (rev cur) :: words_chars [] l'
        end
      else words_chars (d :: cur) l'
  end.

Definition words (s : string) : list string := words_chars [] (chars s).

(** [s.replace(old, new)] for a non-empty [old]: left to right, not
    overlapping.  The recursion is on the text; [skip] counts the
    characters of a match still to be passed over. *)
Fixpoint replace_chars (old new : list ascii) (skip : nat) (l : list ascii) : list ascii :=
  match l with
  | [] => []
  | c :: l' =>
      match skip with
      | S k => replace_chars old new k l'
      | O =>
          if starts old l
          then (new ++ replace_chars old new (List.length old - 1) l')%list
          else c :: replace_chars old new 0 l'
      end
  end.

Definition replace (old new s : string) : string :=
  str (replace_chars (chars old) (chars new) 0 (chars s)).

(** Python truthiness of a [str] and of an optional [str] *)
Definition truthy (s : string) : bool := negb (String.eqb s "").

Definition truthy_opt (o : option string) : bool :=
  match o with Some s => truthy s | None => false end.

(** [o or ""] *)
Definition or_empty (o : option string) : string :=
  match o with Some s => s | None => "" end.

(** [x in l] for a list of strings *)
Definition mem (x : string) (l : list string) : bool :=
  existsb (String.eqb x) l.

(** [str(n)] for a natural number *)
Definition digit_char (d : nat) : ascii := ascii_of_nat (48 + d).

Fixpoint str_of_nat_aux (fuel n : nat) (acc : list ascii) : list ascii :=
  match fuel with
  | O => acc
  | S f =>
      let acc' := digit_char (n mod 10) :: acc in
      if Nat.ltb n 10 then acc' else str_of_nat_aux f (n / 10) acc'
  end.

Definition str_of_nat (n : nat) : string := str (str_of_nat_aux (S n) n []).

End pystr.

(* ================================================================== *)
(** * [os.path] on a POSIX host *)
(* ================================================================== *)

Module posixpath.
Import pystr.

Definition sep_char : ascii := "/".
Definition sep : string := "/".

Definition is_sep (c : ascii) : bool := Ascii.eqb c sep_char.

Definition isabs (p : string) : bool := startswith p sep.

(** [join(a, b)] *)
Definition join (a b : string) : string :=
  if startswith b sep then b
  else if negb (truthy a) || is_sep (last (chars a) " "%char) then a ++ b
  else a ++ sep ++ b.

(** The component loop of [normpath]. *)
Fixpoint norm_comps (initial_slashes : nat) (comps new_comps : list string) : list string :=
  match comps with
  | [] => new_comps
  | comp :: rest =>
      if String.eqb comp "" || String.eqb comp "." then
        norm_comps initial_slashes rest new_comps
      else if negb (String.eqb comp "..")
              || (Nat.eqb initial_slashes 0 && match new_comps with [] => true | _ => false end)
              || match new_comps with [] => false | _ => String.eqb (last new_comps "") ".." end
      then norm_comps initial_slashes rest (new_comps ++ [comp])%list
      else norm_comps initial_slashes rest (removelast new_comps)
  end.

Definition normpath (path : string) : string :=
  if negb (truthy path) then "."
  else
    let initial_slashes :=
      if startswith path "/" then
        if startswith path "//" && negb (startswith path "///") then 2 else 1
      else 0 in
    let comps := norm_comps initial_slashes (split sep_char path) [] in
    let path' := pystr.join sep comps in
    let path'' := str (repeat sep_char initial_slashes) ++ path' in
    if truthy path'' then path'' else ".".

(** [abspath(path)], for a process whose working directory is [cwd]. *)
Definition abspath (cwd path : string) : string :=
  normpath (if isabs path then path else join cwd path).

(** [dirname(p)]: everything up to the last separator, without trailing
    separators unless it consists of separators only. *)
Definition dirname_chars (p : list ascii) : list ascii :=
  let head_rev := drop_while (fun c => negb (is_sep c)) (rev p) in
  if forallb is_sep head_rev then rev head_rev
  else rev (drop_while is_sep head_rev).

Definition dirname (p : string) : string := str (dirname_chars (chars p)).

(** [basename(p)]: everything after the last separator. *)
Definition basename (p : string) : string :=
  str (rev (take_while (fun c => negb (is_sep c)) (rev (chars p)))).

(** [splitext(p)[1]]: the extension with its dot, empty when the last
    dot is not after the last separator or only dots precede it in the
    file name. *)
Definition splitext_ext (p : string) : string :=
  let name := chars (basename p) in
  let ext_rev := take_while (fun c => negb (Ascii.eqb c ".")) (rev name) in
  if Nat.ltb (List.length ext_rev) (List.length name)
  then
    (* there is a dot in the name; [stem] is what precedes the last dot *)
    let stem := firstn (List.length name - List.length ext_rev - 1) name in
    if forallb (Ascii.eqb ".") stem then ""
    else str ("."%char :: rev ext_rev)
  else "".

End posixpath.

(* ================================================================== *)
(** * State and exceptions *)
(* ================================================================== *)

(** A computation over a state [S] that returns a value or raises.  The
    state is kept when an exception is raised, as the effects of Python
    code are. *)

Inductive outcome (A : Type) : Type :=
| Val (a : A)
| Raise.

Arguments Val {A} a.
Arguments Raise {A}.

Definition SE (S A : Type) : Type := S -> outcome A * S.

Definition ret {S A} (a : A) : SE S A := fun s => (Val a, s).

Definition raise {S A} : SE S A := fun s => (Raise, s).

Definition bind {S A B} (m : SE S A) (k : A -> SE S B) : SE S B :=
  fun s =>
    match m s with
    | (Val a, s') => k a s'
    | (Raise, s') => (Raise, s')
    end.

(** [try: m  except Exception: h] *)
Definition try_except {S A} (m h : SE S A) : SE S A :=
  fun s =>
    match m s with
    | (Val a, s') => (Val a, s')
    | (Raise, s') => h s'
    end.

(** A call that raises exactly when the callee has no result. *)
Definition of_option {S A} (o : option A) : SE S A :=
  match o with
  | Some a => ret a
  | None => raise
  end.

Declare Scope se_scope.
Delimit Scope se_scope with se.

Notation "x <- m ;; k" := (bind m (fun x => k))
  (at level 100, m at next level, right associativity) : se_scope.
Notation "m ;; k" := (bind m (fun _ => k))
  (at level 100, right associativity) : se_scope.

(** [for x in l: body x], stopping at the first exception. *)
Fixpoint for_each {S A} (l : list A) (body : A -> SE S unit) : SE S unit :=
  match l with
  | [] => ret tt
  | x :: l' => bind (body x) (fun _ => for_each l' body)
  end.

(* ================================================================== *)
(** * The persisted store *)
(* ================================================================== *)

(** Registry: a row of table [files]. *)
Module Registry.
Record row : Type := mk {
  path : string;
  kind : string;
  ext : string;
  last_modified : Z;
  creation_time : Z;
  size : Z;
  indexed_at : string;
  summary : option string;
  tech_stack : option string
}.
End Registry.

(** A row of table [index_roots]. *)
Module IndexRoot.
Record row : Type := mk {
  root_path : string;
  indexed_at : Z
}.
End IndexRoot.

(** Content Index: a row of the FTS table [file_index]. *)
Module ContentIndex.
Record row : Type := mk {
  path : string;
  kind : string;
  ext : string;
  content : string;
  summary : string;
  tech_stack : string;
  created_str : string;
  modified_str : string
}.
End ContentIndex.

Record Database : Type := mkDatabase {
  files : list Registry.row;
  index_roots : list IndexRoot.row;
  file_index : list ContentIndex.row
}.

Definition empty_db : Database := mkDatabase [] [] [].

Definition set_files (f : list Registry.row -> list Registry.row) (db : Database) : Database :=
  mkDatabase (f (files db)) (index_roots db) (file_index db).

Definition set_index_roots (f : list IndexRoot.row -> list IndexRoot.row) (db : Database) : Database :=
  mkDatabase (files db) (f (index_roots db)) (file_index db).

Definition set_file_index (f : list ContentIndex.row -> list ContentIndex.row) (db : Database) : Database :=
  mkDatabase (files db) (index_roots db) (f (file_index db)).

(** What the daemon's process and machine provide. *)
Class Host : Type := {
  (** [os.getcwd()] *)
  getcwd : string;
  (** [datetime.fromtimestamp(t).strftime('%Y %b %d %A')]; [None] when
      [fromtimestamp] raises (a time outside the platform's range). *)
  date_token : Z -> option string;
  (** SQL [datetime('now')] and [datetime.now().timestamp()], as
      functions of the number of writes attempted so far. *)
  sql_datetime_now : nat -> string;
  time_now : nat -> Z;
  (** Whether the storage engine refuses the n-th write or commit
      attempted by the process (a locked database, a full disk):
      [cursor.execute] or [conn.commit] then raises. *)
  write_refused : nat -> bool;
  (** [open(path).read()], [None] when it raises. *)
  read_text : string -> option string;
  (** The order in which a [set] of strings is iterated. *)
  set_order : list string -> list string;
  set_order_In : forall l x, In x (set_order l) <-> In x l
}.

(** The process-wide state: the committed database and the number of
    writes attempted so far. *)
Record World : Type := mkWorld {
  disk : Database;
  attempts : nat
}.

(** An open connection: the committed database, this connection's view
    of it (with its uncommitted writes), and the attempt counter. *)
Record Conn : Type := mkConn {
  committed : Database;
  view : Database;
  conn_attempts : nat
}.

(** Procedures of the daemon, and code running on one connection. *)
Definition Proc (A : Type) : Type := SE World A.
Definition Sql (A : Type) : Type := SE Conn A.

Section Connection.
Context {host : Host}.

(** [cursor.execute('SELECT ...')] followed by a fetch. *)
Definition query {A} (q : Database -> A) : Sql A :=
  fun c => (Val (q (view c)), c).

(** A read through another connection, which sees committed data only. *)
Definition query_committed {A} (q : Database -> A) : Sql A :=
  fun c => (Val (q (committed c)), c).

(** [cursor.execute] of an INSERT, UPDATE or DELETE. *)
Definition execute (u : Database -> Database) : Sql unit :=
  fun c =>
    let n := conn_attempts c in
    if write_refused n
    then (Raise, mkConn (committed c) (view c) (S n))
    else (Val tt, mkConn (committed c) (u (view c)) (S n)).

(** [conn.commit()] *)
Definition commit : Sql unit :=
  fun c =>
    let n := conn_attempts c in
    if write_refused n
    then (Raise, mkConn (committed c) (view c) (S n))
    else (Val tt, mkConn (view c) (view c) (S n)).

(** The value of SQL [datetime('now')] in the statement about to run. *)
Definition sql_now : Sql string :=
  fun c => (Val (sql_datetime_now (conn_attempts c)), c).

(** [conn = get_db_connection(); ...; conn.close()]: the body runs on a
    fresh connection; whatever it did not commit is lost when the
    connection is closed, or dropped by an exception. *)
Definition with_connection {A} (body : Sql A) : Proc A :=
  fun w =>
    let '(r, c) := body (mkConn (disk w) (disk w) (attempts w)) in
    (r, mkWorld (committed c) (conn_attempts c)).

(** A read-only function of the committed database, as a procedure. *)
Definition reading {A} (q : Database -> A) : Proc A :=
  fun w => (Val (q (disk w)), w).

End Connection.

(* ================================================================== *)
(** * SQL statements over the tables *)
(* ================================================================== *)

Module sql.
Import pystr.

(** [text LIKE pattern], as SQLite evaluates it by default: [%] stands
    for any run of characters, [_] for any one character, there is no
    escape character, and ASCII letters match without regard to case. *)
Fixpoint like_chars (pat txt : list ascii) : bool :=
  match pat with
  | [] => match txt with [] => true | _ => false end
  | p :: pat' =>
      if Ascii.eqb p "%" then
        (fix any (t : list ascii) : bool :=
           like_chars pat' t ||
           match t with
           | [] => false
           | _ :: t' => any t'
           end) txt
      else
        match txt with
        | [] => false
        | c :: txt' =>
            (Ascii.eqb p "_" || Ascii.eqb (lower_char p) (lower_char c))
            && like_chars pat' txt'
        end
  end.

Definition like (text pattern : string) : bool :=
  like_chars (chars pattern) (chars text).

(** [INSERT OR REPLACE INTO files]: the row that holds the primary key
    is deleted and the new row gets a new rowid. *)
Definition replace_into_files (r : Registry.row) (t : list Registry.row) : list Registry.row :=
  (filter (fun x => negb (String.eqb (Registry.path x) (Registry.path r))) t ++ [r])%list.

Definition replace_into_index_roots (r : IndexRoot.row) (t : list IndexRoot.row) : list IndexRoot.row :=
  (filter (fun x => negb (String.eqb (IndexRoot.root_path x) (IndexRoot.root_path r))) t ++ [r])%list.

(** [SELECT ... FROM files WHERE path = ?] and [fetchone()] *)
Definition select_file (p : string) (t : list Registry.row) : option Registry.row :=
  find (fun x => String.eqb (Registry.path x) p) t.

(** [SELECT ... FROM file_index WHERE path = ?] and [fetchone()] *)
Definition select_index (p : string) (t : list ContentIndex.row) : option ContentIndex.row :=
  find (fun x => String.eqb (ContentIndex.path x) p) t.

(** [DELETE FROM file_index WHERE path = ?] *)
Definition delete_index (p : string) (t : list ContentIndex.row) : list ContentIndex.row :=
  filter (fun x => negb (String.eqb (ContentIndex.path x) p)) t.

(** [INSERT INTO file_index] *)
Definition insert_index (r : ContentIndex.row) (t : list ContentIndex.row) : list ContentIndex.row :=
  (t ++ [r])%list.

(** [UPDATE files SET summary = ? WHERE path = ?] *)
Definition update_files_summary (p : string) (s : option string) (t : list Registry.row) : list Registry.row :=
  map (fun x =>
         if String.eqb (Registry.path x) p
         then Registry.mk (Registry.path x) (Registry.kind x) (Registry.ext x)
                (Registry.last_modified x) (Registry.creation_time x) (Registry.size x)
                (Registry.indexed_at x) s (Registry.tech_stack x)
         else x) t.

(** [UPDATE files SET tech_stack = ? WHERE path = ?] *)
Definition update_files_tech_stack (p : string) (s : option string) (t : list Registry.row) : list Registry.row :=
  map (fun x =>
         if String.eqb (Registry.path x) p
         then Registry.mk (Registry.path x) (Registry.kind x) (Registry.ext x)
                (Registry.last_modified x) (Registry.creation_time x) (Registry.size x)
                (Registry.indexed_at x) (Registry.summary x) s
         else x) t.

(** [UPDATE files SET summary = ?, tech_stack = ? WHERE path = ?] *)
Definition update_files_aggregate (p : string) (s ts : option string) (t : list Registry.row) : list Registry.row :=
  map (fun x =>
         if String.eqb (Registry.path x) p
         then Registry.mk (Registry.path x) (Registry.kind x) (Registry.ext x)
                (Registry.last_modified x) (Registry.creation_time x) (Registry.size x)
                (Registry.indexed_at x) s ts
         else x) t.

(** The number of rows of a table stored under a path. *)
Definition count_files (p : string) (t : list Registry.row) : nat :=
  List.length (filter (fun x => String.eqb (Registry.path x) p) t).

Definition count_index (p : string) (t : list ContentIndex.row) : nat :=
  List.length (filter (fun x => String.eqb (ContentIndex.path x) p) t).

End sql.

(* ================================================================== *)
(** * [database.py]: roots, inserts and updates *)
(* ================================================================== *)

Section DatabaseWrites.
Context {host : Host}.
Import pystr.
Local Open Scope se_scope.

Definition abspath (p : string) : string := posixpath.abspath getcwd p.

(** ** Roots tracking *)

Definition add_index_root (root_path : string) : Proc unit :=
  let rp := abspath root_path in
  with_connection (
    fun c =>
      (execute (set_index_roots
                  (sql.replace_into_index_roots
                     (IndexRoot.mk rp (time_now (conn_attempts c))))) ;;
       commit) c).

(** The loop of [get_best_root_for_path] over the fetched roots. *)
Fixpoint best_root_loop (p : string) (roots : list string) (best : option string) : option string :=
  match roots with
  | [] => best
  | r :: roots' =>
      let r2 := abspath r in
      let best' :=
        if String.eqb p r2
           || startswith p (rstrip_char posixpath.sep_char r2 ++ posixpath.sep)
        then
          match best with
          | None => Some r2
          | Some b => if Nat.ltb (len b) (len r2) then Some r2 else best
          end
        else best in
      best_root_loop p roots' best'
  end.

(** The roots are tried in the order in which the table lists them;
    the order matters only between two roots of the same length. *)
Definition get_best_root_for_path (db : Database) (path : string) : option string :=
  let p := abspath path in
  let roots := map IndexRoot.root_path (index_roots db) in
  best_root_loop p roots None.

(** ** Insert and update records *)

Definition date_token_of (t : Z) : Sql string := of_option (date_token t).

Definition insert_file (path content : string) (last_modified creation_time size : Z) : Proc bool :=
  with_connection (
    try_except (
      row <- query (fun db => sql.select_file path (files db)) ;;
      let summary := match row with Some r => Registry.summary r | None => None end in
      let tech_stack := match row with Some r => Registry.tech_stack r | None => None end in
      let ext := lstrip_char "." (lower (posixpath.splitext_ext path)) in
      let kind := "file" in
      now <- sql_now ;;
      execute (set_files (sql.replace_into_files
        (Registry.mk path kind ext last_modified creation_time size now summary tech_stack))) ;;
      c_str <- date_token_of creation_time ;;
      m_str <- date_token_of last_modified ;;
      execute (set_file_index (sql.delete_index path)) ;;
      execute (set_file_index (sql.insert_index
        (ContentIndex.mk path kind ext content (or_empty summary) (or_empty tech_stack) c_str m_str))) ;;
      commit ;;
      ret true)
    (ret false)).

Definition insert_folder (path : string) (last_modified creation_time : Z) : Proc bool :=
  with_connection (
    try_except (
      let kind := "folder" in
      let ext := "" in
      row <- query (fun db => sql.select_file path (files db)) ;;
      let summary := match row with Some r => Registry.summary r | None => None end in
      let tech_stack := match row with Some r => Registry.tech_stack r | None => None end in
      now <- sql_now ;;
      execute (set_files (sql.replace_into_files
        (Registry.mk path kind ext last_modified creation_time 0%Z now summary tech_stack))) ;;
      c_str <- date_token_of creation_time ;;
      m_str <- date_token_of last_modified ;;
      execute (set_file_index (sql.delete_index path)) ;;
      execute (set_file_index (sql.insert_index
        (ContentIndex.mk path kind ext "" (or_empty summary) (or_empty tech_stack) c_str m_str))) ;;
      commit ;;
      ret true)
    (ret false)).

Definition update_tech_stack (path new_stack : string) : Proc unit :=
  with_connection (
    execute (set_files (sql.update_files_tech_stack path (Some new_stack))) ;;
    commit).

Definition get_file_metadata (db : Database) (path : string) : option Registry.row :=
  sql.select_file path (files db).

Definition update_summary (path new_summary : string) : Proc unit :=
  with_connection (
    execute (set_files (sql.update_files_summary path (Some new_summary))) ;;
    row <- query (fun db => sql.select_index path (file_index db)) ;;
    match row with
    | Some row =>
        execute (set_file_index (sql.delete_index path)) ;;
        execute (set_file_index (sql.insert_index
          (ContentIndex.mk path (ContentIndex.kind row) (ContentIndex.ext row)
             (ContentIndex.content row) new_summary (ContentIndex.tech_stack row)
             (ContentIndex.created_str row) (ContentIndex.modified_str row))))
    | None =>
        meta <- query_committed (fun db => get_file_metadata db path) ;;
        let kind := match meta with Some m => Registry.kind m | None => "file" end in
        let ext := match meta with Some m => Registry.ext m | None => "" end in
        execute (set_file_index (sql.insert_index
          (ContentIndex.mk path kind ext "" new_summary "" "" "")))
    end ;;
    commit).

Definition get_summary (db : Database) (path : string) : option string :=
  match sql.select_file path (files db) with
  | Some row => Registry.summary row
  | None => None
  end.

End DatabaseWrites.

(* ================================================================== *)
(** * [collections.Counter] over strings *)
(* ================================================================== *)

Module Counter.

(** The keys in the order of their first insertion, with their counts. *)
Definition t : Type := list (string * nat).

Definition empty : t := [].

(** [c[k] += 1] *)
Fixpoint incr (k : string) (c : t) : t :=
  match c with
  | [] => [(k, 1)]
  | (k', n) :: c' =>
      if String.eqb k' k then (k', S n) :: c' else (k', n) :: incr k c'
  end.

(** One step of a stable sort by decreasing count: [x] goes behind
    every entry whose count is not smaller. *)
Fixpoint insert_desc (x : string * nat) (sorted : t) : t :=
  match sorted with
  | [] => [x]
  | y :: sorted' =>
      if Nat.ltb (snd y) (snd x) then x :: sorted
      else y :: insert_desc x sorted'
  end.

Definition sort_desc (c : t) : t :=
  fold_left (fun acc x => insert_desc x acc) c [].

(** [c.most_common(n)]: the [n] entries of highest count, equal counts
    in insertion order. *)
Definition most_common (n : nat) (c : t) : t := firstn n (sort_desc c).

End Counter.

(* ================================================================== *)
(** * [database.py]: folder aggregation *)
(* ================================================================== *)

Section Aggregation.
Context {host : Host}.
Import pystr.
Local Open Scope se_scope.

Definition stack_mapping : list (string * string) :=
  [ ("py", "Python"); ("js", "JavaScript"); ("ts", "TypeScript");
    ("tsx", "React, TypeScript"); ("jsx", "React, JavaScript");
    ("sql", "SQL"); ("json", "JSON"); ("md", "Markdown"); ("csv", "CSV");
    ("yml", "YAML"); ("yaml", "YAML"); ("swift", "Swift"); ("html", "HTML");
    ("css", "CSS"); ("sh", "Shell"); ("env", "Env"); ("config", "Config") ].

(** [d.get(k)] for a dict written as its list of items *)
Fixpoint dict_get (k : string) (d : list (string * string)) : option string :=
  match d with
  | [] => None
  | (k', v) :: d' => if String.eqb k' k then Some v else dict_get k d'
  end.

(** Keeps the first occurrence of each element. *)
Fixpoint dedup_from (seen : list string) (l : list string) : list string :=
  match l with
  | [] => []
  | x :: l' =>
      if mem x seen then dedup_from seen l'
      else x :: dedup_from (x :: seen) l'
  end.

Definition _infer_stack_from_ext (ext_counts : Counter.t) : list string :=
  let labels :=
    flat_map (fun '(ext, _cnt) =>
                if negb (truthy ext) then []
                else
                  match dict_get (lower ext) stack_mapping with
                  | Some lbl => [if truthy lbl then lbl else upper ext]
                  | None => [upper ext]
                  end)
             (Counter.most_common 12 ext_counts) in
  dedup_from [] labels.

(** The rows selected by both branches of [_fetch_children_rows]:
    [WHERE path LIKE base || '%' AND path != folder_path]. *)
Definition children_like (db : Database) (folder_path : string) : list Registry.row :=
  let base := rstrip_char posixpath.sep_char folder_path ++ posixpath.sep in
  filter (fun r => sql.like (Registry.path r) (base ++ "%")
                   && negb (String.eqb (Registry.path r) folder_path))
         (files db).

Definition _fetch_children_rows (db : Database) (folder_path : string) (recursive : bool)
  : list Registry.row :=
  let base := rstrip_char posixpath.sep_char folder_path ++ posixpath.sep in
  let rows := children_like db folder_path in
  if recursive then rows
  else
    filter (fun r =>
              let p := Registry.path r in
              let rel := slice_from (len base) p in
              truthy rel && negb (contains posixpath.sep rel))
           rows.

(** The accumulators of the loop of [_compute_folder_stats]. *)
Record stats_acc : Type := mk_acc {
  file_count : nat;
  folder_count : nat;
  ext_counts : Counter.t;
  filenames : list string;
  summary_bits : list string
}.

Definition stats_step (a : stats_acc) (r : Registry.row) : stats_acc :=
  let p := Registry.path r in
  let k := Registry.kind r in
  let e := Registry.ext r in
  let s := strip (or_empty (Registry.summary r)) in
  let name := posixpath.basename p in
  let is_folder := String.eqb k "folder" in
  mk_acc
    (if is_folder then file_count a else S (file_count a))
    (if is_folder then S (folder_count a) else folder_count a)
    (if is_folder then ext_counts a else Counter.incr e (ext_counts a))
    (filenames a ++ [name])%list
    (if truthy s then (summary_bits a ++ [(name ++ ": " ++ s)%string])%list else summary_bits a).

(** Returns [(summary, tech_stack, content)]. *)
Definition _compute_folder_stats (rows : list Registry.row) (max_children : nat)
  : string * string * string :=
  let a := fold_left stats_step rows (mk_acc 0 0 Counter.empty [] []) in
  let inferred := _infer_stack_from_ext (ext_counts a) in
  let tech_stack := match inferred with [] => "Mixed" | _ => join ", " inferred end in
  let top_ext :=
    join ", "
      (flat_map (fun '(k, v) => if truthy k then [k ++ ":" ++ str_of_nat v] else [])
                (Counter.most_common 5 (ext_counts a))) in
  let summary :=
    if truthy top_ext
    then "Folder with " ++ str_of_nat (file_count a) ++ " files and "
         ++ str_of_nat (folder_count a) ++ " subfolders. Top types: " ++ top_ext ++ "."
    else "Folder with " ++ str_of_nat (file_count a) ++ " files and "
         ++ str_of_nat (folder_count a) ++ " subfolders." in
  let limited_names := join " " (firstn max_children (filenames a)) in
  let limited_summaries := join " " (firstn max_children (summary_bits a)) in
  let content := strip (summary ++ " " ++ limited_names ++ " " ++ limited_summaries) in
  (summary, tech_stack, content).

Definition update_folder_aggregate (folder_path : string) (max_children : nat) : Proc unit :=
  let folder_path := abspath folder_path in
  direct_rows <- reading (fun db => _fetch_children_rows db folder_path false) ;;
  rec_rows <- reading (fun db => _fetch_children_rows db folder_path true) ;;
  let '(direct_summary, direct_stack, _direct_content) :=
    _compute_folder_stats direct_rows max_children in
  let '(rec_summary, rec_stack, rec_content) :=
    _compute_folder_stats rec_rows max_children in
  with_connection (
    (* Update registry with DIRECT aggregates *)
    execute (set_files
      (sql.update_files_aggregate folder_path (Some direct_summary) (Some direct_stack))) ;;
    (* Preserve created/modified strings *)
    meta <- query (fun db => sql.select_index folder_path (file_index db)) ;;
    let created_str := match meta with Some m => ContentIndex.created_str m | None => "" end in
    let modified_str := match meta with Some m => ContentIndex.modified_str m | None => "" end in
    (* Update FTS with RECURSIVE aggregates *)
    execute (set_file_index (sql.delete_index folder_path)) ;;
    execute (set_file_index (sql.insert_index
      (ContentIndex.mk folder_path "folder" "" rec_content rec_summary rec_stack
         created_str modified_str))) ;;
    commit).

End Aggregation.

(* ================================================================== *)
(** * [database.py]: search *)
(* ================================================================== *)

(** An entry of a result list: the dict with keys [path], [kind] and
    [snippet] (the [score] key of ranked rows is not read anywhere). *)
Module Hit.
Record t : Type := mk {
  path : string;
  kind : string;
  snippet : string
}.
End Hit.

(** The full-text engine behind the FTS table. *)
Class TextEngine : Type := {
  (** The rows that satisfy [file_index MATCH q], in rowid order; [None]
      when the engine rejects [q] and [cursor.execute] raises. *)
  fts_match : list ContentIndex.row -> string -> option (list ContentIndex.row);
  (** [ORDER BY bm25(file_index, 6.0, 2.0, 1.0, 2.0, 1.0, 0.4, 0.4, 0.4)] *)
  bm25_order : string -> list ContentIndex.row -> list ContentIndex.row;
  (** [snippet(file_index, 3, '<b>', '</b>', '...', 30)] for a row of a
      statement with MATCH query [Some q], or without MATCH. *)
  snippet_of : option string -> ContentIndex.row -> string
}.

Section Search.
Context {host : Host} {engine : TextEngine}.
Import pystr.

(** [folder_paths.add(x)] *)
Definition set_add (x : string) (s : list string) : list string :=
  if mem x s then s else (s ++ [x])%list.

(** [SELECT path FROM files WHERE path = ? AND kind = 'folder'] has a row *)
Definition is_folder_record (db : Database) (p : string) : bool :=
  existsb (fun r => String.eqb (Registry.path r) p && String.eqb (Registry.kind r) "folder")
          (files db).

(** The [while] loop of [_get_parent_folders_for_paths].  Each turn
    replaces [cur] by [dirname cur], which is shorter, so [len cur]
    turns are enough ([climb_fuel] below). *)
Fixpoint climb (fuel : nat) (db : Database) (stop_at_abs : option string)
    (cur : string) (folder_paths : list string) : list string :=
  match fuel with
  | O => folder_paths
  | S fuel' =>
      if truthy cur && negb (String.eqb cur (posixpath.dirname cur)) then
        let folder_paths' :=
          if is_folder_record db cur then set_add cur folder_paths else folder_paths in
        if match stop_at_abs with
           | Some s => truthy s && String.eqb cur s
           | None => false
           end
        then folder_paths'
        else climb fuel' db stop_at_abs (posixpath.dirname cur) folder_paths'
      else folder_paths
  end.

(** One step of a stable sort by increasing length. *)
Fixpoint insert_by_len (x : string) (sorted : list string) : list string :=
  match sorted with
  | [] => [x]
  | y :: sorted' =>
      if Nat.ltb (len x) (len y) then x :: sorted
      else y :: insert_by_len x sorted'
  end.

Definition sorted_by_len (l : list string) : list string :=
  fold_left (fun acc x => insert_by_len x acc) l [].

Definition parent_folders_step (db : Database) (folder_paths : list string) (p : string)
  : list string :=
  let p_abs := abspath p in
  let stop_at := get_best_root_for_path db p_abs in
  let stop_at_abs := option_map abspath stop_at in
  let cur := posixpath.dirname p_abs in
  climb (len cur) db stop_at_abs cur folder_paths.

Definition _get_parent_folders_for_paths (db : Database) (paths : list string) : list string :=
  let folder_paths := fold_left (parent_folders_step db) paths [] in
  sorted_by_len (set_order folder_paths).

(** [re.findall(r'path:([A-Za-z0-9_\-\.]+)\*?', query)] *)
Definition is_path_token_char (c : ascii) : bool :=
  is_word c || Ascii.eqb c "-" || Ascii.eqb c ".".

Fixpoint path_tokens_chars (skip : nat) (l : list ascii) : list string :=
  match l with
  | [] => []
  | _ :: l' =>
      match skip with
      | S k => path_tokens_chars k l'
      | O =>
          if starts (chars "path:") l then
            let rest := skipn 5 l in
            let tok := take_while is_path_token_char rest in
            match tok with
            | [] => path_tokens_chars 0 l'
            | _ =>
                let star :=
                  match skipn (List.length tok) rest with
                  | c :: _ => if Ascii.eqb c "*" then 1 else 0
                  | [] => 0
                  end in
                str tok :: path_tokens_chars (4 + List.length tok + star) l'
            end
          else path_tokens_chars 0 l'
      end
  end.

Definition path_tokens (query : string) : list string :=
  path_tokens_chars 0 (chars query).

Definition ext_alias : list (string * string) :=
  [ ("sql files", "sql"); ("sql file", "sql");
    ("csv files", "csv"); ("csv file", "csv");
    ("json files", "json"); ("json file", "json");
    ("python scripts", "py"); ("python script", "py");
    ("react components", "tsx"); ("react component", "tsx") ].

Definition hit_of (q : option string) (row : ContentIndex.row) : Hit.t :=
  Hit.mk (ContentIndex.path row) (ContentIndex.kind row) (snippet_of q row).

(** [SELECT ... FROM file_index WHERE path LIKE ? LIMIT 10] with
    parameter [%tok%] *)
Definition select_path_like (db : Database) (tok : string) : list Hit.t :=
  map (hit_of None)
      (firstn 10 (filter (fun row => sql.like (ContentIndex.path row) ("%" ++ tok ++ "%"))
                         (file_index db))).

(** [SELECT ... FROM file_index WHERE ext = ? LIMIT 20] *)
Definition select_ext (db : Database) (e : string) : list Hit.t :=
  map (hit_of None)
      (firstn 20 (filter (fun row => String.eqb (ContentIndex.ext row) e) (file_index db))).

(** The rows collected before deduplication. *)
Definition candidates (db : Database) (query : string) : list Hit.t :=
  if contains ":" query || contains " AND " query || contains " OR " query then
    (* a failure of the MATCH statement leaves what was collected *)
    let by_path := flat_map (select_path_like db) (path_tokens query) in
    match fts_match (file_index db) query with
    | Some rows =>
        (by_path ++ map (hit_of (Some query)) (firstn 20 (bm25_order query rows)))%list
    | None => by_path
    end
  else
    let q := lower (strip query) in
    let by_ext :=
      match dict_get q ext_alias with
      | Some e => select_ext db e
      | None => []
      end in
    let by_path := select_path_like db query in
    let by_text :=
      match fts_match (file_index db) query with
      | Some rows => map (hit_of (Some query)) (firstn 20 rows)
      | None => []
      end in
    (by_ext ++ by_path ++ by_text)%list.

(** The deduplication loop: first occurrence of each path. *)
Fixpoint unique_from (seen : list string) (results : list Hit.t) : list Hit.t :=
  match results with
  | [] => []
  | res :: results' =>
      if mem (Hit.path res) seen then unique_from seen results'
      else res :: unique_from (Hit.path res :: seen) results'
  end.

(** The test of the root scoping comprehension. *)
Definition in_root_scope (root_path : string) (p : string) : bool :=
  let root_abs := rstrip_char posixpath.sep_char (abspath root_path) ++ posixpath.sep in
  String.eqb (abspath p) (abspath root_path) || startswith (abspath p) root_abs.

(** The loop that appends the parent folders not yet present. *)
Fixpoint append_folders (seen : list string) (parent_folders : list string) : list Hit.t :=
  match parent_folders with
  | [] => []
  | fp :: rest =>
      if mem fp seen then append_folders seen rest
      else Hit.mk fp "folder" "Contains matching files." :: append_folders (fp :: seen) rest
  end.

(** The results after deduplication and optional root scoping. *)
Definition scoped_results (db : Database) (query : string) (root_path : option string)
  : list Hit.t :=
  let unique_results := unique_from [] (candidates db query) in
  match root_path with
  | Some root =>
      if truthy root
      then filter (fun r => in_root_scope root (Hit.path r)) unique_results
      else unique_results
  | None => unique_results
  end.

Definition search_index (db : Database) (query : string) (root_path : option string)
  : list Hit.t :=
  let unique_results := scoped_results db query root_path in
  let seen := map Hit.path unique_results in
  let file_paths :=
    map Hit.path (filter (fun r => String.eqb (Hit.kind r) "file") unique_results) in
  let unique_results' :=
    match file_paths with
    | [] => unique_results
    | _ =>
        let parent_folders := _get_parent_folders_for_paths db file_paths in
        (unique_results ++ append_folders seen parent_folders)%list
    end in
  firstn 20 unique_results'.

End Search.

(* ================================================================== *)
(** * [indexer.py] *)
(* ================================================================== *)

(** What [os.stat] returns, as far as it is read: [st_mtime], the
    creation time ([st_birthtime], or [st_ctime] without it), [st_size]. *)
Record Stat : Type := mkStat {
  st_mtime : Z;
  st_created : Z;
  st_size : Z
}.

(** A file on disk: [os.stat] and [open().read()] each give a result or
    raise. *)
Record FileNode : Type := mkFileNode {
  file_stat : option Stat;
  file_text : option string
}.

(** A directory on disk: its [os.stat], and its entries in the order
    [os.walk] lists them. *)
Inductive DirNode : Type :=
| Dir (dir_stat : option Stat)
      (dir_files : list (string * FileNode))
      (dir_dirs : list (string * DirNode)).

Section Indexer.
Context {host : Host}.
Import pystr.
Local Open Scope se_scope.

Definition SUPPORTED_EXTS : list string :=
  [ ".txt"; ".md"; ".py"; ".swift"; ".json";
    ".js"; ".ts"; ".tsx"; ".jsx"; ".css"; ".html";
    ".sql"; ".csv"; ".yaml"; ".yml"; ".sh"; ".config"; ".env" ].

(** [os.walk(root)], top-down, with [dirs[:]] pruned of the names that
    start with a dot: the visited directories with their stat and
    their files. *)
Fixpoint walk (root : string) (d : DirNode) : list (string * option Stat * list (string * FileNode)) :=
  match d with
  | Dir st fs ds =>
      (root, st, fs) ::
      flat_map (fun nd =>
                  if startswith (fst nd) "." then []
                  else walk (posixpath.join root (fst nd)) (snd nd))
               ds
  end.

Definition process_file (path : string) (node : FileNode) : Proc bool :=
  try_except (
    stats <- of_option (file_stat node) ;;
    content <- of_option (file_text node) ;;
    let created := st_created stats in
    _ <- insert_file (abspath path) content (st_mtime stats) created (st_size stats) ;;
    ret true)
  (ret false).

(** The inner loop over the files of one directory. *)
Fixpoint index_files (root : string) (fs : list (string * FileNode)) (count : nat) : Proc nat :=
  match fs with
  | [] => ret count
  | (file, node) :: rest =>
      if startswith file "." then index_files root rest count
      else
        let ext := lower (posixpath.splitext_ext file) in
        if negb (mem ext SUPPORTED_EXTS) then index_files root rest count
        else
          let full_path := posixpath.join root file in
          ok <- process_file full_path node ;;
          index_files root rest (if ok then S count else count)
  end.

(** The outer loop over the visited directories. *)
Fixpoint index_dirs (visited : list (string * option Stat * list (string * FileNode)))
    (count : nat) (folders_seen : list string) : Proc (nat * list string) :=
  match visited with
  | [] => ret (count, folders_seen)
  | (root, st, fs) :: rest =>
      folders_seen' <-
        try_except (
          stats <- of_option st ;;
          let created := st_created stats in
          _ <- insert_folder (abspath root) (st_mtime stats) created ;;
          ret (folders_seen ++ [abspath root])%list)
        (ret folders_seen) ;;
      count' <- index_files root fs count ;;
      index_dirs rest count' folders_seen'
  end.

(** One step of a stable sort by decreasing length. *)
Fixpoint insert_by_len_desc (x : string) (sorted : list string) : list string :=
  match sorted with
  | [] => [x]
  | y :: sorted' =>
      if Nat.ltb (len y) (len x) then x :: sorted
      else y :: insert_by_len_desc x sorted'
  end.

Definition sorted_by_len_desc (l : list string) : list string :=
  fold_left (fun acc x => insert_by_len_desc x acc) l [].

(** [scan_directory(root_path)] when the tree under [root_path] is [fs]. *)
Definition scan_directory (root_path : string) (fs : DirNode) : Proc nat :=
  let root_path := abspath root_path in
  add_index_root root_path ;;
  r <- index_dirs (walk root_path fs) 0 [] ;;
  let '(count, folders_seen) := r in
  (* Aggregate folders bottom-up *)
  for_each (sorted_by_len_desc folders_seen)
    (fun folder => try_except (update_folder_aggregate folder 60) (ret tt)) ;;
  ret count.

End Indexer.

(* ================================================================== *)
(** * [ai.py]: intent cache, rules, parser, query builder *)
(* ================================================================== *)

(** The dict handed to [build_fts_query].  A field is [None] when the key
    is absent or its value is falsy, and else holds [str(value)]. *)
Record Intent : Type := mkIntent {
  date_filter : option string;
  tech_filter : option string;
  keywords : option string
}.

(** The outcome of [ollama.chat(...)] followed by
    [response["message"]["content"]]. *)
Inductive chat_result : Type :=
| ChatRaises                              (* an error or a timeout of the call *)
| ChatContent (content : option string).  (* the content, [None] for a null *)

(** The collaborators of [ai.py]. *)
Class AiHost : Type := {
  (** [ollama.chat] on a prompt, and the seconds it takes. *)
  chat : string -> chat_result;
  chat_seconds : string -> nat;
  (** [json.loads(blob)] read as an [Intent]; [None] when it raises. *)
  json_loads : string -> option Intent;
  (** [dateutil.parser.parse(val).strftime("%Y %b %d")] at a given time of
      the clock; [None] when the parser raises. *)
  dateutil_token : Z -> string -> option string;
  (** [datetime.now()] formatted with ["%Y %b %d"] and ["%Y-%m-%d"], and
      the day before it with ["%Y %b %d"], at a given time of the clock. *)
  today_token : Z -> string;
  yesterday_token : Z -> string;
  date_context : Z -> string
}.

(** The state of the module: the cache dict from key to
    [(value, expires)], the clock [time.time()], and the number of calls
    made to the text generator so far. *)
Record AiState : Type := mkAiState {
  cache : list (string * (string * Z));
  clock : Z;
  chats : nat
}.

Module regex.
Import pystr.

(** [re.search]: the first position at which the matcher succeeds.  A
    matcher sees the character before the position, for [\b]. *)
Fixpoint search {A} (m : option ascii -> list ascii -> option A)
    (prev : option ascii) (l : list ascii) : option A :=
  match m prev l with
  | Some a => Some a
  | None =>
      match l with
      | [] => None
      | c :: l' => search m (Some c) l'
      end
  end.

(** A literal, case-sensitive or not: what follows it. *)
Fixpoint lit (ignore_case : bool) (p l : list ascii) : option (list ascii) :=
  match p, l with
  | [], _ => Some l
  | _ :: _, [] => None
  | a :: p', b :: l' =>
      if (if ignore_case then Ascii.eqb (lower_char a) (lower_char b) else Ascii.eqb a b)
      then lit ignore_case p' l'
      else None
  end.

(** [\b] between [prev] and the head of [l] *)
Definition boundary (prev : option ascii) (l : list ascii) : bool :=
  let w1 := match prev with Some c => is_word c | None => false end in
  let w2 := match l with c :: _ => is_word c | [] => false end in
  xorb w1 w2.

(** [\s+]: what follows the run, when the run is not empty *)
Definition spaces1 (l : list ascii) : option (list ascii) :=
  match l with
  | c :: _ => if is_space c then Some (drop_while is_space l) else None
  | [] => None
  end.

(** [(20\d{2})\b]: the year and what follows it *)
Definition year_then_boundary (l : list ascii) : option string :=
  match l with
  | a :: b :: c :: d :: rest =>
      if Ascii.eqb a "2" && Ascii.eqb b "0" && is_digit c && is_digit d
         && boundary (Some d) rest
      then Some (str [a; b; c; d])
      else None
  | _ => None
  end.

(** [\bfiles\s+WORD\s+(20\d{2})\b] at one position *)
Definition files_word_year (word : string) (prev : option ascii) (l : list ascii)
  : option string :=
  if boundary prev l then
    match lit false (chars "files") l with
    | Some l1 =>
        match spaces1 l1 with
        | Some l2 =>
            match lit false (chars word) l2 with
            | Some l3 =>
                match spaces1 l3 with
                | Some l4 => year_then_boundary l4
                | None => None
                end
            | None => None
            end
        | None => None
        end
    | None => None
    end
  else None.

(** [\b(20\d{2})\b] at one position *)
Definition bare_year (prev : option ascii) (l : list ascii) : option string :=
  if boundary prev l then year_then_boundary l else None.

(** [re.fullmatch(r"20\d{2}", val)] *)
Definition is_year (val : string) : bool :=
  match chars val with
  | [a; b; c; d] => Ascii.eqb a "2" && Ascii.eqb b "0" && is_digit c && is_digit d
  | _ => false
  end.

Definition dquote : ascii := ascii_of_nat 34.

(** The alternatives of the value group of [_regex_extract_intent], in
    the order of the pattern: the literal null, a quoted string, and,
    where the pattern has them, four digits and a run of word
    characters.  Nothing follows the group, so the first alternative
    that matches is taken. *)
Definition value_group (with_digits with_word : bool) (l : list ascii) : option string :=
  match lit true (chars "null") l with
  | Some rest => Some (str (firstn 4 l))
  | None =>
      let quoted :=
        match l with
        | q :: l1 =>
            if Ascii.eqb q dquote then
              let body := take_while (fun c => negb (Ascii.eqb c dquote)) l1 in
              match skipn (List.length body) l1 with
              | q' :: _ => Some (str ((q :: body) ++ [q'])%list)
              | [] => None
              end
            else None
        | [] => None
        end in
      match quoted with
      | Some v => Some v
      | None =>
          let digits :=
            match l with
            | a :: b :: c :: d :: _ =>
                if with_digits && is_digit a && is_digit b && is_digit c && is_digit d
                then Some (str [a; b; c; d]) else None
            | _ => None
            end in
          match digits with
          | Some v => Some v
          | None =>
              match take_while is_word l with
              | [] => None
              | w => if with_word then Some (str w) else None
              end
          end
      end
  end.

(** [KEY\s*:\s*(...)] with [re.IGNORECASE] at one position *)
Definition key_value (key : string) (with_digits with_word : bool)
    (_ : option ascii) (l : list ascii) : option string :=
  match lit true (chars key) l with
  | Some l1 =>
      match drop_while is_space l1 with
      | c :: l2 =>
          if Ascii.eqb c ":" then value_group with_digits with_word (drop_while is_space l2)
          else None
      | [] => None
      end
  | None => None
  end.

(** [re.search(r"\{.*\}", text, re.DOTALL)]: from the first opening
    brace to the last closing brace behind it. *)
Definition brace_block (text : string) : option string :=
  let from_open := drop_while (fun c => negb (Ascii.eqb c "{")) (chars text) in
  let upto_close := rev (drop_while (fun c => negb (Ascii.eqb c "}")) (rev from_open)) in
  match upto_close with
  | [] => None
  | _ => Some (str upto_close)
  end.

End regex.

Section Ai.
Context {ai_host : AiHost}.
Import pystr.
Local Open Scope se_scope.

Definition _INTENT_CACHE_TTL_SEC : Z := 120.

(** [d[k] = v] on a dict written as its list of items *)
Fixpoint dict_set {V} (k : string) (v : V) (d : list (string * V)) : list (string * V) :=
  match d with
  | [] => [(k, v)]
  | (k', v') :: d' =>
      if String.eqb k' k then (k', v) :: d' else (k', v') :: dict_set k v d'
  end.

Fixpoint dict_find {V} (k : string) (d : list (string * V)) : option V :=
  match d with
  | [] => None
  | (k', v) :: d' => if String.eqb k' k then Some v else dict_find k d'
  end.

(** [d.pop(k, None)] *)
Definition dict_pop {V} (k : string) (d : list (string * V)) : list (string * V) :=
  filter (fun kv => negb (String.eqb (fst kv) k)) d.

Definition _cache_get (key : string) : SE AiState (option string) :=
  fun s =>
    let now := clock s in
    match dict_find key (cache s) with
    | None => (Val None, s)
    | Some (value, expires) =>
        if Z.ltb expires now
        then (Val None, mkAiState (dict_pop key (cache s)) (clock s) (chats s))
        else (Val (Some value), s)
    end.

Definition _cache_set (key value : string) : SE AiState unit :=
  fun s =>
    (Val tt,
     mkAiState (dict_set key (value, (clock s + _INTENT_CACHE_TTL_SEC)%Z) (cache s))
               (clock s) (chats s)).

(** [re.sub(r"[^\w\s]", " ", s).strip()] *)
Definition clean_string (s : string) : string :=
  if negb (truthy s) then ""
  else strip (str (map (fun c => if is_word c || is_space c then c else " "%char) (chars s))).

(** ** Deterministic fast-path rules *)

(** The f-string [(created_str:"{y}" OR modified_str:"{y}")] *)
Definition date_clause (token : string) : string :=
  "(created_str:" ++ String regex.dquote token ++ String regex.dquote ""
  ++ " OR modified_str:" ++ String regex.dquote token ++ String regex.dquote ")".

Definition _rule_based_intent (user_query : string) : option string :=
  let q := lower (strip user_query) in
  (* files from 2024 *)
  match regex.search (regex.files_word_year "from") None (chars q) with
  | Some y => Some (date_clause y)
  | None =>
      (* files in 2024 *)
      match regex.search (regex.files_word_year "in") None (chars q) with
      | Some y => Some (date_clause y)
      | None =>
          if mem q ["budget files"; "budget file"]
          then Some "(path:budget* OR content:budget OR summary:budget OR ext:csv OR ext:md)"
          else None
      end
  end.

(** ** Regex repair of a malformed reply *)

Definition repaired_field (m : option string) : option string :=
  match m with
  | Some v =>
      if String.eqb (lower v) "null" then None else Some (strip_char regex.dquote v)
  | None => None
  end.

Definition _regex_extract_intent (text : string) : Intent :=
  mkIntent
    (repaired_field (regex.search (regex.key_value "date_filter" true true) None (chars text)))
    (repaired_field (regex.search (regex.key_value "tech_filter" false true) None (chars text)))
    (repaired_field (regex.search (regex.key_value "keywords" false false) None (chars text))).

(** ** Query builder *)

Definition month_words : list string :=
  ["jan"; "feb"; "mar"; "apr"; "may"; "jun"; "jul"; "aug"; "sep"; "oct"; "nov"; "dec"].

Definition time_triggers : list string :=
  (["today"; "yesterday"; "week"; "month"; "year"; "202"] ++ month_words)%list.

Definition ext_map : list (string * string) :=
  [ ("python", "py"); ("javascript", "js"); ("typescript", "ts"); ("react", "tsx");
    ("tsx", "tsx"); ("jsx", "jsx"); ("sql", "sql"); ("csv", "csv");
    ("markdown", "md"); ("json", "json"); ("yaml", "yml") ].

Definition fillers : list string :=
  ([ "files"; "file"; "made"; "created"; "modified";
     "scripts"; "script"; "documents"; "document";
     "show"; "me"; "find"; "give"; "list";
     "main"; "components"; "component"; "app";
     "from"; "in"; "on"; "of"; "the"; "a"; "an";
     "today"; "yesterday"; "tomorrow";
     "week"; "month"; "year" ] ++ month_words)%list.

(** A field that is set: truthy and not the text null. *)
Definition field_set (o : option string) : bool :=
  match o with
  | Some v => truthy v && negb (String.eqb (lower v) "null")
  | None => false
  end.

(** The clause derived from the [date_filter] of the intent. *)
Definition derived_date_parts (now : Z) (data : Intent) : list string :=
  if field_set (date_filter data) then
    let val := lower (or_empty (date_filter data)) in
    let date_str :=
      if contains "yesterday" val then yesterday_token now
      else if contains "today" val then today_token now
      else if regex.is_year val then val
      else match dateutil_token now val with Some d => d | None => val end in
    [date_clause date_str]
  else [].

Definition date_parts (now : Z) (data : Intent) (oq : string) : list string :=
  let user_mentioned_time := existsb (fun t => contains t oq) time_triggers in
  if user_mentioned_time then
    (* Year override when the user typed a bare year and no month. *)
    let year_match := regex.search regex.bare_year None (chars oq) in
    let has_month_word := existsb (fun m => contains m oq) month_words in
    match year_match with
    | Some year =>
        if negb has_month_word && negb (contains "today" oq) && negb (contains "yesterday" oq)
        then [date_clause year]
        else derived_date_parts now data
    | None => derived_date_parts now data
    end
  else [].

Definition tech_value (data : Intent) : option string :=
  if field_set (tech_filter data) then Some (clean_string (or_empty (tech_filter data)))
  else None.

Definition tech_parts (data : Intent) : list string :=
  match tech_value data with
  | Some tech_val =>
      let clauses := ["content:" ++ tech_val; "path:" ++ tech_val] in
      let clauses' :=
        match dict_find (lower tech_val) ext_map with
        | Some ext_tok =>
            (clauses ++ [("ext:" ++ ext_tok)%string; ("path:" ++ ext_tok)%string;
                        ("path:" ++ ext_tok ++ "*")%string])%list
        | None => clauses
        end in
      ["(" ++ join " OR " clauses' ++ ")"]
  | None => []
  end.

Definition keyword_parts (data : Intent) : list string :=
  if field_set (keywords data) then
    let val := clean_string (or_empty (keywords data)) in
    let fillers' :=
      match tech_value data with
      | Some tech_val => if truthy tech_val then (fillers ++ [lower tech_val])%list else fillers
      | None => fillers
      end in
    let clean_words := filter (fun w => negb (mem (lower w) fillers')) (words val) in
    match clean_words with
    | [] => []
    | _ =>
        let final_kw := join " " clean_words in
        if Nat.eqb (List.length (words final_kw)) 1
        then ["(path:" ++ final_kw ++ "* OR ext:" ++ final_kw ++ " OR content:" ++ final_kw
              ++ " OR summary:" ++ final_kw ++ ")"]
        else ["(content:" ++ final_kw ++ " OR summary:" ++ final_kw ++ " OR path:"
              ++ final_kw ++ "*)"]
    end
  else [].

Definition build_fts_query (now : Z) (data : Intent) (original_query : string) : string :=
  let oq := lower original_query in
  let parts := (date_parts now data oq ++ tech_parts data ++ keyword_parts data)%list in
  match parts with
  | [] => ""
  | _ => join " AND " (dedup_from [] parts)
  end.

(** ** Robust intent parse *)

Definition time_now_clock : SE AiState Z := fun s => (Val (clock s), s).

(** The call of the text generator: counted, takes its time, and gives
    the content of the reply or raises. *)
Definition ollama_chat (prompt : string) : SE AiState (option string) :=
  fun s =>
    let s' := mkAiState (cache s) (clock s + Z.of_nat (chat_seconds prompt))%Z (S (chats s)) in
    match chat prompt with
    | ChatRaises => (Raise, s')
    | ChatContent content => (Val content, s')
    end.

Definition intent_prompt (date_context user_query : string) : string :=
  String (ascii_of_nat 10) "You are a Search Intent Parser." ++ String (ascii_of_nat 10)
    "CONTEXT: Today is " ++ date_context ++ "." ++ String (ascii_of_nat 10) ""
  ++ String (ascii_of_nat 10)
    "Return ONLY valid JSON (double quotes, no trailing commas). No markdown fences."
  ++ String (ascii_of_nat 10) "" ++ String (ascii_of_nat 10) "JSON SCHEMA:"
  ++ String (ascii_of_nat 10) "{" ++ String (ascii_of_nat 10) "  "
  ++ String regex.dquote "date_filter" ++ String regex.dquote ": "
  ++ String regex.dquote "string or null" ++ String regex.dquote ","
  ++ String (ascii_of_nat 10) "  "
  ++ String regex.dquote "tech_filter" ++ String regex.dquote ": "
  ++ String regex.dquote "string or null" ++ String regex.dquote ","
  ++ String (ascii_of_nat 10) "  "
  ++ String regex.dquote "keywords" ++ String regex.dquote ": "
  ++ String regex.dquote "string or null" ++ String regex.dquote ""
  ++ String (ascii_of_nat 10) "}" ++ String (ascii_of_nat 10) ""
  ++ String (ascii_of_nat 10) "User Query: " ++ String regex.dquote user_query
  ++ String regex.dquote "" ++ String (ascii_of_nat 10) "".

(** [final = build_fts_query(...)], the fallback when it is empty,
    [_cache_set] and [return]. *)
Definition finish (normalized user_query final : string) : SE AiState string :=
  let final := if truthy final then final else clean_string user_query in
  _cache_set normalized final ;;
  ret final.

Definition parse_search_intent (user_query : string) : SE AiState string :=
  let normalized := clean_string (lower user_query) in
  cached <- _cache_get normalized ;;
  match cached with
  | Some cached => ret cached
  | None =>
      (* 0) Rule-based fast path *)
      match _rule_based_intent user_query with
      | Some ruled =>
          _cache_set normalized ruled ;;
          ret ruled
      | None =>
          today <- time_now_clock ;;
          let prompt := intent_prompt (date_context today) user_query in
          try_except (
            content <- ollama_chat prompt ;;
            let result := strip (or_empty content) in
            let clean_result :=
              strip (replace "```" "" (replace "```json" "" result)) in
            match regex.brace_block clean_result with
            | Some blob =>
                try_except (
                  data <- of_option (json_loads blob) ;;
                  now <- time_now_clock ;;
                  finish normalized user_query (build_fts_query now data user_query))
                ( (* 1) JSON repair fallback: extract fields via regex *)
                  let repaired := _regex_extract_intent clean_result in
                  now <- time_now_clock ;;
                  finish normalized user_query (build_fts_query now repaired user_query))
            | None =>
                let fallback := clean_string user_query in
                _cache_set normalized fallback ;;
                ret fallback
            end)
          ( let fallback := clean_string user_query in
            _cache_set normalized fallback ;;
            ret fallback)
      end
  end.

End Ai.

(* ================================================================== *)
(** * [database.py]: index rebuild *)
(* ================================================================== *)

Section Rebuild.
Context {host : Host}.
Import pystr.
Local Open Scope se_scope.

(** [cursor.execute] of a DROP TABLE or CREATE TABLE outside a
    transaction: it takes effect at once. *)
Definition execute_ddl (u : Database -> Database) : Sql unit :=
  fun c =>
    let n := conn_attempts c in
    if write_refused n
    then (Raise, mkConn (committed c) (view c) (S n))
    else (Val tt, mkConn (u (view c)) (u (view c)) (S n)).

(** The body of the loop of [rebuild_fts_index]. *)
Definition rebuild_row (r : Registry.row) : Sql unit :=
  let path := Registry.path r in
  let kind := if truthy (Registry.kind r) then Registry.kind r else "file" in
  let ext := Registry.ext r in
  let content :=
    if String.eqb kind "file"
    then match read_text path with Some text => text | None => "" end
    else "" in
  c_str <- date_token_of (Registry.creation_time r) ;;
  m_str <- date_token_of (Registry.last_modified r) ;;
  execute (set_file_index (sql.insert_index
    (ContentIndex.mk path kind ext content
       (or_empty (Registry.summary r)) (or_empty (Registry.tech_stack r)) c_str m_str))).

Definition rebuild_fts_index : Proc unit :=
  with_connection (
    execute_ddl (set_file_index (fun _ => [])) ;;
    execute_ddl (fun db => db) ;;
    commit ;;
    rows <- query files ;;
    for_each rows rebuild_row ;;
    commit).

End Rebuild.

(* ================================================================== *)
(** * [server.py]: the search request *)
(* ================================================================== *)

Section SearchRequest.
Context {host : Host} {engine : TextEngine} {ai_host : AiHost}.
Import pystr.
Local Open Scope se_scope.

(** The [search] branch of [handle_request], up to the result list. *)
Definition handle_search (db : Database) (query : option string) (use_ai : bool)
    (root_path : option string) : SE AiState (list Hit.t) :=
  let final_query := or_empty query in
  final_query' <-
    (if use_ai then
       translated_query <- parse_search_intent final_query ;;
       let translated_query := replace "%" "*" translated_query in
       if truthy translated_query && negb (String.eqb translated_query final_query)
       then ret translated_query
       else ret final_query
     else ret final_query) ;;
  ret (search_index db final_query' root_path).

End SearchRequest.

(* ================================================================== *)
(** * [database.py]: folder listing and the files without a summary *)
(* ================================================================== *)

(** An entry of the list returned by [list_folder_children]: the dict of
    the eight columns selected. *)
Module FolderEntry.
Record t : Type := mk {
  path : string;
  kind : string;
  ext : string;
  last_modified : Z;
  creation_time : Z;
  size : Z;
  summary : option string;
  tech_stack : option string
}.
End FolderEntry.

Section FolderListing.
Context {host : Host}.
Import pystr.

Definition entry_of (r : Registry.row) : FolderEntry.t :=
  FolderEntry.mk (Registry.path r) (Registry.kind r) (Registry.ext r)
    (Registry.last_modified r) (Registry.creation_time r) (Registry.size r)
    (Registry.summary r) (Registry.tech_stack r).

(** The sort key [(0 if x["kind"] == "folder" else 1,
    os.path.basename(x["path"]).lower())]. *)
Definition entry_key (x : FolderEntry.t) : nat * string :=
  (if String.eqb (FolderEntry.kind x) "folder" then 0 else 1,
   lower (posixpath.basename (FolderEntry.path x))).

(** [a < b] on two such tuples: by the number, then by the text,
    character by character. *)
Definition key_ltb (a b : nat * string) : bool :=
  Nat.ltb (fst a) (fst b) || (Nat.eqb (fst a) (fst b) && String.ltb (snd a) (snd b)).

(** One step of a stable sort by increasing key. *)
Fixpoint insert_by_key (x : FolderEntry.t) (sorted : list FolderEntry.t) : list FolderEntry.t :=
  match sorted with
  | [] => [x]
  | y :: sorted' =>
      if key_ltb (entry_key x) (entry_key y) then x :: sorted
      else y :: insert_by_key x sorted'
  end.

Definition sorted_by_key (l : list FolderEntry.t) : list FolderEntry.t :=
  fold_left (fun acc x => insert_by_key x acc) l [].

(** The test of the loop of [list_folder_children] on a selected row:
    what follows the base in its path is not empty and has no
    separator. *)
Definition is_listed (base : string) (r : Registry.row) : bool :=
  let rel := slice_from (len base) (Registry.path r) in
  truthy rel && negb (contains posixpath.sep rel).

Definition list_folder_children (db : Database) (folder_path : string) : list FolderEntry.t :=
  let base := rstrip_char posixpath.sep_char (abspath folder_path) ++ posixpath.sep in
  let rows := filter (fun r => sql.like (Registry.path r) (base ++ "%")) (files db) in
  let out := map entry_of (filter (is_listed base) rows) in
  sorted_by_key out.

(** [WHERE kind='file' AND (summary IS NULL OR summary = '')] *)
Definition unsummarized (r : Registry.row) : bool :=
  String.eqb (Registry.kind r) "file"
  && match Registry.summary r with
     | None => true
     | Some s => String.eqb s ""
     end.

Definition get_unsummarized_files (db : Database) : list string :=
  map Registry.path (filter unsummarized (files db)).

End FolderListing.

(* ================================================================== *)
(** * [database.py]: aggregates up the tree *)
(* ================================================================== *)

(** What the daemon sees of the file system, beside the text of files. *)
Class FileSystem : Type := {
  (** [os.path.exists(path)] and [os.path.isdir(path)] *)
  path_exists : string -> bool;
  path_isdir : string -> bool;
  (** The tree that [os.walk] finds under a path. *)
  tree_at : string -> DirNode
}.

Section UpTree.
Context {host : Host} {fs : FileSystem}.
Import pystr.
Local Open Scope se_scope.

(** The [while] loop of [update_folder_aggregate_up_tree].  Each turn
    replaces [current] by [dirname current], which is shorter, so
    [len current] turns are enough ([up_tree_fuel] below). *)
Fixpoint up_tree_loop (fuel : nat) (stop : option string) (current : string) : Proc unit :=
  match fuel with
  | O => ret tt
  | S fuel' =>
      if truthy current && negb (String.eqb current (posixpath.dirname current)) then
        meta <- reading (fun db => get_file_metadata db current) ;;
        (match meta with
         | Some m =>
             if String.eqb (Registry.kind m) "folder"
             then try_except (update_folder_aggregate current 60) (ret tt)
             else ret tt
         | None => ret tt
         end) ;;
        if match stop with
           | Some s => truthy s && String.eqb (abspath current) s
           | None => false
           end
        then ret tt
        else up_tree_loop fuel' stop (posixpath.dirname current)
      else ret tt
  end.

Definition update_folder_aggregate_up_tree (path : string) (stop_at : option string)
  : Proc unit :=
  let p := abspath path in
  let stop :=
    match stop_at with
    | Some s => if truthy s then Some (abspath s) else None
    | None => None
    end in
  let current := if path_isdir p then p else posixpath.dirname p in
  up_tree_loop (len current) stop current.

End UpTree.

(* ================================================================== *)
(** * [ai.py]: summaries and analyses *)
(* ================================================================== *)

(** The text of the exception that [ollama.chat] raises on a prompt. *)
Class ChatFaults : Type := {
  chat_error : string -> string
}.

Section AiTexts.
Context {ai_host : AiHost} {faults : ChatFaults}.
Import pystr.
Local Open Scope se_scope.

Definition nl : string := String (ascii_of_nat 10) "".

(** A text between double quotes. *)
Definition quoted (s : string) : string :=
  String regex.dquote s ++ String regex.dquote "".

Definition summary_prompt (truncated_text : string) : string :=
  join nl
    [ "";
      "Analyze the following text and provide a specific, high-density summary.";
      "";
      "RULES:";
      "1. IF IT IS CODE/CONFIG: Identify the project name, key tech stack (versions), and the specific logic implemented.";
      "2. IF IT IS PROSE/TEXT: Identify the core subject, key characters/entities, and the narrative arc or purpose.";
      "";
      "Output a single paragraph (max 50 words). Be direct.";
      "";
      "--- CONTENT START ---";
      truncated_text;
      "--- CONTENT END ---";
      "" ].

(** [response["message"]["content"].strip()]: raises on a null content. *)
Definition stripped_reply (prompt : string) : SE AiState string :=
  content <- ollama_chat prompt ;;
  text <- of_option content ;;
  ret (strip text).

Definition generate_summary (text_content : string) : SE AiState string :=
  try_except
    (let truncated_text := slice_to 4000 text_content in
     stripped_reply (summary_prompt truncated_text))
    (ret "Analysis failed.").

Definition refine_prompt (current_summary user_instruction : string) : string :=
  join nl
    [ "";
      "You are a text editor. Update the following summary based on the user's instruction.";
      "Keep the tone professional. Output ONLY the new summary.";
      "";
      "--- CURRENT SUMMARY ---";
      current_summary;
      "";
      "--- USER INSTRUCTION ---";
      user_instruction;
      "" ].

(** The [except] branch returns the text of the exception: that of the
    call, or that of [None.strip()] for a reply without content. *)
Definition refine_summary (current_summary user_instruction : string) : SE AiState string :=
  fun a =>
    let prompt := refine_prompt current_summary user_instruction in
    match ollama_chat prompt a with
    | (Val (Some text), a') => (Val (strip text), a')
    | (Val None, a') =>
        (Val "Error refining: 'NoneType' object has no attribute 'strip'", a')
    | (Raise, a') => (Val ("Error refining: " ++ chat_error prompt), a')
    end.

Definition tech_stack_prompt (content : string) : string :=
  join nl
    [ "";
      "Identify the programming language, data format (e.g., JSON, YAML, Markdown),";
      "or software frameworks used in this file.";
      "";
      "Output ONLY the specific names (comma separated).";
      "Example: " ++ quoted "TypeScript, React, JSON";
      "If it is standard prose/text with no code, say " ++ quoted "Plain Text" ++ ".";
      "";
      "--- CONTENT ---";
      slice_to 2000 content;
      "" ].

Definition detect_tech_stack (content : string) : SE AiState string :=
  let prompt := tech_stack_prompt content in
  try_except (stripped_reply prompt) (ret "Unknown").

Definition search_context_prompt (content query : string) : string :=
  join nl
    [ "";
      "The user searched for the term: " ++ quoted query ++ ".";
      "Explain specifically HOW and WHERE this term is used in the file below.";
      "Give context (e.g., " ++ quoted "It is a variable in the auth function" ++ " or "
        ++ quoted "It is a character name" ++ ").";
      "Keep it to 1 sentence.";
      "";
      "--- CONTENT ---";
      slice_to 3000 content;
      "" ].

Definition analyze_search_context (content query : string) : SE AiState string :=
  let prompt := search_context_prompt content query in
  try_except (stripped_reply prompt) (ret "Context analysis failed.").

End AiTexts.

(* ================================================================== *)
(** * [server.py]: the background summariser and the requests *)
(* ================================================================== *)

(** The state of the daemon: the store and the state of [ai.py]. *)
Record Daemon : Type := mkDaemon {
  store : World;
  ai : AiState
}.

(** A decoded request: the method and the parameters it reads.  The
    parameters that a method hands on without a test are taken to be
    present and to be strings. *)
Inductive Request : Type :=
| Ping
| IndexFolder (path : option string)
| Search (query : option string) (use_ai : bool) (root_path : option string)
| GetSummary (path : string)
| SaveSummary (path summary : string)
| RefineSummary (current_summary instruction : string)
| GetExpandedDetails (path : string) (query : option string)
| ListFolder (path : option string)
| UnknownMethod (method : option string).

(** The dict returned for a request, by its shape.  The three error
    shapes have the status [error], the others the status [success];
    [ErrorBare] has no message, and the message of [ErrorRaised] is the
    text of the exception caught. *)
Inductive Response : Type :=
| Pong
| Indexed (count : nat)
| Results (data : list Hit.t)
| SummaryOf (data source : string)
| Saved
| Refined (data : string)
| Details (tech_stack search_context : string) (created modified : Z) (kind : string)
| Children (data : list FolderEntry.t)
| ErrorMessage (message : string)
| ErrorBare
| ErrorRaised.

Section Server.
Context {host : Host} {fs : FileSystem} {engine : TextEngine} {ai_host : AiHost}
        {faults : ChatFaults}.
Import pystr.
Local Open Scope se_scope.

Definition on_store {A} (m : Proc A) : SE Daemon A :=
  fun d => let '(r, w) := m (store d) in (r, mkDaemon w (ai d)).

Definition on_ai {A} (m : SE AiState A) : SE Daemon A :=
  fun d => let '(r, a) := m (ai d) in (r, mkDaemon (store d) a).

(** [with open(path, 'r', encoding='utf-8', errors='ignore') as f:
    content = f.read()] *)
Definition read_file (path : string) : SE Daemon string := of_option (read_text path).

(** [update_summary], then the aggregates of the folders above the
    path, up to its best indexed root. *)
Definition save_and_aggregate (path summary : string) : SE Daemon unit :=
  on_store (update_summary path summary) ;;
  stop_at <- on_store (reading (fun db => get_best_root_for_path db path)) ;;
  on_store (update_folder_aggregate_up_tree path stop_at).

(** One turn of the loop of [background_summarizer], with nothing else
    running between its statements; the pauses are left out. *)
Definition summarizer_turn : SE Daemon unit :=
  try_except (
    files_to_do <- on_store (reading get_unsummarized_files) ;;
    match files_to_do with
    | [] => ret tt
    | path :: _ =>
        if path_exists path then
          content <- read_file path ;;
          summary <- on_ai (generate_summary content) ;;
          save_and_aggregate path summary
        else ret tt
    end)
  (ret tt).

Fixpoint summarizer_turns (n : nat) : SE Daemon unit :=
  match n with
  | O => ret tt
  | S n' => summarizer_turn ;; summarizer_turns n'
  end.

Definition handle_index_folder (path : option string) : SE Daemon Response :=
  match path with
  | Some path =>
      if negb (truthy path) || negb (path_exists path)
      then ret (ErrorMessage "Invalid path")
      else
        count <- on_store (scan_directory path (tree_at (abspath path))) ;;
        ret (Indexed count)
  | None => ret (ErrorMessage "Invalid path")
  end.

Definition handle_get_summary (path : string) : SE Daemon Response :=
  saved_summary <- on_store (reading (fun db => get_summary db path)) ;;
  if truthy_opt saved_summary then ret (SummaryOf (or_empty saved_summary) "db")
  else if negb (path_exists path) then ret (ErrorMessage "File not found")
  else
    content <- read_file path ;;
    new_summary <- on_ai (generate_summary content) ;;
    save_and_aggregate path new_summary ;;
    ret (SummaryOf new_summary "ai").

Definition handle_save_summary (path new_text : string) : SE Daemon Response :=
  save_and_aggregate path new_text ;;
  ret Saved.

Definition handle_expanded_details (path : string) (query : option string)
  : SE Daemon Response :=
  meta <- on_store (reading (fun db => get_file_metadata db path)) ;;
  match meta with
  | None => ret ErrorBare
  | Some meta =>
      let kind := Registry.kind meta in
      let tech_stack := or_empty (Registry.tech_stack meta) in
      if String.eqb kind "folder" then
        ret (Details (if truthy tech_stack then tech_stack else "Mixed")
               "Folder result. Use list_folder to browse."
               (Registry.creation_time meta) (Registry.last_modified meta) "folder")
      else
        tech_stack <-
          (if negb (truthy tech_stack) && path_exists path then
             content <- read_file path ;;
             tech_stack <- on_ai (detect_tech_stack content) ;;
             on_store (update_tech_stack path tech_stack) ;;
             ret tech_stack
           else ret tech_stack) ;;
        content <- read_file path ;;
        search_context <- on_ai (analyze_search_context content (or_empty query)) ;;
        ret (Details tech_stack search_context
               (Registry.creation_time meta) (Registry.last_modified meta) "file")
  end.

Definition handle_list_folder (folder_path : option string) : SE Daemon Response :=
  match folder_path with
  | Some folder_path =>
      if negb (truthy folder_path) || negb (path_exists folder_path)
         || negb (path_isdir folder_path)
      then ret (ErrorMessage "Folder not found")
      else
        children <- on_store (reading (fun db => list_folder_children db folder_path)) ;;
        ret (Children children)
  | None => ret (ErrorMessage "Folder not found")
  end.

(** [handle_request] on a decoded request. *)
Definition handle_request (request : Request) : SE Daemon Response :=
  try_except
    (match request with
     | Ping => ret Pong
     | IndexFolder path => handle_index_folder path
     | Search query use_ai root_path =>
         db <- on_store (reading (fun db => db)) ;;
         results <- on_ai (handle_search db query use_ai root_path) ;;
         ret (Results results)
     | GetSummary path => handle_get_summary path
     | SaveSummary path summary => handle_save_summary path summary
     | RefineSummary current_summary instruction =>
         new_text <- on_ai (refine_summary current_summary instruction) ;;
         ret (Refined new_text)
     | GetExpandedDetails path query => handle_expanded_details path query
     | ListFolder path => handle_list_folder path
     | UnknownMethod _ => ret (ErrorMessage "Unknown method")
     end)
    (ret ErrorRaised).

End Server.

(* ================================================================== *)
(** * The vocabulary of the statements *)
(* ================================================================== *)

Section Vocabulary.
Context {host : Host}.
Import pystr.
Local Open Scope se_scope.

(** The test of the loop: [p] is the root, or lies under it at a
    separator. *)
Definition covers (r p : string) : bool :=
  String.eqb p r || startswith p (rstrip_char posixpath.sep_char r ++ posixpath.sep).

(** [dirname] applied [k] times *)
Fixpoint ancestor (k : nat) (p : string) : string :=
  match k with
  | O => p
  | S k' => ancestor k' (posixpath.dirname p)
  end.

(** Every Registry row has exactly one Content-Index row under its path. *)
Definition paired (db : Database) : Prop :=
  forall r, In r (files db) -> sql.count_index (Registry.path r) (file_index db) = 1.

(** The primary key of the Registry: no path is stored twice. *)
Definition keyed (db : Database) : Prop :=
  NoDup (map Registry.path (files db)).

Definition consistent (db : Database) : Prop := keyed db /\ paired db.

(** The storage operations. *)
Inductive storage_op : Type :=
| InsertFile (path content : string) (last_modified creation_time size : Z)
| InsertFolder (path : string) (last_modified creation_time : Z)
| UpdateSummary (path new_summary : string)
| UpdateFolderAggregate (folder_path : string) (max_children : nat)
| RebuildIndex.

Definition run_op (op : storage_op) : Proc unit :=
  match op with
  | InsertFile path content lm ct size => _ <- insert_file path content lm ct size ;; ret tt
  | InsertFolder path lm ct => _ <- insert_folder path lm ct ;; ret tt
  | UpdateSummary path s => update_summary path s
  | UpdateFolderAggregate folder n => update_folder_aggregate folder n
  | RebuildIndex => rebuild_fts_index
  end.

(** The Registry row and the Content-Index row written by an upsert. *)
Definition upsert_registry_row (path kind ext : string) (lm ct size : Z) (now : string)
    (old : option Registry.row) : Registry.row :=
  Registry.mk path kind ext lm ct size now
    (match old with Some r => Registry.summary r | None => None end)
    (match old with Some r => Registry.tech_stack r | None => None end).

Definition upsert_index_row (path kind ext content c_str m_str : string)
    (old : option Registry.row) : ContentIndex.row :=
  ContentIndex.mk path kind ext content
    (or_empty (match old with Some r => Registry.summary r | None => None end))
    (or_empty (match old with Some r => Registry.tech_stack r | None => None end))
    c_str m_str.

(** An upsert as one step: the Registry row and the Content-Index row
    of the path are replaced together. *)
Definition upsert_effect (path kind ext content : string) (lm ct size : Z)
    (now c_str m_str : string) (db : Database) : Database :=
  let old := sql.select_file path (files db) in
  mkDatabase
    (sql.replace_into_files (upsert_registry_row path kind ext lm ct size now old) (files db))
    (index_roots db)
    (sql.insert_index (upsert_index_row path kind ext content c_str m_str old)
       (sql.delete_index path (file_index db))).

(** Whether every step of an upsert started at attempt [n] goes through:
    the four writes are accepted and both times can be formatted. *)
Definition upsert_succeeds (n : nat) (lm ct : Z) : bool :=
  negb (write_refused n)
  && match date_token ct with Some _ => true | None => false end
  && match date_token lm with Some _ => true | None => false end
  && negb (write_refused (S n))
  && negb (write_refused (S (S n)))
  && negb (write_refused (S (S (S n)))).

Definition file_ext (path : string) : string :=
  lstrip_char "." (lower (posixpath.splitext_ext path)).

(** [update_summary] as one step. *)
Definition update_summary_effect (path new_summary : string) (db : Database) : Database :=
  let row :=
    match sql.select_index path (file_index db) with
    | Some row =>
        ContentIndex.mk path (ContentIndex.kind row) (ContentIndex.ext row)
          (ContentIndex.content row) new_summary (ContentIndex.tech_stack row)
          (ContentIndex.created_str row) (ContentIndex.modified_str row)
    | None =>
        let meta := get_file_metadata db path in
        ContentIndex.mk path
          (match meta with Some m => Registry.kind m | None => "file" end)
          (match meta with Some m => Registry.ext m | None => "" end)
          "" new_summary "" "" ""
    end in
  mkDatabase
    (sql.update_files_summary path (Some new_summary) (files db))
    (index_roots db)
    (sql.insert_index row (sql.delete_index path (file_index db))).

(** [update_folder_aggregate] as one step. *)
Definition folder_aggregate_effect (folder_path : string) (max_children : nat) (db : Database)
  : Database :=
  let folder_path := abspath folder_path in
  let direct := _compute_folder_stats (_fetch_children_rows db folder_path false) max_children in
  let rec := _compute_folder_stats (_fetch_children_rows db folder_path true) max_children in
  let meta := sql.select_index folder_path (file_index db) in
  mkDatabase
    (sql.update_files_aggregate folder_path (Some (fst (fst direct))) (Some (snd (fst direct)))
       (files db))
    (index_roots db)
    (sql.insert_index
       (ContentIndex.mk folder_path "folder" "" (snd rec) (fst (fst rec)) (snd (fst rec))
          (match meta with Some m => ContentIndex.created_str m | None => "" end)
          (match meta with Some m => ContentIndex.modified_str m | None => "" end))
       (sql.delete_index folder_path (file_index db))).

Definition token_or_empty (t : Z) : string :=
  match date_token t with Some s => s | None => "" end.

(** The Content-Index row that [rebuild_fts_index] writes for a
    Registry row. *)
Definition rebuilt_index_row (r : Registry.row) : ContentIndex.row :=
  let kind := if truthy (Registry.kind r) then Registry.kind r else "file" in
  ContentIndex.mk (Registry.path r) kind (Registry.ext r)
    (if String.eqb kind "file"
     then match read_text (Registry.path r) with Some text => text | None => "" end
     else "")
    (or_empty (Registry.summary r)) (or_empty (Registry.tech_stack r))
    (token_or_empty (Registry.creation_time r)) (token_or_empty (Registry.last_modified r)).

(** [rebuild_fts_index] when it runs to its end. *)
Definition rebuild_effect (db : Database) : Database :=
  mkDatabase (files db) (index_roots db) (map rebuilt_index_row (files db)).

(** What an operation does to the store when all of it is done. *)
Definition op_effect (op : storage_op) (w : World) : Database :=
  match op with
  | InsertFile path content lm ct size =>
      upsert_effect path "file" (file_ext path) content lm ct size
        (sql_datetime_now (attempts w)) (token_or_empty ct) (token_or_empty lm) (disk w)
  | InsertFolder path lm ct =>
      upsert_effect path "folder" "" "" lm ct 0
        (sql_datetime_now (attempts w)) (token_or_empty ct) (token_or_empty lm) (disk w)
  | UpdateSummary path s => update_summary_effect path s (disk w)
  | UpdateFolderAggregate folder n => folder_aggregate_effect folder n (disk w)
  | RebuildIndex => rebuild_effect (disk w)
  end.

(** The prefix under which the descendants of a folder are stored. *)
Definition child_base (folder_path : string) : string :=
  rstrip_char posixpath.sep_char folder_path ++ posixpath.sep.

(** What the design means by a descendant: a path other than the folder
    that continues the folder's path behind a separator. *)
Definition is_descendant (folder_path p : string) : bool :=
  startswith p (child_base folder_path) && negb (String.eqb p folder_path).

(** A direct child: a descendant one path segment below the folder. *)
Definition is_direct_child (folder_path p : string) : bool :=
  is_descendant folder_path p
  && truthy (slice_from (len (child_base folder_path)) p)
  && negb (contains posixpath.sep (slice_from (len (child_base folder_path)) p)).

Definition descendants (db : Database) (folder_path : string) : list Registry.row :=
  filter (fun r => is_descendant folder_path (Registry.path r)) (files db).

Definition direct_children (db : Database) (folder_path : string) : list Registry.row :=
  filter (fun r => is_direct_child folder_path (Registry.path r)) (files db).

(** Whether [process_file] gets through [os.stat] and [read]. *)
Definition readable (node : FileNode) : bool :=
  match file_stat node, file_text node with
  | Some _, Some _ => true
  | _, _ => false
  end.

(** The files of a directory that the scan hands to [process_file]. *)
Definition eligible (entry : string * FileNode) : bool :=
  negb (startswith (fst entry) ".")
  && mem (lower (posixpath.splitext_ext (fst entry))) SUPPORTED_EXTS.

End Vocabulary.

Section IntentVocabulary.
Context {ai_host : AiHost}.
Import pystr.

(** The key under which a query is cached. *)
Definition normalized (user_query : string) : string := clean_string (lower user_query).

(** No entry of the cache answers the query at the time of the clock. *)
Definition cache_miss (user_query : string) (s : AiState) : bool :=
  match dict_find (normalized user_query) (cache s) with
  | Some (_, expires) => Z.ltb expires (clock s)
  | None => true
  end.

(** Every entry that the cache can still return for [key] holds [value]. *)
Definition cache_answers (key value : string) (s : AiState) : Prop :=
  forall v expires,
    dict_find key (cache s) = Some (v, expires) -> (clock s <= expires)%Z -> v = value.

(** The reply text after the code fences are stripped. *)
Definition clean_reply (content : option string) : string :=
  strip (replace "```" "" (replace "```json" "" (strip (or_empty content)))).

(** The state after [_cache_get] misses: an expired entry is popped. *)
Definition after_miss (key : string) (s : AiState) : AiState :=
  match dict_find key (cache s) with
  | Some _ => mkAiState (dict_pop key (cache s)) (clock s) (chats s)
  | None => s
  end.

(** The intent read from a reply that holds a brace block: the decoded
    dict, or the fields that the regex repair finds. *)
Definition intent_of_reply (blob clean_result : string) : Intent :=
  match json_loads blob with
  | Some data => data
  | None => _regex_extract_intent clean_result
  end.

(** What the tiers behind the cache and the rules resolve a query to,
    when the text generator is called with [prompt] and the clock
    stands at [now] after the call. *)
Definition resolved_by_generator (now : Z) (prompt user_query : string) : string :=
  match chat prompt with
  | ChatRaises => clean_string user_query
  | ChatContent content =>
      match regex.brace_block (clean_reply content) with
      | None => clean_string user_query
      | Some blob =>
          let final :=
            build_fts_query now (intent_of_reply blob (clean_reply content)) user_query in
          if truthy final then final else clean_string user_query
      end
  end.

(** The filter of the rule for the query [files from 2024]. *)
Definition year_2024_filter : string := date_clause "2024".

(** The same filter as the design document writes it, with the fields
    [created] and [modified]: [(created:"2024" OR modified:"2024")]. *)
Definition documented_2024_filter : string :=
  "(created:" ++ String regex.dquote "2024" ++ String regex.dquote ""
  ++ " OR modified:" ++ String regex.dquote "2024" ++ String regex.dquote ")".

End IntentVocabulary.

(** ** Vocabulary for search results, listings and texts *)


(** [a <= b] on the sort keys of two entries of a folder listing: [b]
    is not smaller than [a]. *)
Definition key_le (a b : FolderEntry.t) : Prop :=
  key_ltb (entry_key b) (entry_key a) = false.

Definition is_folder_row (r : Registry.row) : bool := String.eqb (Registry.kind r) "folder".

(** The characters that [clean_string] leaves in a query. *)
Definition plain_char (c : ascii) : bool := pystr.is_word c || pystr.is_space c.

(** A list that is empty or starts with a character outside [f]. *)
Definition head_free (f : ascii -> bool) (l : list ascii) : Prop :=
  match l with
  | [] => True
  | c :: _ => f c = false
  end.

(** The characters of [s.strip()]. *)
Definition strip_chars (l : list ascii) : list ascii :=
  pystr.drop_while pystr.is_space (rev (pystr.drop_while pystr.is_space (rev l))).

(** ** Vocabulary for normalised paths *)

Module normal.
Import pystr posixpath.

(** A text without a separator. *)
Definition sep_free (c : string) : bool := forallb (fun ch => negb (is_sep ch)) (chars c).

(** A component of a normalised path: not empty, neither [.] nor [..],
    and without a separator. *)
Definition clean_comp (c : string) : bool :=
  truthy c && negb (String.eqb c ".") && negb (String.eqb c "..") && sep_free c.

(** A normalised absolute path: one or two leading separators, then
    clean components joined by single separators. *)
Definition normal_path (p : string) : Prop :=
  exists (init : nat) (comps : list string),
    (init = 1 \/ init = 2)
    /\ forallb clean_comp comps = true
    /\ p = str (repeat sep_char init) ++ pystr.join sep comps.

End normal.

(** ** Vocabulary for scans, aggregates and the daemon *)

(** The columns of a Registry row that no aggregate writes. *)
Definition fixed_columns (r : Registry.row) : string * string * string * Z * Z * Z * string :=
  (Registry.path r, Registry.kind r, Registry.ext r, Registry.last_modified r,
   Registry.creation_time r, Registry.size r, Registry.indexed_at r).

(** How the walk up the tree from [start] to [stop] may change a
    Registry row [x] into [x']: not at all, or in its [summary] and
    [tech_stack] when [x] is the row of a folder on the way. *)
Definition aggregated_from (start : string) (stop : option string) (x x' : Registry.row)
  : Prop :=
  fixed_columns x' = fixed_columns x
  /\ (x' = x
      \/ (Registry.kind x = "folder"
          /\ exists k, Registry.path x = ancestor k start
                       /\ forall j, j < k -> stop <> Some (ancestor j start))).

(** The five columns of a Registry row that [get_file_metadata]
    selects: [last_modified, creation_time, tech_stack, kind, ext]. *)
Definition metadata_columns (r : Registry.row)
  : Z * Z * option string * string * string :=
  (Registry.last_modified r, Registry.creation_time r, Registry.tech_stack r,
   Registry.kind r, Registry.ext r).


Section ScanVocabulary.
Context {host : Host}.

(** The working directory of a process is an absolute path. *)
Definition cwd_is_absolute : Prop := posixpath.isabs getcwd = true.

(** What a property [I] of the store has to withstand to be kept by a
    scan: an upsert of a file that could be read, an upsert of a visited
    directory, an aggregate, the registration of a root. *)
Definition kept_by_file_upsert (I : Database -> Prop) (path : string) : Prop :=
  forall content lm ct size now c_str m_str db,
    I db -> I (upsert_effect path "file" (file_ext path) content lm ct size now c_str m_str db).

Definition kept_by_folder_upsert (I : Database -> Prop) (path : string) : Prop :=
  forall lm ct now c_str m_str db,
    I db -> I (upsert_effect path "folder" "" "" lm ct 0 now c_str m_str db).

Definition kept_by_aggregate (I : Database -> Prop) : Prop :=
  forall folder n db, I db -> I (folder_aggregate_effect folder n db).

Definition kept_by_roots (I : Database -> Prop) : Prop :=
  forall f db, I db -> I (set_index_roots f db).

(** The paths that a scan may add to the Registry: the visited
    directories, and the files that are not hidden, have a supported
    extension and could be read. *)
Definition scanned_path (root_path : string) (fs : DirNode) (p : string) : Prop :=
  (exists d, In d (walk (abspath root_path) fs) /\ p = abspath (fst (fst d)))
  \/ (exists d e, In d (walk (abspath root_path) fs) /\ In e (snd d)
                  /\ eligible e = true /\ readable (snd e) = true
                  /\ p = abspath (posixpath.join (fst (fst d)) (fst e))).

End ScanVocabulary.

Section DaemonVocabulary.
Context {ai_host : AiHost}.

(** What a helper of [ai.py] makes of the reply to its prompt. *)
Definition reply_or (prompt failure : string) : string :=
  match chat prompt with
  | ChatContent (Some text) => pystr.strip text
  | _ => failure
  end.

(** The state of [ai.py] after one call of the text generator. *)
Definition after_chat (prompt : string) (a : AiState) : AiState :=
  mkAiState (cache a) (clock a + Z.of_nat (chat_seconds prompt))%Z (S (chats a)).

(** The requests that only read the store. *)
Definition reads_only (request : Request) : bool :=
  match request with
  | Ping | Search _ _ _ | RefineSummary _ _ | ListFolder _ | UnknownMethod _ => true
  | _ => false
  end.

End DaemonVocabulary.

(* ================================================================== *)
(** * Concrete hosts, for running the code on examples *)
(* ================================================================== *)

Module utc.
Import pystr.
Local Open Scope Z_scope.

(** Year, month and day of a day number counted from 1970-01-01
    (proleptic Gregorian calendar). *)
Definition civil_from_days (days : Z) : Z * Z * Z :=
  let z := days + 719468 in
  let era := z / 146097 in
  let doe := z - era * 146097 in
  let yoe := (doe - doe / 1460 + doe / 36524 - doe / 146096) / 365 in
  let y := yoe + era * 400 in
  let doy := doe - (365 * yoe + yoe / 4 - yoe / 100) in
  let mp := (5 * doy + 2) / 153 in
  let d := doy - (153 * mp + 2) / 5 + 1 in
  let m := if mp <? 10 then mp + 3 else mp - 9 in
  (if m <=? 2 then y + 1 else y, m, d).

Definition month_abbr (m : Z) : string :=
  nth (Z.to_nat (m - 1))
      ["Jan"; "Feb"; "Mar"; "Apr"; "May"; "Jun"; "Jul"; "Aug"; "Sep"; "Oct"; "Nov"; "Dec"] "".

Definition weekday_name (days : Z) : string :=
  nth (Z.to_nat ((days + 4) mod 7))
      ["Sunday"; "Monday"; "Tuesday"; "Wednesday"; "Thursday"; "Friday"; "Saturday"] "".

Definition two_digits (n : Z) : string :=
  (if n <? 10 then "0" else "") ++ str_of_nat (Z.to_nat n).

(** ['%Y %b %d'] *)
Definition ymd (t : Z) : string :=
  let '(y, m, d) := civil_from_days (t / 86400) in
  str_of_nat (Z.to_nat y) ++ " " ++ month_abbr m ++ " " ++ two_digits d.

(** ['%Y-%m-%d'] *)
Definition iso (t : Z) : string :=
  let '(y, m, d) := civil_from_days (t / 86400) in
  str_of_nat (Z.to_nat y) ++ "-" ++ two_digits m ++ "-" ++ two_digits d.

(** [datetime.fromtimestamp(t).strftime('%Y %b %d %A')] in the UTC time
    zone: defined from 1970 to the end of year 9999, the last year of
    [datetime]. *)
Definition date_token (t : Z) : option string :=
  if (0 <=? t) && (t <? 253402300800)
  then Some (ymd t ++ " " ++ weekday_name (t / 86400))
  else None.

End utc.

(** A host in the UTC time zone whose working directory is [/srv], whose
    storage accepts every write, whose clock stands at the start of
    2026, and that iterates a set in insertion order. *)
Definition utc_host_refusing (refused : nat -> bool) : Host :=
  {| getcwd := "/srv";
     date_token := utc.date_token;
     sql_datetime_now := fun _ => "2026-01-01 00:00:00";
     time_now := fun _ => 1767225600%Z;
     write_refused := refused;
     read_text := fun _ => None;
     set_order := fun l => l;
     set_order_In := fun l x => conj (fun H => H) (fun H => H) |}.

Definition utc_host : Host := utc_host_refusing (fun _ => false).

(** A text engine that rejects every query: what FTS5 does with a query
    that has a dot or a slash in a bare word. *)
Definition rejecting_engine : TextEngine :=
  {| fts_match := fun _ _ => None;
     bm25_order := fun _ rows => rows;
     snippet_of := fun _ row => ContentIndex.content row |}.

(** A text generator that is down: every call raises. *)
Definition ai_down : AiHost :=
  {| chat := fun _ => ChatRaises;
     chat_seconds := fun _ => 0;
     json_loads := fun _ => None;
     dateutil_token := fun _ _ => None;
     today_token := utc.ymd;
     yesterday_token := fun t => utc.ymd (t - 86400);
     date_context := utc.iso |}.

(* ================================================================== *)
(** * Sample trees and stores *)
(* ================================================================== *)

(** A store that holds nothing but the indexed roots [rs]. *)
Definition db_with_roots (rs : list string) : Database :=
  mkDatabase [] (map (fun r => IndexRoot.mk r 0%Z) rs) [].

(** Created and modified on 2024-01-05, five bytes long. *)
Definition jan5 : Stat := mkStat 1704412800 1704412800 5.

(** The tree [/A/sub/notes.txt]. *)
Definition notes_tree : DirNode :=
  Dir (Some jan5) []
      [("sub", Dir (Some jan5) [("notes.txt", mkFileNode (Some jan5) (Some "hello"))] [])].

(** The store after [scan_directory("/A")] on a fresh database
    ([scan_gives_notes_db] below). *)
Definition notes_db : Database :=
  mkDatabase
    [ Registry.mk "/A" "folder" "" 1704412800 1704412800 0 "2026-01-01 00:00:00"
        (Some "Folder with 0 files and 1 subfolders.") (Some "Mixed");
      Registry.mk "/A/sub" "folder" "" 1704412800 1704412800 0 "2026-01-01 00:00:00"
        (Some "Folder with 1 files and 0 subfolders. Top types: txt:1.") (Some "TXT");
      Registry.mk "/A/sub/notes.txt" "file" "txt" 1704412800 1704412800 5
        "2026-01-01 00:00:00" None None ]
    [ IndexRoot.mk "/A" 1767225600 ]
    [ ContentIndex.mk "/A/sub/notes.txt" "file" "txt" "hello" "" ""
        "2024 Jan 05 Friday" "2024 Jan 05 Friday";
      ContentIndex.mk "/A/sub" "folder" ""
        "Folder with 1 files and 0 subfolders. Top types: txt:1. notes.txt"
        "Folder with 1 files and 0 subfolders. Top types: txt:1." "TXT"
        "2024 Jan 05 Friday" "2024 Jan 05 Friday";
      ContentIndex.mk "/A" "folder" ""
        "Folder with 1 files and 1 subfolders. Top types: txt:1. sub notes.txt sub: Folder with 1 files and 0 subfolders. Top types: txt:1."
        "Folder with 1 files and 1 subfolders. Top types: txt:1." "TXT"
        "2024 Jan 05 Friday" "2024 Jan 05 Friday" ].

(** The store after the scan of [/A] and a summary saved for the file. *)
Definition notes_world : World :=
  snd (@update_summary utc_host "/A/sub/notes.txt" "Meeting notes" (mkWorld notes_db 0)).

(** The tree [/srv/data] with an empty folder [a_b] and, next to it, a
    folder [axb] that holds [c.py]. *)
Definition siblings_tree : DirNode :=
  Dir (Some jan5) []
      [ ("a_b", Dir (Some jan5) [] []);
        ("axb", Dir (Some jan5) [("c.py", mkFileNode (Some jan5) (Some "print(1)"))] []) ].

(** The store after the scan of [/srv/data], before the folders are
    aggregated. *)
Definition siblings_db : Database :=
  mkDatabase
    [ Registry.mk "/srv/data" "folder" "" 1704412800 1704412800 0 "2026-01-01 00:00:00"
        None None;
      Registry.mk "/srv/data/a_b" "folder" "" 1704412800 1704412800 0 "2026-01-01 00:00:00"
        None None;
      Registry.mk "/srv/data/axb" "folder" "" 1704412800 1704412800 0 "2026-01-01 00:00:00"
        None None;
      Registry.mk "/srv/data/axb/c.py" "file" "py" 1704412800 1704412800 5
        "2026-01-01 00:00:00" None None ]
    [ IndexRoot.mk "/srv/data" 1767225600 ]
    [ ContentIndex.mk "/srv/data" "folder" "" "" "" ""
        "2024 Jan 05 Friday" "2024 Jan 05 Friday";
      ContentIndex.mk "/srv/data/a_b" "folder" "" "" "" ""
        "2024 Jan 05 Friday" "2024 Jan 05 Friday";
      ContentIndex.mk "/srv/data/axb" "folder" "" "" "" ""
        "2024 Jan 05 Friday" "2024 Jan 05 Friday";
      ContentIndex.mk "/srv/data/axb/c.py" "file" "py" "print(1)" "" ""
        "2024 Jan 05 Friday" "2024 Jan 05 Friday" ].

(** The tree [/A] with one file, last modified in year 10000. *)
Definition late_tree : DirNode :=
  Dir (Some jan5)
      [("late.txt", mkFileNode (Some (mkStat 253402300800 1704412800 1)) (Some "x"))] [].

(** The host [utc_host] on which the text of [/A/sub/notes.txt] can be
    read. *)
Definition utc_host_reading : Host :=
  {| getcwd := "/srv";
     date_token := utc.date_token;
     sql_datetime_now := fun _ => "2026-01-01 00:00:00";
     time_now := fun _ => 1767225600%Z;
     write_refused := fun _ => false;
     read_text := fun p =>
       if String.eqb p "/A/sub/notes.txt" then Some "hello" else None;
     set_order := fun l => l;
     set_order_In := fun l x => conj (fun H => H) (fun H => H) |}.

(** A text generator that answers every prompt with the same words. *)
Definition ai_answering : AiHost :=
  {| chat := fun _ => ChatContent (Some " Notes of a meeting. ");
     chat_seconds := fun _ => 2;
     json_loads := fun _ => None;
     dateutil_token := fun _ _ => None;
     today_token := utc.ymd;
     yesterday_token := fun t => utc.ymd (t - 86400);
     date_context := utc.iso |}.

(** The file system that holds [notes_tree] at [/A]. *)
Definition notes_fs : FileSystem :=
  {| path_exists := fun p => pystr.mem p ["/A"; "/A/sub"; "/A/sub/notes.txt"];
     path_isdir := fun p => pystr.mem p ["/A"; "/A/sub"];
     tree_at := fun _ => notes_tree |}.

Definition refused_connection : ChatFaults :=
  {| chat_error := fun _ => "connection refused" |}.

(** A Registry that holds the folder [/D] with two files, a subfolder
    and a file of the subfolder, in the order in which they were
    registered. *)
Definition listing_db : Database :=
  mkDatabase
    [ Registry.mk "/D" "folder" "" 1704412800 1704412800 0 "2026-01-01 00:00:00" None None;
      Registry.mk "/D/B.txt" "file" "txt" 1704412800 1704412800 1
        "2026-01-01 00:00:00" None None;
      Registry.mk "/D/zeta/c.py" "file" "py" 1704412800 1704412800 2
        "2026-01-01 00:00:00" None None;
      Registry.mk "/D/a.md" "file" "md" 1704412800 1704412800 3
        "2026-01-01 00:00:00" None None;
      Registry.mk "/D/zeta" "folder" "" 1704412800 1704412800 0
        "2026-01-01 00:00:00" None None ]
    []
    [].

(** A Registry with one file whose time of modification cannot be
    formatted, and a Content Index that holds the file. *)
Definition late_db : Database :=
  mkDatabase
    [ Registry.mk "/A/late.txt" "file" "txt" 253402300800 1704412800 1
        "2026-01-01 00:00:00" None None ]
    []
    [ ContentIndex.mk "/A/late.txt" "file" "txt" "x" "" "" "2024 Jan 05 Friday" "" ].

(* ================================================================== *)
(** * Proof automation for procedures *)
(* ================================================================== *)

(** Unfolds the monad and the statements of a procedure. *)
Ltac run_proc :=
  unfold with_connection, try_except, bind, ret, raise, query, query_committed,
    sql_now, execute, commit, date_token_of, of_option, reading; simpl.

(** Splits on the outcome of every write attempt and time formatting
    that the goal depends on. *)
Ltac split_outcomes :=
  repeat (match goal with
          | |- context [date_token ?t] => destruct (date_token t) eqn:?
          | |- context [write_refused ?n] => destruct (write_refused n) eqn:?
          end; simpl; try congruence).

(** Closes a case of [handle_request]: the response, what it leaves of
    the store, and its shape for a [refine_summary] request. *)
Ltac answered :=
  eexists; eexists; (split; [reflexivity|]);
  (split; [first [discriminate | intros _; reflexivity]
          | intros c i E; first [discriminate E | eexists; reflexivity]]).

(* ================================================================== *)
(** * Facts about strings and paths *)
(* ================================================================== *)

Module pystr_facts.
Import pystr.

Lemma chars_str (l : list ascii) : chars (str l) = l.
Proof. apply list_ascii_of_string_of_list_ascii. Qed.

Lemma str_chars (s : string) : str (chars s) = s.
Proof. apply string_of_list_ascii_of_string. Qed.

Lemma chars_app (a b : string) : chars (a ++ b) = (chars a ++ chars b)%list.
Proof.
  induction a as [|c a IH]; simpl; [reflexivity|].
  unfold chars in *; simpl; now rewrite IH.
Qed.

Lemma str_app (a b : list ascii) : str (a ++ b)%list = str a ++ str b.
Proof.
  induction a as [|c a IH]; simpl; [reflexivity|].
  unfold str in *; simpl; now rewrite IH.
Qed.

Lemma append_assoc (a b c : string) : (a ++ b) ++ c = a ++ b ++ c.
Proof. induction a as [|x a IH]; simpl; [reflexivity | now rewrite IH]. Qed.

Lemma len_chars (s : string) : len s = List.length (chars s).
Proof.
  induction s as [|c s IH]; simpl; [reflexivity|].
  unfold len, chars in *; simpl; now rewrite IH.
Qed.

Lemma chars_inj (a b : string) : chars a = chars b -> a = b.
Proof.
  intros H. rewrite <- (str_chars a), <- (str_chars b). now rewrite H.
Qed.

Lemma starts_iff (p l : list ascii) :
  starts p l = true <-> exists t, l = (p ++ t)%list.
Proof.
  revert l; induction p as [|a p IH]; intros l; simpl.
  - split; [intros _; now exists l | reflexivity].
  - destruct l as [|b l].
    + split; [discriminate | intros [t Ht]; discriminate].
    + rewrite andb_true_iff, Ascii.eqb_eq, IH. split.
      * intros [-> [t ->]]. now exists t.
      * intros [t Ht]. injection Ht as -> ->. split; [reflexivity | now exists t].
Qed.

(** [s.startswith(p)] holds exactly when [s] is [p] followed by a rest. *)
Lemma startswith_iff (s p : string) :
  startswith s p = true <-> exists rest, s = p ++ rest.
Proof.
  unfold startswith. rewrite starts_iff. split.
  - intros [t Ht]. exists (str t). apply chars_inj.
    now rewrite chars_app, chars_str.
  - intros [rest ->]. exists (chars rest). apply chars_app.
Qed.

Lemma drop_while_length (f : ascii -> bool) (l : list ascii) :
  List.length (drop_while f l) <= List.length l.
Proof.
  induction l as [|c l IH]; simpl; [lia|]. destruct (f c); simpl; lia.
Qed.

Lemma drop_while_all (f : ascii -> bool) (l : list ascii) :
  forallb f l = true -> drop_while f l = [].
Proof.
  induction l as [|c l IH]; simpl; [reflexivity|].
  destruct (f c); simpl; [exact IH | discriminate].
Qed.

Lemma drop_while_same_length (f : ascii -> bool) (l : list ascii) :
  List.length (drop_while f l) = List.length l -> drop_while f l = l.
Proof.
  destruct l as [|c l]; simpl; [reflexivity|].
  destruct (f c); [|reflexivity].
  intros H. pose proof (drop_while_length f l). lia.
Qed.

End pystr_facts.

Module posixpath_facts.
Import pystr pystr_facts posixpath.

(** [dirname] gives back its argument or something shorter: the walk
    up the tree has a variant. *)
Lemma dirname_chars_shrinks (p : list ascii) :
  dirname_chars p = p \/ List.length (dirname_chars p) < List.length p.
Proof.
  unfold dirname_chars.
  set (h := drop_while (fun c => negb (is_sep c)) (rev p)).
  assert (Hh : List.length h <= List.length p).
  { unfold h. etransitivity; [apply drop_while_length|]. now rewrite length_rev. }
  destruct (forallb is_sep h) eqn:Hall.
  - destruct (Nat.eq_dec (List.length h) (List.length p)) as [E|E].
    + left. unfold h in *. rewrite <- (length_rev p) in E.
      apply drop_while_same_length in E. rewrite E. apply rev_involutive.
    + right. rewrite length_rev. lia.
  - right. rewrite length_rev.
    (* when not empty, [h] starts with a separator *)
    assert (Hhead : forall l, match drop_while (fun c => negb (is_sep c)) l with
                              | [] => True
                              | d :: _ => is_sep d = true
                              end).
    { induction l as [|d l IH]; simpl; [exact I|].
      destruct (is_sep d) eqn:Hd; simpl; [exact Hd | exact IH]. }
    specialize (Hhead (rev p)). fold h in Hhead.
    destruct h as [|c h']; [discriminate|].
    simpl. rewrite Hhead.
    pose proof (drop_while_length is_sep h'). simpl in Hh. lia.
Qed.

Lemma dirname_shrinks (p : string) :
  dirname p = p \/ len (dirname p) < len p.
Proof.
  unfold dirname. destruct (dirname_chars_shrinks (chars p)) as [E|L].
  - left. rewrite E. apply str_chars.
  - right. now rewrite !len_chars, chars_str.
Qed.

End posixpath_facts.

(* ================================================================== *)
(** * Root tracker *)
(* ================================================================== *)

Section RootTrackerFacts.
Context {host : Host}.
Import pystr pystr_facts.

Lemma covers_iff (r p : string) :
  covers r p = true <->
  p = r \/ exists rest, p = rstrip_char posixpath.sep_char r ++ posixpath.sep ++ rest.
Proof.
  unfold covers. rewrite orb_true_iff, String.eqb_eq, startswith_iff.
  split; intros [H|[rest H]]; auto; right; exists rest.
  - now rewrite H, append_assoc.
  - now rewrite H, append_assoc.
Qed.

(** The invariant of the loop of [get_best_root_for_path]. *)
Lemma best_root_loop_spec (p : string) (roots : list string) :
  forall best,
    match best_root_loop p roots best with
    | Some b =>
        (best = Some b \/ exists r, In r roots /\ b = abspath r /\ covers b p = true)
        /\ (forall b0, best = Some b0 -> len b0 <= len b)
        /\ (forall r, In r roots -> covers (abspath r) p = true -> len (abspath r) <= len b)
    | None =>
        best = None /\ forall r, In r roots -> covers (abspath r) p = false
    end.
Proof.
  induction roots as [|r roots IH]; intros best; simpl.
  - destruct best as [b|].
    + split; [now left|]. split; [now intros b0 [= ->] | contradiction].
    + split; [reflexivity | contradiction].
  - fold (covers (abspath r) p).
    destruct (covers (abspath r) p) eqn:Hc.
    + destruct best as [b0|].
      * destruct (Nat.ltb (len b0) (len (abspath r))) eqn:Hlt.
        -- specialize (IH (Some (abspath r))).
           destruct (best_root_loop p roots (Some (abspath r))) as [b|].
           ++ destruct IH as (Hin & Hge & Hmax).
              apply Nat.ltb_lt in Hlt. pose proof (Hge _ eq_refl) as Hr.
              split; [|split].
              ** right. destruct Hin as [[= <-]|(r' & Hr' & -> & Hc')].
                 --- exists r. auto.
                 --- exists r'. auto.
              ** intros b1 [= <-]. lia.
              ** intros r' [<-|Hr'] Hc'; [exact Hr | now apply Hmax].
           ++ destruct IH as [[=] _].
        -- specialize (IH (Some b0)).
           destruct (best_root_loop p roots (Some b0)) as [b|].
           ++ destruct IH as (Hin & Hge & Hmax).
              apply Nat.ltb_ge in Hlt. pose proof (Hge _ eq_refl) as Hr.
              split; [|split].
              ** destruct Hin as [[= <-]|(r' & Hr' & -> & Hc')].
                 --- now left.
                 --- right. exists r'. auto.
              ** exact Hge.
              ** intros r' [<-|Hr'] Hc'; [lia | now apply Hmax].
           ++ destruct IH as [[=] _].
      * specialize (IH (Some (abspath r))).
        destruct (best_root_loop p roots (Some (abspath r))) as [b|].
        -- destruct IH as (Hin & Hge & Hmax). pose proof (Hge _ eq_refl) as Hr.
           split; [|split].
           ++ right. destruct Hin as [[= <-]|(r' & Hr' & -> & Hc')].
              ** exists r. auto.
              ** exists r'. auto.
           ++ discriminate.
           ++ intros r' [<-|Hr'] Hc'; [exact Hr | now apply Hmax].
        -- destruct IH as [[=] _].
    + specialize (IH best).
      destruct (best_root_loop p roots best) as [b|].
      * destruct IH as (Hin & Hge & Hmax). split; [|split].
        -- destruct Hin as [->|(r' & Hr' & -> & Hc')]; [now left|].
           right. exists r'. auto.
        -- exact Hge.
        -- intros r' [<-|Hr'] Hc'; [congruence | now apply Hmax].
      * destruct IH as [-> Hnone]. split; [reflexivity|].
        intros r' [<-|Hr']; [exact Hc | now apply Hnone].
Qed.

(** C6, as amended.  [get_best_root_for_path] returns a longest indexed
    root [b] such that the path equals [b] or starts with [b], stripped
    of its trailing separators, followed by the separator; it returns
    nothing exactly when no indexed root passes that test.  A root that
    is only a prefix of the path as a string does not pass it. *)
Theorem get_best_root_boundary_safe (db : Database) (path : string) :
  let roots := map IndexRoot.root_path (index_roots db) in
  match get_best_root_for_path db path with
  | Some b =>
      (exists r, In r roots /\ b = abspath r)
      /\ (abspath path = b
          \/ exists rest,
              abspath path = rstrip_char posixpath.sep_char b ++ posixpath.sep ++ rest)
      /\ (forall r, In r roots -> covers (abspath r) (abspath path) = true ->
                    len (abspath r) <= len b)
  | None => forall r, In r roots -> covers (abspath r) (abspath path) = false
  end.
Proof.
  intros roots. unfold get_best_root_for_path. fold roots.
  pose proof (best_root_loop_spec (abspath path) roots None) as H.
  destruct (best_root_loop (abspath path) roots None) as [b|].
  - destruct H as ([[=]|(r & Hr & -> & Hc)] & _ & Hmax).
    split; [now exists r|]. split; [now apply covers_iff | exact Hmax].
  - now destruct H.
Qed.

End RootTrackerFacts.

(** C6, as stated, fails for the root [/]: it is returned for [/x],
    which neither equals [/] nor starts with [/] followed by the
    separator. *)
Lemma best_root_of_filesystem_root :
  @get_best_root_for_path utc_host (db_with_roots ["/"]) "/x" = Some "/"
  /\ @abspath utc_host "/x" <> "/"
  /\ pystr.startswith (@abspath utc_host "/x") ("/" ++ posixpath.sep) = false.
Proof.
  split; [reflexivity|]. split; [discriminate | reflexivity].
Qed.

(** The root [/root] is not returned for [/root2/x], and is for
    [/root/x]. *)
Example raw_prefix_not_returned :
  @get_best_root_for_path utc_host (db_with_roots ["/root"]) "/root2/x" = None
  /\ @get_best_root_for_path utc_host (db_with_roots ["/root"]) "/root/x" = Some "/root"
  /\ @get_best_root_for_path utc_host (db_with_roots ["/a"; "/a/b"; "/a/bc"]) "/a/b/c.txt"
     = Some "/a/b".
Proof. repeat split; reflexivity. Qed.

(* ================================================================== *)
(** * Search orchestrator *)
(* ================================================================== *)

Section SearchFacts.
Context {host : Host} {engine : TextEngine}.
Import pystr pystr_facts.

Lemma In_firstn {A} (n : nat) (l : list A) (x : A) : In x (firstn n l) -> In x l.
Proof.
  intros H. rewrite <- (firstn_skipn n l). apply in_or_app. now left.
Qed.

Lemma mem_In (x : string) (l : list string) : mem x l = true <-> In x l.
Proof.
  unfold mem. rewrite existsb_exists. split.
  - intros (y & Hy & E). apply String.eqb_eq in E. now subst.
  - intros H. exists x. split; [exact H | apply String.eqb_refl].
Qed.

Lemma set_add_In (x y : string) (s : list string) :
  In y (set_add x s) <-> y = x \/ In y s.
Proof.
  unfold set_add. destruct (mem x s) eqn:E.
  - apply mem_In in E. split; [now right | intros [->|H]; assumption].
  - rewrite in_app_iff. simpl. split; intros [H|H]; auto.
    + destruct H as [H|[]]; auto.
Qed.


(** The fuel given to the walk is enough: more of it changes nothing. *)
Lemma climb_fuel (db : Database) (stop : option string) :
  forall n m cur acc,
    len cur <= n -> len cur <= m ->
    climb n db stop cur acc = climb m db stop cur acc.
Proof.
  induction n as [|n IH]; intros m cur acc Hn Hm.
  - assert (cur = "") as -> by (destruct cur; [reflexivity | simpl in Hn; lia]).
    destruct m; reflexivity.
  - destruct m as [|m].
    + assert (cur = "") as -> by (destruct cur; [reflexivity | simpl in Hm; lia]).
      reflexivity.
    + simpl. destruct (truthy cur); simpl; [|reflexivity].
      destruct (String.eqb cur (posixpath.dirname cur)) eqn:E; simpl; [reflexivity|].
      destruct (match stop with
                | Some s => truthy s && String.eqb cur s
                | None => false
                end); [reflexivity|].
      apply String.eqb_neq in E.
      destruct (posixpath_facts.dirname_shrinks cur) as [E'|L]; [congruence|].
      apply IH; lia.
Qed.

Lemma insert_by_len_In (x y : string) (l : list string) :
  In y (insert_by_len x l) <-> y = x \/ In y l.
Proof.
  induction l as [|z l IH]; simpl.
  - split; intros [H|H]; auto.
  - destruct (Nat.ltb (len x) (len z)); simpl; [split; intros [H|H]; auto|].
    rewrite IH. split; intros H; intuition.
Qed.

Lemma sorted_by_len_In (y : string) (l : list string) :
  In y (sorted_by_len l) <-> In y l.
Proof.
  unfold sorted_by_len.
  assert (G : forall acc, In y (fold_left (fun acc x => insert_by_len x acc) l acc)
                          <-> In y l \/ In y acc).
  { induction l as [|x l IH]; intros acc; simpl; [intuition|].
    rewrite IH, insert_by_len_In. intuition. }
  rewrite G. simpl. intuition.
Qed.



(** C9.  Whatever the query and the root scope, the list returned by
    [search_index] has at most 20 entries, direct matches and bubbled
    folders together. *)
Theorem search_index_at_most_20 (db : Database) (query : string) (root_path : option string) :
  List.length (search_index db query root_path) <= 20.
Proof.
  unfold search_index. apply firstn_le_length.
Qed.


End SearchFacts.

Example scan_gives_notes_db :
  @scan_directory utc_host "/A" notes_tree (mkWorld empty_db 0)
  = (Val 1, mkWorld notes_db 22).
Proof. vm_compute. reflexivity. Qed.



(* ================================================================== *)
(** * Upserts: all or nothing *)
(* ================================================================== *)

Section UpsertFacts.
Context {host : Host}.
Import pystr pystr_facts.

(** [insert_file] either performs the whole upsert and returns [True],
    or changes nothing and returns [False]. *)
Lemma insert_file_run (path content : string) (lm ct size : Z) (w : World) :
  exists n',
    insert_file path content lm ct size w =
    if upsert_succeeds (attempts w) lm ct
    then (Val true,
          mkWorld (upsert_effect path "file" (file_ext path) content lm ct size
                     (sql_datetime_now (attempts w)) (token_or_empty ct) (token_or_empty lm)
                     (disk w)) n')
    else (Val false, mkWorld (disk w) n').
Proof.
  unfold insert_file, upsert_succeeds, upsert_effect, token_or_empty. run_proc.
  split_outcomes; eexists; reflexivity.
Qed.

Lemma insert_folder_run (path : string) (lm ct : Z) (w : World) :
  exists n',
    insert_folder path lm ct w =
    if upsert_succeeds (attempts w) lm ct
    then (Val true,
          mkWorld (upsert_effect path "folder" "" "" lm ct 0
                     (sql_datetime_now (attempts w)) (token_or_empty ct) (token_or_empty lm)
                     (disk w)) n')
    else (Val false, mkWorld (disk w) n').
Proof.
  unfold insert_folder, upsert_succeeds, upsert_effect, token_or_empty. run_proc.
  split_outcomes; eexists; reflexivity.
Qed.

End UpsertFacts.

(* ================================================================== *)
(** * Facts about the tables *)
(* ================================================================== *)

Module sql_facts.
Import sql.

Lemma filter_none {A} (f : A -> bool) (l : list A) :
  (forall x, In x l -> f x = false) -> filter f l = [].
Proof.
  induction l as [|a l IH]; simpl; intros H; [reflexivity|].
  rewrite (H a) by now left. apply IH. intros x Hx. apply H. now right.
Qed.

Lemma filter_filter_neg {A} (f : A -> bool) (l : list A) :
  filter f (filter (fun x => negb (f x)) l) = [].
Proof.
  apply filter_none. intros x Hx. apply filter_In in Hx.
  destruct Hx as [_ Hx]. now destruct (f x).
Qed.

Lemma filter_filter_other {A} (f g : A -> bool) (l : list A) :
  (forall x, f x = true -> g x = true) ->
  filter f (filter g l) = filter f l.
Proof.
  intros H. induction l as [|a l IH]; simpl; [reflexivity|].
  destruct (g a) eqn:Hg; simpl.
  - destruct (f a); now rewrite IH.
  - destruct (f a) eqn:Hf; [apply H in Hf; congruence | exact IH].
Qed.

(** After [INSERT OR REPLACE] the table holds one row under the key. *)
Lemma count_files_replace (r : Registry.row) (t : list Registry.row) :
  count_files (Registry.path r) (replace_into_files r t) = 1.
Proof.
  unfold count_files, replace_into_files. rewrite filter_app, length_app.
  rewrite (filter_none _ (filter _ t)).
  - simpl. now rewrite String.eqb_refl.
  - intros x Hx. apply filter_In in Hx. destruct Hx as [_ Hx].
    now destruct (String.eqb (Registry.path x) (Registry.path r)).
Qed.

Lemma select_file_replace (r : Registry.row) (t : list Registry.row) :
  select_file (Registry.path r) (replace_into_files r t) = Some r.
Proof.
  unfold select_file, replace_into_files.
  induction t as [|a t IH]; simpl.
  - now rewrite String.eqb_refl.
  - destruct (String.eqb (Registry.path a) (Registry.path r)) eqn:E; simpl; [exact IH|].
    now rewrite E.
Qed.

Lemma In_replace_into_files (r x : Registry.row) (t : list Registry.row) :
  In x (replace_into_files r t) ->
  x = r \/ (In x t /\ Registry.path x <> Registry.path r).
Proof.
  unfold replace_into_files. rewrite in_app_iff, filter_In. simpl.
  intros [[Hx Hne]|[<-|[]]]; [right | now left].
  split; [exact Hx|]. apply String.eqb_neq. now destruct (String.eqb _ _).
Qed.

Lemma keyed_replace (r : Registry.row) (t : list Registry.row) :
  NoDup (map Registry.path t) ->
  NoDup (map Registry.path (replace_into_files r t)).
Proof.
  intros H. unfold replace_into_files. rewrite map_app. simpl.
  apply NoDup_app.
  - induction t as [|a t IH]; simpl; [constructor|].
    inversion H as [|? ? Hnotin Hnd]; subst.
    destruct (negb (String.eqb (Registry.path a) (Registry.path r))); simpl; [|now apply IH].
    constructor; [|now apply IH].
    intros Hin. apply Hnotin. apply in_map_iff in Hin. destruct Hin as (x & Hx & Hin).
    apply filter_In in Hin. apply in_map_iff. exists x. tauto.
  - constructor; [intros [] | constructor].
  - intros p Hp [<-|[]]. apply in_map_iff in Hp. destruct Hp as (x & Hx & Hin).
    apply filter_In in Hin. destruct Hin as [_ Hin].
    rewrite <- Hx, String.eqb_refl in Hin. discriminate.
Qed.

(** After [DELETE] and [INSERT] the index holds one row under the path,
    and as many as before under any other path. *)
Lemma count_index_rewrite (row : ContentIndex.row) (t : list ContentIndex.row) :
  count_index (ContentIndex.path row) (insert_index row (delete_index (ContentIndex.path row) t))
  = 1.
Proof.
  unfold count_index, insert_index, delete_index. rewrite filter_app, length_app.
  rewrite filter_filter_neg. simpl. now rewrite String.eqb_refl.
Qed.

Lemma count_index_rewrite_other (p : string) (row : ContentIndex.row) (t : list ContentIndex.row) :
  p <> ContentIndex.path row ->
  count_index p (insert_index row (delete_index (ContentIndex.path row) t))
  = count_index p t.
Proof.
  intros Hne. unfold count_index, insert_index, delete_index.
  rewrite filter_app, length_app. simpl.
  destruct (String.eqb (ContentIndex.path row) p) eqn:E.
  - apply String.eqb_eq in E. congruence.
  - simpl. rewrite Nat.add_0_r. f_equal. apply filter_filter_other.
    intros x Hx. apply String.eqb_eq in Hx. subst p.
    apply negb_true_iff. now apply String.eqb_neq.
Qed.

Lemma select_index_rewrite (row : ContentIndex.row) (t : list ContentIndex.row) :
  select_index (ContentIndex.path row)
    (insert_index row (delete_index (ContentIndex.path row) t)) = Some row.
Proof.
  unfold select_index, insert_index, delete_index.
  induction t as [|a t IH]; simpl.
  - now rewrite String.eqb_refl.
  - destruct (String.eqb (ContentIndex.path a) (ContentIndex.path row)) eqn:E; simpl;
      [exact IH|]. now rewrite E.
Qed.

(** A [DELETE] of a path that has no row changes nothing. *)
Lemma delete_index_absent (p : string) (t : list ContentIndex.row) :
  select_index p t = None -> delete_index p t = t.
Proof.
  unfold select_index, delete_index. induction t as [|a t IH]; simpl; [reflexivity|].
  destruct (String.eqb (ContentIndex.path a) p); simpl; [discriminate|].
  intros H. now rewrite IH.
Qed.

(** An [UPDATE ... WHERE path = ?] keeps the paths of the table. *)
Lemma update_files_paths (f : Registry.row -> Registry.row) (p : string)
    (t : list Registry.row) :
  (forall x, Registry.path (f x) = Registry.path x) ->
  map Registry.path
      (map (fun x => if String.eqb (Registry.path x) p then f x else x) t)
  = map Registry.path t.
Proof.
  intros Hf. rewrite map_map. apply map_ext. intros x.
  destruct (String.eqb (Registry.path x) p); [apply Hf | reflexivity].
Qed.

(** In a table without duplicate keys, one row is stored under the path
    of each row. *)
Lemma count_keyed {A} (key : A -> string) (t : list A) (x : A) :
  NoDup (map key t) -> In x t ->
  List.length (filter (fun y => String.eqb (key y) (key x)) t) = 1.
Proof.
  induction t as [|a t IH]; simpl; intros Hnd Hin; [contradiction|].
  inversion Hnd as [|? ? Hnotin Hnd']; subst.
  destruct Hin as [->|Hin].
  - rewrite String.eqb_refl. simpl. f_equal.
    rewrite filter_none; [reflexivity|].
    intros y Hy. apply String.eqb_neq. intros E. apply Hnotin.
    rewrite <- E. now apply in_map.
  - destruct (String.eqb (key a) (key x)) eqn:E; [|now apply IH].
    exfalso. apply Hnotin. apply String.eqb_eq in E. rewrite E. now apply in_map.
Qed.

End sql_facts.

(* ================================================================== *)
(** * Storage operations keep the pairing *)
(* ================================================================== *)

Section StorageFacts.
Context {host : Host}.
Import pystr pystr_facts sql_facts.

Lemma update_summary_run (path new_summary : string) (w : World) :
  exists r n',
    update_summary path new_summary w
    = (r, mkWorld (match r with
                   | Val _ => update_summary_effect path new_summary (disk w)
                   | Raise => disk w
                   end) n').
Proof.
  unfold update_summary, update_summary_effect, get_file_metadata. run_proc.
  destruct (write_refused (attempts w)) eqn:E0; simpl;
    [exists Raise; eexists; reflexivity|].
  destruct (sql.select_index path (file_index (disk w))) as [row|] eqn:Hsel; simpl.
  - split_outcomes;
      first [ exists (Val tt); eexists; reflexivity | exists Raise; eexists; reflexivity ].
  - rewrite (delete_index_absent _ _ Hsel).
    split_outcomes;
      first [ exists (Val tt); eexists; reflexivity | exists Raise; eexists; reflexivity ].
Qed.

Lemma update_folder_aggregate_run (folder_path : string) (max_children : nat) (w : World) :
  exists r n',
    update_folder_aggregate folder_path max_children w
    = (r, mkWorld (match r with
                   | Val _ => folder_aggregate_effect folder_path max_children (disk w)
                   | Raise => disk w
                   end) n').
Proof.
  unfold update_folder_aggregate, folder_aggregate_effect, reading, bind.
  generalize (abspath folder_path). intros fp.
  generalize (_compute_folder_stats (_fetch_children_rows (disk w) fp false) max_children).
  generalize (_compute_folder_stats (_fetch_children_rows (disk w) fp true) max_children).
  intros [[rs rt] rc] [[ds dt] dc].
  cbn [fst snd]. run_proc. split_outcomes;
    first [ exists (Val tt); eexists; reflexivity | exists Raise; eexists; reflexivity ].
Qed.

(** The loop of the rebuild, when it ends without an exception, has
    appended one row per Registry row and touched nothing else. *)
Lemma rebuild_rows_run (rows : list Registry.row) :
  forall c c',
    for_each rows rebuild_row c = (Val tt, c') ->
    committed c' = committed c
    /\ files (view c') = files (view c)
    /\ index_roots (view c') = index_roots (view c)
    /\ file_index (view c') = (file_index (view c) ++ map rebuilt_index_row rows)%list.
Proof.
  induction rows as [|r rows IH]; intros c c'; simpl.
  - unfold ret. intros [= <-]. now rewrite app_nil_r.
  - unfold bind at 1. unfold rebuild_row, rebuilt_index_row, token_or_empty. run_proc.
    destruct (date_token (Registry.creation_time r)) as [cs|]; simpl; [|discriminate].
    destruct (date_token (Registry.last_modified r)) as [ms|]; simpl; [|discriminate].
    destruct (write_refused (conn_attempts c)); simpl; [discriminate|].
    intros H. apply IH in H. simpl in H. destruct H as (H1 & H2 & H3 & H4).
    repeat split; auto. rewrite H4. unfold sql.insert_index. now rewrite <- app_assoc.
Qed.

Lemma rebuild_fts_index_run (w w' : World) :
  rebuild_fts_index w = (Val tt, w') -> disk w' = rebuild_effect (disk w).
Proof.
  unfold rebuild_fts_index, rebuild_effect, with_connection, execute_ddl.
  unfold bind at 1. simpl.
  destruct (write_refused (attempts w)); simpl; [discriminate|].
  unfold bind at 1. simpl.
  destruct (write_refused (S (attempts w))); simpl; [discriminate|].
  unfold bind at 1. unfold commit at 1. simpl.
  destruct (write_refused (S (S (attempts w)))); simpl; [discriminate|].
  unfold bind at 1. unfold query at 1. simpl.
  unfold bind at 1.
  destruct (for_each (files (disk w)) rebuild_row _) as [[[]|] c1] eqn:Hloop;
    [|discriminate].
  apply rebuild_rows_run in Hloop. simpl in Hloop. destruct Hloop as (H1 & H2 & H3 & H4).
  unfold commit. destruct (write_refused (conn_attempts c1)); simpl; [discriminate|].
  intros [= <-]. simpl. destruct (view c1) as [fs rs fi]. simpl in *. now subst.
Qed.

(** Each operation, done in full, keeps the pairing. *)
Lemma upsert_effect_consistent (path kind ext content : string) (lm ct size : Z)
    (now c_str m_str : string) (db : Database) :
  consistent db ->
  consistent (upsert_effect path kind ext content lm ct size now c_str m_str db).
Proof.
  intros [Hk Hp]. unfold upsert_effect. split.
  - unfold keyed. simpl. now apply keyed_replace.
  - intros r Hr. simpl in *. apply In_replace_into_files in Hr.
    set (row := upsert_index_row _ _ _ _ _ _ _) in *.
    change (sql.delete_index path) with (sql.delete_index (ContentIndex.path row)).
    destruct Hr as [->|[Hr Hne]].
    + apply (count_index_rewrite row).
    + rewrite count_index_rewrite_other by exact Hne. now apply Hp.
Qed.

Lemma rewrite_index_paired (p : string) (row : ContentIndex.row)
    (fs fs' : list Registry.row) (rs : list IndexRoot.row) (fi : list ContentIndex.row) :
  ContentIndex.path row = p ->
  map Registry.path fs' = map Registry.path fs ->
  consistent (mkDatabase fs rs fi) ->
  consistent (mkDatabase fs' rs (sql.insert_index row (sql.delete_index p fi))).
Proof.
  intros <- Hpaths [Hk Hp]. split.
  - unfold keyed in *. simpl in *. now rewrite Hpaths.
  - intros r Hr. simpl in *.
    assert (Hin : In (Registry.path r) (map Registry.path fs)).
    { rewrite <- Hpaths. now apply in_map. }
    apply in_map_iff in Hin. destruct Hin as (r0 & E & Hr0).
    destruct (String.eqb_spec (Registry.path r) (ContentIndex.path row)) as [->|Hne].
    + apply count_index_rewrite.
    + rewrite count_index_rewrite_other by exact Hne. rewrite <- E. now apply Hp.
Qed.

Lemma update_summary_effect_consistent (path s : string) (db : Database) :
  consistent db -> consistent (update_summary_effect path s db).
Proof.
  intros H. destruct db as [fs rs fi]. unfold update_summary_effect. simpl.
  apply rewrite_index_paired with (fs := fs); auto.
  - destruct (sql.select_index path fi); reflexivity.
  - apply update_files_paths. reflexivity.
Qed.

Lemma folder_aggregate_effect_consistent (folder : string) (n : nat) (db : Database) :
  consistent db -> consistent (folder_aggregate_effect folder n db).
Proof.
  intros H. destruct db as [fs rs fi]. unfold folder_aggregate_effect.
  cbn [files index_roots file_index].
  apply rewrite_index_paired with (fs := fs); auto.
  apply update_files_paths. reflexivity.
Qed.

Lemma rebuild_effect_consistent (db : Database) :
  keyed db -> consistent (rebuild_effect db).
Proof.
  intros Hk. split; [exact Hk|].
  intros r Hr. unfold rebuild_effect in *. simpl in *.
  unfold sql.count_index. rewrite filter_map_swap, length_map.
  apply (count_keyed Registry.path); assumption.
Qed.

Lemma op_effect_consistent (op : storage_op) (w : World) :
  consistent (disk w) -> consistent (op_effect op w).
Proof.
  intros H. destruct op; simpl.
  - now apply upsert_effect_consistent.
  - now apply upsert_effect_consistent.
  - now apply update_summary_effect_consistent.
  - now apply folder_aggregate_effect_consistent.
  - apply rebuild_effect_consistent. apply H.
Qed.

End StorageFacts.

Section StorageTheorems.
Context {host : Host}.
Import pystr pystr_facts sql_facts.

(** C10.  An upsert of a file or of a folder never raises.  When one of
    its steps fails (a write or the commit is refused, or a time cannot
    be formatted) it returns [False] and the committed store, Registry
    and Content Index alike, is what it was before the call; when every
    step goes through it returns [True]. *)
Theorem upsert_failure_changes_nothing (w : World) :
  (forall path content lm ct size,
      fst (insert_file path content lm ct size w) = Val (upsert_succeeds (attempts w) lm ct)
      /\ (upsert_succeeds (attempts w) lm ct = false ->
          disk (snd (insert_file path content lm ct size w)) = disk w))
  /\ (forall path lm ct,
         fst (insert_folder path lm ct w) = Val (upsert_succeeds (attempts w) lm ct)
         /\ (upsert_succeeds (attempts w) lm ct = false ->
             disk (snd (insert_folder path lm ct w)) = disk w)).
Proof.
  split.
  - intros path content lm ct size.
    destruct (insert_file_run path content lm ct size w) as [n' ->].
    destruct (upsert_succeeds (attempts w) lm ct); simpl; split; congruence.
  - intros path lm ct.
    destruct (insert_folder_run path lm ct w) as [n' ->].
    destruct (upsert_succeeds (attempts w) lm ct); simpl; split; congruence.
Qed.

(** C2.  Indexing again a path that the Registry already holds leaves
    one Registry row and one Content-Index row under that path, and the
    summary and tech stack stored in the Registry are carried into both
    new rows. *)
Theorem reindex_keeps_one_row_and_summary
    (path content : string) (lm ct size : Z) (w : World) (old : Registry.row) :
  sql.select_file path (files (disk w)) = Some old ->
  fst (insert_file path content lm ct size w) = Val true ->
  let db' := disk (snd (insert_file path content lm ct size w)) in
  sql.count_files path (files db') = 1
  /\ sql.count_index path (file_index db') = 1
  /\ (exists r, sql.select_file path (files db') = Some r
                /\ Registry.summary r = Registry.summary old
                /\ Registry.tech_stack r = Registry.tech_stack old)
  /\ (exists c, sql.select_index path (file_index db') = Some c
                /\ ContentIndex.summary c = or_empty (Registry.summary old)
                /\ ContentIndex.tech_stack c = or_empty (Registry.tech_stack old)).
Proof.
  intros Hold.
  destruct (insert_file_run path content lm ct size w) as [n' ->].
  destruct (upsert_succeeds (attempts w) lm ct); simpl; [intros _ | discriminate].
  unfold upsert_effect. simpl. rewrite Hold.
  set (r := upsert_registry_row _ _ _ _ _ _ _ _).
  set (c := upsert_index_row _ _ _ _ _ _ _).
  assert (Hr : Registry.path r = path) by reflexivity.
  assert (Hc : ContentIndex.path c = path) by reflexivity.
  assert (Hrs : Registry.summary r = Registry.summary old) by reflexivity.
  assert (Hrt : Registry.tech_stack r = Registry.tech_stack old) by reflexivity.
  assert (Hcs : ContentIndex.summary c = or_empty (Registry.summary old)) by reflexivity.
  assert (Hct : ContentIndex.tech_stack c = or_empty (Registry.tech_stack old))
    by reflexivity.
  clearbody r c.
  split; [rewrite <- Hr; apply count_files_replace|].
  split; [rewrite <- Hc; apply count_index_rewrite|].
  split.
  - exists r. split; [rewrite <- Hr; apply select_file_replace | split; assumption].
  - exists c. split; [rewrite <- Hc; apply select_index_rewrite | split; assumption].
Qed.

(** C3, as amended.  A storage operation (file upsert, folder upsert, summary
    update, folder-aggregate update, and an index rebuild that runs to
    its end) started on a store where every Registry path has exactly
    one Content-Index row leaves such a store; and the committed store
    after it is either the store before it or the one where the
    operation is done in full, Registry row and Content-Index row
    together. *)
Theorem storage_ops_keep_pairing (op : storage_op) (w : World) :
  consistent (disk w) ->
  fst (run_op op w) = Val tt \/ op <> RebuildIndex ->
  consistent (disk (snd (run_op op w)))
  /\ (disk (snd (run_op op w)) = disk w \/ disk (snd (run_op op w)) = op_effect op w).
Proof.
  intros Hc Hdone.
  assert (Heff : consistent (op_effect op w)) by now apply op_effect_consistent.
  assert (G : disk (snd (run_op op w)) = disk w \/ disk (snd (run_op op w)) = op_effect op w).
  { destruct op as [path content lm ct size|path lm ct|path s|folder n|]; simpl in *.
    - unfold bind. destruct (insert_file_run path content lm ct size w) as [n' ->].
      destruct (upsert_succeeds (attempts w) lm ct); simpl; auto.
    - unfold bind. destruct (insert_folder_run path lm ct w) as [n' ->].
      destruct (upsert_succeeds (attempts w) lm ct); simpl; auto.
    - destruct (update_summary_run path s w) as (r & n' & ->). destruct r; simpl; auto.
    - destruct (update_folder_aggregate_run folder n w) as (r & n' & ->).
      destruct r; simpl; auto.
    - destruct Hdone as [Hdone|Hne]; [|congruence].
      right. destruct (rebuild_fts_index w) as [r w'] eqn:E. simpl in *. subst r.
      now apply rebuild_fts_index_run. }
  split; [|exact G]. destruct G as [->| ->]; assumption.
Qed.

End StorageTheorems.

(** The store after the scan of [/A] pairs its three Registry rows. *)
Lemma notes_db_consistent : consistent notes_db.
Proof.
  split.
  - unfold keyed. simpl. repeat constructor; simpl; intuition discriminate.
  - intros r Hr. simpl in Hr.
    destruct Hr as [<-|[<-|[<-|[]]]]; reflexivity.
Qed.

Lemma reindex_keeps_one_row_and_summary_witness :
  let w' := snd (@insert_file utc_host "/A/sub/notes.txt" "hello" 1704412800 1704412800 5
                   notes_world) in
  sql.count_files "/A/sub/notes.txt" (files (disk w')) = 1
  /\ sql.count_index "/A/sub/notes.txt" (file_index (disk w')) = 1
  /\ (exists r, sql.select_file "/A/sub/notes.txt" (files (disk w')) = Some r
                /\ Registry.summary r = Some "Meeting notes"
                /\ Registry.tech_stack r = None)
  /\ (exists c, sql.select_index "/A/sub/notes.txt" (file_index (disk w')) = Some c
                /\ ContentIndex.summary c = "Meeting notes"
                /\ ContentIndex.tech_stack c = "").
Proof.
  apply (@reindex_keeps_one_row_and_summary utc_host "/A/sub/notes.txt" "hello"
           1704412800 1704412800 5 notes_world
           (Registry.mk "/A/sub/notes.txt" "file" "txt" 1704412800 1704412800 5
              "2026-01-01 00:00:00" (Some "Meeting notes") None)).
  - vm_compute. reflexivity.
  - vm_compute. reflexivity.
Defined.

Lemma storage_ops_keep_pairing_witness :
  consistent (disk (snd (@run_op utc_host (UpdateSummary "/A/sub/notes.txt" "Meeting notes")
                           (mkWorld notes_db 0))))
  /\ (disk (snd (@run_op utc_host (UpdateSummary "/A/sub/notes.txt" "Meeting notes")
                   (mkWorld notes_db 0))) = notes_db
      \/ disk (snd (@run_op utc_host (UpdateSummary "/A/sub/notes.txt" "Meeting notes")
                      (mkWorld notes_db 0)))
         = @op_effect utc_host (UpdateSummary "/A/sub/notes.txt" "Meeting notes")
             (mkWorld notes_db 0)).
Proof.
  apply (@storage_ops_keep_pairing utc_host (UpdateSummary "/A/sub/notes.txt" "Meeting notes")
           (mkWorld notes_db 0)).
  - exact notes_db_consistent.
  - right. discriminate.
Defined.

(** C3, as stated, fails for an index rebuild that is interrupted.
    [rebuild_fts_index] commits the dropped index before it refills it.
    On the store [notes_db], where every Registry path has its
    Content-Index row, a rebuild whose fourth write is refused raises
    and leaves the Registry as it was and the Content Index empty: no
    Registry path has a Content-Index row any more. *)
Lemma interrupted_rebuild_empties_index :
  let refusing := utc_host_refusing (fun n => Nat.eqb n 3) in
  let w' := snd (@run_op refusing RebuildIndex (mkWorld notes_db 0)) in
  consistent notes_db
  /\ fst (@run_op refusing RebuildIndex (mkWorld notes_db 0)) = Raise
  /\ files (disk w') = files notes_db
  /\ file_index (disk w') = []
  /\ sql.count_index "/A/sub/notes.txt" (file_index (disk w')) = 0
  /\ ~ consistent (disk w').
Proof.
  cbv zeta. split; [exact notes_db_consistent|].
  split; [vm_compute; reflexivity|]. split; [vm_compute; reflexivity|].
  split; [vm_compute; reflexivity|]. split; [vm_compute; reflexivity|].
  intros [_ Hp].
  specialize (Hp (Registry.mk "/A" "folder" "" 1704412800 1704412800 0 "2026-01-01 00:00:00"
                    (Some "Folder with 0 files and 1 subfolders.") (Some "Mixed"))).
  vm_compute in Hp. specialize (Hp (or_introl eq_refl)). discriminate Hp.
Qed.

(** A file whose modification time is past year 9999: the Registry row
    is written, the time cannot be formatted, and nothing is committed. *)
Example insert_file_unformattable_time :
  @insert_file utc_host "/A/late.txt" "x" 253402300800 1704412800 1 (mkWorld notes_db 0)
  = (Val false, mkWorld notes_db 1).
Proof. vm_compute. reflexivity. Qed.

(** The third write of an upsert is refused: nothing is committed. *)
Example insert_file_write_refused :
  @insert_file (utc_host_refusing (Nat.eqb 2)) "/A/new.txt" "x" 1704412800 1704412800 1
    (mkWorld notes_db 0)
  = (Val false, mkWorld notes_db 3).
Proof. vm_compute. reflexivity. Qed.

(* ================================================================== *)
(** * Folder aggregates *)
(* ================================================================== *)

Section AggregateScope.
Import pystr pystr_facts.

(** [%] may stand for any run of characters. *)
Lemma like_chars_percent (pat skipped t : list ascii) :
  sql.like_chars pat t = true ->
  sql.like_chars ("%"%char :: pat) (skipped ++ t) = true.
Proof.
  intros H. induction skipped as [|a skipped IH].
  - simpl. destruct t; simpl; rewrite H; reflexivity.
  - change (sql.like_chars pat ((a :: skipped) ++ t)
            || sql.like_chars ("%"%char :: pat) (skipped ++ t) = true).
    rewrite IH. apply orb_true_r.
Qed.

(** A [LIKE] pattern matches at least the texts that it matches
    character by character. *)
Lemma like_chars_of_prefix (b rest : list ascii) :
  sql.like_chars (b ++ ["%"%char]) (b ++ rest) = true.
Proof.
  induction b as [|c b IH].
  - simpl ([] ++ _)%list. rewrite <- (app_nil_r rest).
    apply (like_chars_percent [] rest []). reflexivity.
  - destruct (Ascii.eqb_spec c "%") as [->|Hne].
    + apply (like_chars_percent (b ++ ["%"%char]) ["%"%char] (b ++ rest)). exact IH.
    + simpl. apply Ascii.eqb_neq in Hne. rewrite Hne.
      rewrite Ascii.eqb_refl, orb_true_r. exact IH.
Qed.

(** The rows fetched for a folder include all its descendants. *)
Lemma like_of_prefix (p base : string) :
  startswith p base = true -> sql.like p (base ++ "%") = true.
Proof.
  intros H. apply startswith_iff in H. destruct H as [rest ->].
  unfold sql.like. rewrite !chars_app. apply like_chars_of_prefix.
Qed.

Lemma filter_filter_and {A} (f g : A -> bool) (l : list A) :
  filter f (filter g l) = filter (fun x => g x && f x) l.
Proof.
  induction l as [|a l IH]; simpl; [reflexivity|].
  destruct (g a); simpl; [destruct (f a) | ]; now rewrite IH.
Qed.

(** When, on the paths of the Registry, the [LIKE] test of the query is
    the prefix test it stands for, [_fetch_children_rows] returns the
    descendants, and with [recursive=False] the direct children. *)
Lemma fetch_children_rows_when_like_is_prefix (db : Database) (folder_path : string) :
  (forall r, In r (files db) ->
             sql.like (Registry.path r) (child_base folder_path ++ "%")
             = startswith (Registry.path r) (child_base folder_path)) ->
  _fetch_children_rows db folder_path true = descendants db folder_path
  /\ _fetch_children_rows db folder_path false = direct_children db folder_path.
Proof.
  intros H.
  assert (E : children_like db folder_path = descendants db folder_path).
  { unfold children_like, descendants, is_descendant. fold (child_base folder_path).
    apply filter_ext_in. intros r Hr. now rewrite H. }
  unfold _fetch_children_rows. fold (child_base folder_path). rewrite E.
  split; [reflexivity|].
  unfold direct_children, descendants. rewrite filter_filter_and.
  apply filter_ext. intros r. unfold is_direct_child. now rewrite andb_assoc.
Qed.

End AggregateScope.

Example walk_gives_siblings_db :
  @index_dirs utc_host (@walk "/srv/data" siblings_tree) 0 []
    (snd (@add_index_root utc_host "/srv/data" (mkWorld empty_db 0)))
  = (Val (1, ["/srv/data"; "/srv/data/a_b"; "/srv/data/axb"]), mkWorld siblings_db 18).
Proof. vm_compute. reflexivity. Qed.

(** C4 fails on the code.  The folder [/srv/data/a_b] has no child, yet
    [update_folder_aggregate] counts the file [c.py] of its sibling
    [axb], whose path the pattern [/srv/data/a_b/%] matches, in both
    aggregates: the Registry gets one file and the label Python where
    the statistics of the direct children are those of no row. *)
Theorem folder_aggregate_counts_sibling_rows :
  let w' := snd (@update_folder_aggregate utc_host "/srv/data/a_b" 60 (mkWorld siblings_db 18)) in
  direct_children siblings_db "/srv/data/a_b" = []
  /\ descendants siblings_db "/srv/data/a_b" = []
  /\ _compute_folder_stats [] 60
     = ("Folder with 0 files and 0 subfolders.", "Mixed", "Folder with 0 files and 0 subfolders.")
  /\ option_map (fun r => (Registry.summary r, Registry.tech_stack r))
       (get_file_metadata (disk w') "/srv/data/a_b")
     = Some (Some "Folder with 1 files and 0 subfolders. Top types: py:1.", Some "Python")
  /\ option_map ContentIndex.content (sql.select_index "/srv/data/a_b" (file_index (disk w')))
     = Some "Folder with 1 files and 0 subfolders. Top types: py:1. c.py".
Proof. vm_compute. repeat split; reflexivity. Qed.

(* ================================================================== *)
(** * Scanner *)
(* ================================================================== *)

Section ScannerFacts.
Context {host : Host}.
Import pystr pystr_facts.

(** [process_file] never raises, and returns [True] exactly when the
    file could be read, whatever [insert_file] returned. *)
Lemma process_file_run (path : string) (node : FileNode) (w : World) :
  exists w', process_file path node w = (Val (readable node), w').
Proof.
  unfold process_file, readable, try_except, bind, of_option, ret, raise.
  destruct (file_stat node) as [st|]; [|now eexists].
  destruct (file_text node) as [text|]; [|now eexists].
  destruct (insert_file_run (abspath path) text (st_mtime st) (st_created st) (st_size st) w)
    as [n' ->].
  destruct (upsert_succeeds _ _ _); now eexists.
Qed.

(** The loop over the files of a directory never raises and counts the
    eligible files that could be read. *)
Lemma index_files_run (root : string) (fs : list (string * FileNode)) :
  forall count w,
  exists w',
    index_files root fs count w
    = (Val (count + List.length (filter (fun e => eligible e && readable (snd e)) fs)), w').
Proof.
  induction fs as [|[file node] fs IH]; intros count w.
  - exists w. cbn [index_files filter List.length]. unfold ret. now rewrite Nat.add_0_r.
  - cbn [index_files filter]. unfold eligible in *. cbn [fst snd].
    destruct (startswith file "."); cbn [negb andb]; [apply IH|].
    destruct (mem (lower (posixpath.splitext_ext file)) SUPPORTED_EXTS);
      cbn [negb andb]; [|apply IH].
    unfold bind.
    destruct (process_file_run (posixpath.join root file) node w) as [w1 ->].
    destruct (readable node); cbn [List.length]; cbv iota.
    + destruct (IH (S count) w1) as [w' ->]. exists w'. f_equal. f_equal. lia.
    + apply IH.
Qed.

(** The loop over the visited directories never raises: a directory
    whose [os.stat] fails is skipped and the walk goes on. *)
Lemma index_dirs_run (visited : list (string * option Stat * list (string * FileNode))) :
  forall count folders_seen w,
  exists folders_seen' w',
    index_dirs visited count folders_seen w
    = (Val (count
            + List.length
                (filter (fun e => eligible e && readable (snd e))
                        (flat_map snd visited)),
            folders_seen'), w').
Proof.
  induction visited as [|[[root st] fs] visited IH]; intros count folders_seen w.
  - exists folders_seen, w. cbn [index_dirs flat_map filter List.length].
    unfold ret. now rewrite Nat.add_0_r.
  - cbn [index_dirs flat_map snd]. unfold bind at 1.
    assert (Hf : exists fs1 w1,
               try_except
                 (bind (of_option st)
                    (fun stats =>
                       bind (insert_folder (abspath root) (st_mtime stats) (st_created stats))
                         (fun _ => ret (folders_seen ++ [abspath root])%list)))
                 (ret folders_seen) w
               = (Val fs1, w1)).
    { unfold try_except, bind, of_option, ret, raise.
      destruct st as [stats|]; [|now eexists; eexists].
      destruct (insert_folder_run (abspath root) (st_mtime stats) (st_created stats) w)
        as [n' ->].
      destruct (upsert_succeeds _ _ _); now eexists; eexists. }
    destruct Hf as (fs1 & w1 & ->).
    unfold bind at 1. destruct (index_files_run root fs count w1) as [w2 ->].
    destruct (IH (count + List.length (filter (fun e => eligible e && readable (snd e)) fs))
                 fs1 w2) as (fs' & w' & ->).
    exists fs', w'. now rewrite filter_app, length_app, Nat.add_assoc.
Qed.

End ScannerFacts.

(** C8 fails on the code.  [insert_file] fails for [late.txt] (its
    modification time cannot be formatted) and returns [False];
    [process_file] drops that result and returns [True].  The scan
    returns 1 although no file was indexed: the Registry holds the
    folder only.  The same happens when the storage refuses a write of
    the upsert of a file. *)
Theorem scan_counts_file_not_indexed :
  fst (@scan_directory utc_host "/A" late_tree (mkWorld empty_db 0)) = Val 1
  /\ map Registry.path
       (files (disk (snd (@scan_directory utc_host "/A" late_tree (mkWorld empty_db 0)))))
     = ["/A"]
  /\ fst (@insert_file utc_host "/A/late.txt" "x" 253402300800 1704412800 1
            (mkWorld empty_db 0)) = Val false
  /\ fst (@scan_directory (utc_host_refusing (Nat.eqb 10)) "/A" notes_tree (mkWorld empty_db 0))
     = Val 1
  /\ map Registry.path
       (files (disk (snd (@scan_directory (utc_host_refusing (Nat.eqb 10)) "/A" notes_tree
                           (mkWorld empty_db 0)))))
     = ["/A"; "/A/sub"].
Proof. vm_compute. repeat split; reflexivity. Qed.

(* ================================================================== *)
(** * Intent parser *)
(* ================================================================== *)

Section IntentFacts.
Context {ai_host : AiHost}.
Import pystr.

Lemma dict_find_set {V} (k : string) (v : V) (d : list (string * V)) :
  dict_find k (dict_set k v d) = Some v.
Proof.
  induction d as [|[k' v'] d IH]; simpl.
  - now rewrite String.eqb_refl.
  - destruct (String.eqb k' k) eqn:E; simpl; rewrite E; [reflexivity | exact IH].
Qed.

Lemma cache_get_run (user_query : string) (s : AiState) :
  _cache_get (normalized user_query) s
  = if cache_miss user_query s
    then (Val None, after_miss (normalized user_query) s)
    else (Val (option_map fst (dict_find (normalized user_query) (cache s))), s).
Proof.
  unfold _cache_get, cache_miss, after_miss.
  destruct (dict_find (normalized user_query) (cache s)) as [[v e]|]; [|reflexivity].
  destruct (Z.ltb e (clock s)); reflexivity.
Qed.

(** A query that a rule answers: the cache is asked first, then the
    rule; the text generator is not called. *)
Lemma parse_with_rule (user_query ruled : string) (s : AiState) :
  _rule_based_intent user_query = Some ruled ->
  parse_search_intent user_query s
  = if cache_miss user_query s
    then (Val ruled,
          let s' := after_miss (normalized user_query) s in
          mkAiState (dict_set (normalized user_query)
                       (ruled, (clock s' + _INTENT_CACHE_TTL_SEC)%Z) (cache s'))
                    (clock s') (chats s'))
    else (Val (match dict_find (normalized user_query) (cache s) with
               | Some (v, _) => v
               | None => ruled
               end), s).
Proof.
  intros Hrule. unfold parse_search_intent. fold (normalized user_query).
  unfold bind at 1. rewrite cache_get_run.
  unfold cache_miss.
  destruct (dict_find (normalized user_query) (cache s)) as [[v e]|] eqn:Hfind.
  - destruct (Z.ltb e (clock s)); cbv beta iota.
    + rewrite Hrule. unfold after_miss. rewrite Hfind. reflexivity.
    + reflexivity.
  - cbv beta iota. rewrite Hrule. unfold after_miss. rewrite Hfind. reflexivity.
Qed.

Lemma after_miss_clock_chats (key : string) (s : AiState) :
  clock (after_miss key s) = clock s /\ chats (after_miss key s) = chats s.
Proof.
  unfold after_miss. destruct (dict_find key (cache s)); split; reflexivity.
Qed.

End IntentFacts.

Section IntentTheorems.
Context {host : Host} {engine : TextEngine} {ai_host : AiHost}.
Import pystr.

(** The run of [parse_search_intent] on a query that neither the cache
    nor a rule answers: one call of the text generator, no exception,
    and the answer is cached. *)
Lemma parse_with_generator (user_query : string) (s : AiState) :
  cache_miss user_query s = true ->
  _rule_based_intent user_query = None ->
  let s0 := after_miss (normalized user_query) s in
  let prompt := intent_prompt (date_context (clock s0)) user_query in
  let now := (clock s0 + Z.of_nat (chat_seconds prompt))%Z in
  let final := resolved_by_generator now prompt user_query in
  parse_search_intent user_query s
  = (Val final,
     mkAiState (dict_set (normalized user_query) (final, (now + _INTENT_CACHE_TTL_SEC)%Z)
                  (cache s0))
               now (S (chats s0))).
Proof.
  intros Hmiss Hrule. cbv zeta.
  unfold parse_search_intent. fold (normalized user_query).
  unfold bind at 1. rewrite cache_get_run, Hmiss. cbv beta iota. rewrite Hrule.
  set (s0 := after_miss (normalized user_query) s).
  unfold bind at 1. unfold time_now_clock at 1. cbv beta iota.
  set (prompt := intent_prompt (date_context (clock s0)) user_query).
  unfold resolved_by_generator, intent_of_reply, clean_reply.
  unfold try_except at 1. unfold bind at 1. unfold ollama_chat.
  destruct (chat prompt) as [|content]; cbv beta iota.
  - reflexivity.
  - destruct (regex.brace_block
                (strip (replace "```" "" (replace "```json" "" (strip (or_empty content))))))
      as [blob|]; [|reflexivity].
    unfold try_except, bind, of_option, finish, time_now_clock, _cache_set, ret, raise.
    destruct (json_loads blob) as [data|]; cbv beta iota; reflexivity.
Qed.



(** C5, as amended.  Resolving [files from 2024] never calls the text
    generator.  When no entry that the cache can still return for the
    key holds another answer, the resolution yields the filter of the
    rule, [(created_str:"2024" OR modified_str:"2024")], and so does
    every later resolution on the cache it leaves, at any time of the
    clock, again without a call of the text generator. *)
Theorem files_from_2024_rule (s : AiState) :
  chats (snd (parse_search_intent "files from 2024" s)) = chats s
  /\ (cache_answers "files from 2024" year_2024_filter s ->
      fst (parse_search_intent "files from 2024" s) = Val year_2024_filter
      /\ forall t n,
           let s2 := mkAiState (cache (snd (parse_search_intent "files from 2024" s))) t n in
           fst (parse_search_intent "files from 2024" s2) = Val year_2024_filter
           /\ chats (snd (parse_search_intent "files from 2024" s2)) = n).
Proof.
  assert (Hrule : _rule_based_intent "files from 2024" = Some year_2024_filter)
    by (vm_compute; reflexivity).
  assert (Hkey : normalized "files from 2024" = "files from 2024")
    by (vm_compute; reflexivity).
  assert (Hchats : forall s0, chats (snd (parse_search_intent "files from 2024" s0)) = chats s0).
  { intros s0. rewrite (parse_with_rule _ _ _ Hrule).
    destruct (cache_miss "files from 2024" s0); cbn [snd chats]; [|reflexivity].
    apply after_miss_clock_chats. }
  assert (Hval : forall s0, cache_answers "files from 2024" year_2024_filter s0 ->
                            fst (parse_search_intent "files from 2024" s0)
                            = Val year_2024_filter).
  { intros s0 Hans. rewrite (parse_with_rule _ _ _ Hrule).
    unfold cache_miss. rewrite Hkey.
    destruct (dict_find "files from 2024" (cache s0)) as [[v e]|] eqn:Hfind; [|reflexivity].
    destruct (Z.ltb e (clock s0)) eqn:Hlt; [reflexivity|].
    cbn [fst]. f_equal. apply (Hans v e Hfind). now apply Z.ltb_ge. }
  split; [apply Hchats|]. intros Hans. split; [now apply Hval|].
  intros t n. cbv zeta. split; [|apply Hchats].
  apply Hval. intros v e Hfind _. cbn [cache] in Hfind.
  rewrite (parse_with_rule _ _ _ Hrule) in Hfind. rewrite Hkey in Hfind.
  unfold cache_miss in Hfind. rewrite Hkey in Hfind.
  destruct (dict_find "files from 2024" (cache s)) as [[v0 e0]|] eqn:Hold.
  - destruct (Z.ltb e0 (clock s)) eqn:Hlt; cbn [snd cache] in Hfind.
    + rewrite dict_find_set in Hfind. congruence.
    + rewrite Hold in Hfind. injection Hfind as <- <-.
      apply (Hans v0 e0 Hold). now apply Z.ltb_ge.
  - cbn [snd cache] in Hfind. rewrite dict_find_set in Hfind. congruence.
Qed.

End IntentTheorems.

(** C5, as stated, fails twice.  With the text generator down, the
    query [files-from 2024] matches no rule and is answered by its
    cleaned text, cached under the key [files from 2024]; the query
    [files from 2024] asked next gets that text and not the filter.  And
    the filter that the rule gives on a fresh cache names the columns
    [created_str] and [modified_str]: it is not the text
    [(created:"2024" OR modified:"2024")]. *)
Lemma files_from_2024_after_colliding_query :
  fst (@parse_search_intent ai_down "files from 2024"
         (snd (@parse_search_intent ai_down "files-from 2024" (mkAiState [] 0 0))))
  = Val "files from 2024"
  /\ "files from 2024" <> year_2024_filter
  /\ fst (@parse_search_intent ai_down "files from 2024" (mkAiState [] 0 0))
     = Val year_2024_filter
  /\ year_2024_filter <> documented_2024_filter.
Proof.
  split; [vm_compute; reflexivity|]. split; [discriminate|].
  split; [vm_compute; reflexivity|]. intros H. vm_compute in H. discriminate H.
Qed.

(** On a fresh cache the rule answers, twice. *)
Example files_from_2024_fresh :
  @parse_search_intent ai_down "files from 2024" (mkAiState [] 0 0)
  = (Val year_2024_filter, mkAiState [("files from 2024", (year_2024_filter, 120%Z))] 0 0)
  /\ fst (@parse_search_intent ai_down "files from 2024"
            (mkAiState [("files from 2024", (year_2024_filter, 120%Z))] 100 0))
     = Val year_2024_filter.
Proof. split; vm_compute; reflexivity. Qed.


(* ================================================================== *)
(** * Further properties of the design document *)
(* ================================================================== *)

Section FurtherFacts.
Context {host : Host} {ai_host : AiHost}.
Import pystr pystr_facts sql_facts.

(** A loop whose body catches every exception runs to its end. *)
Lemma for_each_guarded_run {A} (body : A -> Proc unit) (l : list A) :
  forall w, exists w', for_each l (fun x => try_except (body x) (ret tt)) w = (Val tt, w').
Proof.
  induction l as [|x l IH]; intros w; cbn [for_each].
  - now exists w.
  - unfold bind, try_except at 1. destruct (body x w) as [[[]|] w1]; apply IH.
Qed.


(** When the [LIKE] test of the query is the prefix test on the paths of
    the Registry, [update_folder_aggregate] writes the statistics of the
    direct children into the Registry row of the folder and those of all
    descendants into its one Content-Index row, with the date tokens
    that row had. *)
Theorem folder_aggregate_of_children (folder_path : string) (max_children : nat) (w : World) :
  (forall r, In r (files (disk w)) ->
             sql.like (Registry.path r) (child_base (abspath folder_path) ++ "%")
             = startswith (Registry.path r) (child_base (abspath folder_path))) ->
  fst (update_folder_aggregate folder_path max_children w) = Val tt ->
  let fp := abspath folder_path in
  let db' := disk (snd (update_folder_aggregate folder_path max_children w)) in
  let direct := _compute_folder_stats (direct_children (disk w) fp) max_children in
  let rec := _compute_folder_stats (descendants (disk w) fp) max_children in
  let old := sql.select_index fp (file_index (disk w)) in
  files db'
  = sql.update_files_aggregate fp (Some (fst (fst direct))) (Some (snd (fst direct)))
      (files (disk w))
  /\ sql.count_index fp (file_index db') = 1
  /\ sql.select_index fp (file_index db')
     = Some (ContentIndex.mk fp "folder" "" (snd rec) (fst (fst rec)) (snd (fst rec))
               (match old with Some m => ContentIndex.created_str m | None => "" end)
               (match old with Some m => ContentIndex.modified_str m | None => "" end)).
Proof.
  intros Hlike Hdone. cbv zeta.
  destruct (update_folder_aggregate_run folder_path max_children w) as (r & n' & E).
  rewrite E in *. cbn [fst snd disk] in *. subst r.
  unfold folder_aggregate_effect.
  destruct (fetch_children_rows_when_like_is_prefix (disk w) (abspath folder_path) Hlike)
    as [-> ->].
  cbn [files file_index].
  set (row := ContentIndex.mk (abspath folder_path) _ _ _ _ _ _ _).
  split; [reflexivity|]. split.
  - apply (count_index_rewrite row).
  - apply (select_index_rewrite row).
Qed.

(** The state in which [parse_search_intent] leaves the cache after a
    miss: the answer is stored under the key for 120 seconds. *)
Lemma parse_after_miss (user_query : string) (s : AiState) :
  cache_miss user_query s = true ->
  exists final s1,
    parse_search_intent user_query s = (Val final, s1)
    /\ dict_find (normalized user_query) (cache s1)
       = Some (final, (clock s1 + _INTENT_CACHE_TTL_SEC)%Z).
Proof.
  intros Hmiss.
  destruct (_rule_based_intent user_query) as [ruled|] eqn:Hrule.
  - rewrite (parse_with_rule _ _ _ Hrule), Hmiss.
    eexists; eexists. split; [reflexivity|]. cbn [cache clock]. apply dict_find_set.
  - rewrite (parse_with_generator _ _ Hmiss Hrule).
    eexists; eexists. split; [reflexivity|]. cbn [cache clock]. apply dict_find_set.
Qed.

(** A query whose key has an entry that is not expired is answered from
    the cache, and nothing changes. *)
Lemma parse_hit (user_query v : string) (expires : Z) (s : AiState) :
  dict_find (normalized user_query) (cache s) = Some (v, expires) ->
  (clock s <= expires)%Z ->
  parse_search_intent user_query s = (Val v, s).
Proof.
  intros Hfind Hle. unfold parse_search_intent. fold (normalized user_query).
  unfold bind at 1. rewrite cache_get_run. unfold cache_miss. rewrite Hfind.
  apply Z.ltb_ge in Hle. rewrite Hle. reflexivity.
Qed.

(** A query resolved on a cache miss and asked again within 120 seconds
    of its resolution gets the same answer from the cache: the text
    generator is not called a second time and the cache is not
    written. *)
Theorem second_resolution_hits_cache (user_query : string) (s : AiState) (t : Z) :
  cache_miss user_query s = true ->
  (t <= clock (snd (parse_search_intent user_query s)) + _INTENT_CACHE_TTL_SEC)%Z ->
  let s1 := snd (parse_search_intent user_query s) in
  let s2 := mkAiState (cache s1) t (chats s1) in
  parse_search_intent user_query s2 = (fst (parse_search_intent user_query s), s2).
Proof.
  intros Hmiss Ht. cbv zeta.
  destruct (parse_after_miss user_query s Hmiss) as (final & s1 & E & Hfind).
  rewrite E in *. cbn [fst snd] in *.
  apply (parse_hit user_query final (clock s1 + _INTENT_CACHE_TTL_SEC)%Z); assumption.
Qed.

(** The fixed phrase [budget files] is answered by its rule, without a
    call of the text generator, unless the cache holds an unexpired
    answer under its key. *)
Theorem budget_files_rule (s : AiState) :
  chats (snd (parse_search_intent "budget files" s)) = chats s
  /\ (cache_miss "budget files" s = true ->
      fst (parse_search_intent "budget files" s)
      = Val "(path:budget* OR content:budget OR summary:budget OR ext:csv OR ext:md)").
Proof.
  assert (Hrule : _rule_based_intent "budget files"
                  = Some "(path:budget* OR content:budget OR summary:budget OR ext:csv OR ext:md)")
    by (vm_compute; reflexivity).
  rewrite (parse_with_rule _ _ _ Hrule). split.
  - destruct (cache_miss "budget files" s); cbn [snd chats]; [|reflexivity].
    apply after_miss_clock_chats.
  - intros ->. reflexivity.
Qed.

End FurtherFacts.


Lemma folder_aggregate_of_children_witness :
  let fp := @abspath utc_host "/A" in
  let db' := disk (snd (@update_folder_aggregate utc_host "/A" 60 (mkWorld notes_db 0))) in
  let direct := _compute_folder_stats (direct_children notes_db fp) 60 in
  let rec := _compute_folder_stats (descendants notes_db fp) 60 in
  let old := sql.select_index fp (file_index notes_db) in
  files db'
  = sql.update_files_aggregate fp (Some (fst (fst direct))) (Some (snd (fst direct)))
      (files notes_db)
  /\ sql.count_index fp (file_index db') = 1
  /\ sql.select_index fp (file_index db')
     = Some (ContentIndex.mk fp "folder" "" (snd rec) (fst (fst rec)) (snd (fst rec))
               (match old with Some m => ContentIndex.created_str m | None => "" end)
               (match old with Some m => ContentIndex.modified_str m | None => "" end)).
Proof.
  apply (@folder_aggregate_of_children utc_host "/A" 60 (mkWorld notes_db 0)).
  - intros r Hr. cbn [disk files notes_db] in Hr.
    destruct Hr as [<-|[<-|[<-|[]]]]; vm_compute; reflexivity.
  - vm_compute. reflexivity.
Defined.

Lemma second_resolution_hits_cache_witness :
  let s1 := snd (@parse_search_intent ai_down "Hello" (mkAiState [] 0 0)) in
  let s2 := mkAiState (cache s1) 100 (chats s1) in
  @parse_search_intent ai_down "Hello" s2
  = (fst (@parse_search_intent ai_down "Hello" (mkAiState [] 0 0)), s2).
Proof.
  apply (@second_resolution_hits_cache ai_down "Hello" (mkAiState [] 0 0) 100).
  - vm_compute. reflexivity.
  - vm_compute. discriminate.
Defined.

(* ================================================================== *)
(** * Further facts: the shape of search results *)
(* ================================================================== *)

Section SearchShape.
Context {host : Host} {engine : TextEngine}.
Import pystr pystr_facts.

Lemma NoDup_firstn {A} (n : nat) (l : list A) : NoDup l -> NoDup (firstn n l).
Proof.
  intros H. revert n. induction H as [|x l Hx H IH]; intros [|n]; simpl; try constructor.
  - intros Hin. apply Hx. now apply In_firstn in Hin.
  - apply IH.
Qed.

Lemma NoDup_map_filter {A B} (f : A -> B) (g : A -> bool) (l : list A) :
  NoDup (map f l) -> NoDup (map f (filter g l)).
Proof.
  induction l as [|x l IH]; simpl; intros H; [constructor|].
  inversion H as [|y l' Hx Hl]; subst.
  destruct (g x); simpl; [constructor|]; auto.
  intros Hin. apply Hx. apply in_map_iff in Hin. destruct Hin as (z & E & Hz).
  apply in_map_iff. exists z. split; [exact E|]. now apply filter_In in Hz.
Qed.

Lemma unique_from_fresh (l : list Hit.t) :
  forall seen h, In h (unique_from seen l) -> ~ In (Hit.path h) seen.
Proof.
  induction l as [|x l IH]; intros seen h; simpl; [contradiction|].
  destruct (mem (Hit.path x) seen) eqn:E.
  - apply IH.
  - intros [<-|H].
    + intros Hin. apply mem_In in Hin. congruence.
    + intros Hin. apply (IH _ _ H). now right.
Qed.

Lemma unique_from_NoDup (l : list Hit.t) :
  forall seen, NoDup (map Hit.path (unique_from seen l)).
Proof.
  induction l as [|x l IH]; intros seen; simpl; [constructor|].
  destruct (mem (Hit.path x) seen); [apply IH|].
  simpl. constructor; [|apply IH].
  intros Hin. apply in_map_iff in Hin. destruct Hin as (h & E & Hh).
  apply unique_from_fresh in Hh. apply Hh. left. now rewrite E.
Qed.


Lemma append_folders_fresh (pf : list string) :
  forall seen h, In h (append_folders seen pf) -> ~ In (Hit.path h) seen.
Proof.
  induction pf as [|fp pf IH]; intros seen h; simpl; [contradiction|].
  destruct (mem fp seen) eqn:E.
  - apply IH.
  - intros [<-|H]; simpl.
    + intros Hin. apply mem_In in Hin. congruence.
    + intros Hin. apply (IH _ _ H). now right.
Qed.

Lemma append_folders_NoDup (pf : list string) :
  forall seen, NoDup (map Hit.path (append_folders seen pf)).
Proof.
  induction pf as [|fp pf IH]; intros seen; simpl; [constructor|].
  destruct (mem fp seen); [apply IH|].
  simpl. constructor; [|apply IH].
  intros Hin. apply in_map_iff in Hin. destruct Hin as (h & E & Hh).
  apply append_folders_fresh in Hh. apply Hh. left. now rewrite E.
Qed.

Lemma scoped_results_NoDup (db : Database) (query : string) (root_path : option string) :
  NoDup (map Hit.path (scoped_results db query root_path)).
Proof.
  unfold scoped_results.
  destruct root_path as [root|]; [destruct (truthy root)|];
    try apply NoDup_map_filter; apply unique_from_NoDup.
Qed.

(** No path is returned twice. *)
Theorem search_index_paths_distinct (db : Database) (query : string) (root_path : option string) :
  NoDup (map Hit.path (search_index db query root_path)).
Proof.
  unfold search_index.
  set (res := scoped_results db query root_path).
  assert (Hres : NoDup (map Hit.path res)) by apply scoped_results_NoDup.
  rewrite <- firstn_map. apply NoDup_firstn.
  destruct (map Hit.path (filter (fun r => String.eqb (Hit.kind r) "file") res)) as [|p ps];
    [exact Hres|].
  rewrite map_app. apply NoDup_app; [exact Hres | apply append_folders_NoDup |].
  intros x Hx Hx'. apply in_map_iff in Hx'. destruct Hx' as (h & <- & Hh).
  now apply append_folders_fresh in Hh.
Qed.






Lemma unique_from_prefix (a b : list Hit.t) :
  forall seen, exists rest, unique_from seen (a ++ b)%list = (unique_from seen a ++ rest)%list.
Proof.
  induction a as [|x a IH]; intros seen; simpl.
  - now exists (unique_from seen b).
  - destruct (mem (Hit.path x) seen); [apply IH|].
    destruct (IH (Hit.path x :: seen)) as [rest ->]. now exists rest.
Qed.

Lemma unique_from_length (l : list Hit.t) :
  forall seen, List.length (unique_from seen l) <= List.length l.
Proof.
  induction l as [|x l IH]; intros seen; simpl; [lia|].
  destruct (mem (Hit.path x) seen); simpl; [specialize (IH seen) | specialize (IH (Hit.path x :: seen))]; lia.
Qed.

Lemma unique_from_covers (l : list Hit.t) :
  forall seen x, In x l -> ~ In (Hit.path x) seen ->
                 exists h, In h (unique_from seen l) /\ Hit.path h = Hit.path x.
Proof.
  induction l as [|y l IH]; intros seen x; simpl; [contradiction|].
  intros [->|Hx] Hseen.
  - destruct (mem (Hit.path x) seen) eqn:E; [apply mem_In in E; contradiction|].
    exists x. split; [now left | reflexivity].
  - destruct (mem (Hit.path y) seen) eqn:E; [now apply IH|].
    destruct (String.eqb (Hit.path y) (Hit.path x)) eqn:Eyx.
    + apply String.eqb_eq in Eyx. exists y. split; [now left | exact Eyx].
    + apply String.eqb_neq in Eyx.
      destruct (IH (Hit.path y :: seen) x Hx) as (h & Hh & Eh).
      * intros [H|H]; [congruence | contradiction].
      * exists h. split; [now right | exact Eh].
Qed.

(** A plain query that is no extension alias always returns the first
    ten Content-Index rows whose path contains the query, whatever the
    full-text engine does with it: each of them that lies in the scope is
    among the results. *)
Theorem path_matches_are_returned
    (db : Database) (query : string) (root_path : option string) (row : ContentIndex.row) :
  contains ":" query || contains " AND " query || contains " OR " query = false ->
  dict_get (lower (strip query)) ext_alias = None ->
  In row (firstn 10 (filter (fun row => sql.like (ContentIndex.path row) ("%" ++ query ++ "%"))
                            (file_index db))) ->
  (forall root, root_path = Some root -> truthy root = true ->
                in_root_scope root (ContentIndex.path row) = true) ->
  exists h, In h (search_index db query root_path)
            /\ Hit.path h = ContentIndex.path row.
Proof.
  intros Hplain Halias Hrow Hscope.
  set (by_path := select_path_like db query).
  assert (Hin : In (hit_of None row) by_path).
  { unfold by_path, select_path_like. now apply in_map. }
  assert (Hlen : List.length by_path <= 10).
  { unfold by_path, select_path_like. rewrite length_map. apply firstn_le_length. }
  assert (Hcand : exists rest, candidates db query = (by_path ++ rest)%list).
  { unfold candidates. rewrite Hplain, Halias. simpl. now eexists. }
  destruct Hcand as [rest Hcand].
  destruct (unique_from_prefix by_path rest []) as [rest' Huniq].
  destruct (unique_from_covers by_path [] _ Hin) as (h & Hh & Eh); [intros []|].
  simpl in Eh.
  set (keep := fun r : Hit.t =>
                 match root_path with
                 | Some root => if truthy root then in_root_scope root (Hit.path r) else true
                 | None => true
                 end).
  assert (Hscoped : scoped_results db query root_path
                    = (filter keep (unique_from [] by_path) ++ filter keep rest')%list).
  { unfold scoped_results. rewrite Hcand, Huniq, <- filter_app. unfold keep.
    destruct root_path as [root|]; [destruct (truthy root)|]; try reflexivity;
      symmetry; apply forallb_filter_id; apply forallb_forall; reflexivity. }
  assert (Hkeep : In h (filter keep (unique_from [] by_path))).
  { apply filter_In. split; [exact Hh|]. unfold keep.
    destruct root_path as [root|]; [|reflexivity].
    destruct (truthy root) eqn:Hr; [|reflexivity]. rewrite Eh. now apply Hscope. }
  assert (Hshort : List.length (filter keep (unique_from [] by_path)) <= 20).
  { pose proof (filter_length_le keep (unique_from [] by_path)).
    pose proof (unique_from_length by_path []). lia. }
  exists h. split; [|exact Eh].
  unfold search_index. rewrite Hscoped.
  set (front := filter keep (unique_from [] by_path)) in *.
  assert (G : forall tail, In h (firstn 20 (front ++ tail)%list)).
  { intros tail. rewrite firstn_app. apply in_or_app. left.
    rewrite firstn_all2; [exact Hkeep | exact Hshort]. }
  destruct (map Hit.path _) as [|p ps]; [apply G|].
  rewrite <- app_assoc. apply G.
Qed.

End SearchShape.

(* ================================================================== *)
(** * Further facts: reading back what was stored *)
(* ================================================================== *)

Section RoundTrips.
Context {host : Host}.
Import pystr pystr_facts.

Lemma select_file_update (p q : string) (f : Registry.row -> Registry.row)
    (t : list Registry.row) :
  (forall x, Registry.path (f x) = Registry.path x) ->
  sql.select_file q (map (fun x => if String.eqb (Registry.path x) p then f x else x) t)
  = if String.eqb q p then option_map f (sql.select_file q t) else sql.select_file q t.
Proof.
  intros Hf. unfold sql.select_file.
  induction t as [|x t IH]; simpl; [now destruct (String.eqb q p)|].
  destruct (String.eqb (Registry.path x) p) eqn:Exp.
  - apply String.eqb_eq in Exp. rewrite Hf.
    destruct (String.eqb (Registry.path x) q) eqn:Exq.
    + apply String.eqb_eq in Exq. assert (q = p) as -> by congruence.
      now rewrite String.eqb_refl.
    + exact IH.
  - destruct (String.eqb (Registry.path x) q) eqn:Exq; [|exact IH].
    apply String.eqb_eq in Exq. subst q. now rewrite Exp.
Qed.

Lemma select_index_rewrite_other (p : string) (row : ContentIndex.row)
    (t : list ContentIndex.row) :
  p <> ContentIndex.path row ->
  sql.select_index p (sql.insert_index row (sql.delete_index (ContentIndex.path row) t))
  = sql.select_index p t.
Proof.
  intros Hp. unfold sql.select_index, sql.insert_index, sql.delete_index.
  induction t as [|x t IH]; simpl.
  - destruct (String.eqb (ContentIndex.path row) p) eqn:E; [|reflexivity].
    apply String.eqb_eq in E. congruence.
  - destruct (String.eqb (ContentIndex.path x) (ContentIndex.path row)) eqn:E; simpl.
    + apply String.eqb_eq in E. rewrite E.
      destruct (String.eqb (ContentIndex.path row) p) eqn:E'; [|exact IH].
      apply String.eqb_eq in E'. congruence.
    + destruct (String.eqb (ContentIndex.path x) p); [reflexivity | exact IH].
Qed.

(** When [update_summary] returns, the summary can be read back: the
    Registry row of the path, if there is one, holds the new summary,
    and so does the one Content-Index row of the path, which exists
    afterwards whether the path is registered or not; the rows of the
    other paths are as before. *)
Theorem update_summary_then_lookup (path new_summary : string) (w : World) :
  fst (update_summary path new_summary w) = Val tt ->
  let db' := disk (snd (update_summary path new_summary w)) in
  get_summary db' path
  = match sql.select_file path (files (disk w)) with
    | Some _ => Some new_summary
    | None => None
    end
  /\ sql.count_index path (file_index db') = 1
  /\ (exists c, sql.select_index path (file_index db') = Some c
                /\ ContentIndex.summary c = new_summary)
  /\ (forall q, q <> path ->
        sql.select_file q (files db') = sql.select_file q (files (disk w))
        /\ sql.select_index q (file_index db') = sql.select_index q (file_index (disk w))).
Proof.
  cbv zeta.
  destruct (update_summary_run path new_summary w) as (r & n' & ->).
  cbn [fst snd disk]. intros ->. unfold update_summary_effect, get_summary. cbn [files file_index].
  set (row := match sql.select_index path (file_index (disk w)) with
              | Some row => _
              | None => _
              end).
  assert (Hrow : ContentIndex.path row = path /\ ContentIndex.summary row = new_summary).
  { unfold row. destruct (sql.select_index path (file_index (disk w))); split; reflexivity. }
  destruct Hrow as [Hpath Hsum].
  split; [|split; [|split]].
  - unfold sql.update_files_summary.
    rewrite select_file_update; [|reflexivity]. rewrite String.eqb_refl.
    now destruct (sql.select_file path (files (disk w))).
  - rewrite <- Hpath at 1 2. apply sql_facts.count_index_rewrite.
  - exists row. split; [|exact Hsum].
    rewrite <- Hpath at 1 2. apply sql_facts.select_index_rewrite.
  - intros q Hq. split.
    + unfold sql.update_files_summary.
      rewrite select_file_update; [|reflexivity].
      apply String.eqb_neq in Hq. now rewrite Hq.
    + rewrite <- Hpath at 1. apply select_index_rewrite_other. congruence.
Qed.

Lemma select_file_replace_other (q : string) (r : Registry.row) (t : list Registry.row) :
  q <> Registry.path r ->
  sql.select_file q (sql.replace_into_files r t) = sql.select_file q t.
Proof.
  intros Hq. unfold sql.select_file, sql.replace_into_files.
  induction t as [|x t IH]; simpl.
  - destruct (String.eqb (Registry.path r) q) eqn:E; [|reflexivity].
    apply String.eqb_eq in E. congruence.
  - destruct (String.eqb (Registry.path x) (Registry.path r)) eqn:E; simpl.
    + apply String.eqb_eq in E. rewrite E.
      destruct (String.eqb (Registry.path r) q) eqn:E'; [|exact IH].
      apply String.eqb_eq in E'. congruence.
    + destruct (String.eqb (Registry.path x) q); [reflexivity | exact IH].
Qed.

Lemma update_tech_stack_run (path new_stack : string) (w : World) :
  exists r n',
    update_tech_stack path new_stack w
    = (r, mkWorld (match r with
                   | Val _ => set_files (sql.update_files_tech_stack path (Some new_stack))
                                (disk w)
                   | Raise => disk w
                   end) n').
Proof.
  unfold update_tech_stack. run_proc.
  split_outcomes;
    first [ exists (Val tt); eexists; reflexivity | exists Raise; eexists; reflexivity ].
Qed.

(** The stack recorded by [update_tech_stack] is what
    [get_file_metadata] returns afterwards, with the other columns of the
    row as they were; an unregistered path stays unregistered.  The
    Content Index is not written: its [tech_stack] column keeps the old
    value until the path is indexed again. *)
Theorem update_tech_stack_then_lookup (path new_stack : string) (w : World) :
  fst (update_tech_stack path new_stack w) = Val tt ->
  let db' := disk (snd (update_tech_stack path new_stack w)) in
  get_file_metadata db' path
  = option_map (fun x => Registry.mk (Registry.path x) (Registry.kind x) (Registry.ext x)
                           (Registry.last_modified x) (Registry.creation_time x)
                           (Registry.size x) (Registry.indexed_at x) (Registry.summary x)
                           (Some new_stack))
               (get_file_metadata (disk w) path)
  /\ (forall q, q <> path -> get_file_metadata db' q = get_file_metadata (disk w) q)
  /\ file_index db' = file_index (disk w)
  /\ index_roots db' = index_roots (disk w)
  /\ (consistent (disk w) -> consistent db').
Proof.
  cbv zeta.
  destruct (update_tech_stack_run path new_stack w) as (r & n' & ->).
  cbn [fst snd disk]. intros ->. unfold get_file_metadata, set_files. cbn [files file_index index_roots].
  unfold sql.update_files_tech_stack.
  split; [|split; [|split; [|split]]]; try reflexivity.
  - rewrite select_file_update; [|reflexivity]. now rewrite String.eqb_refl.
  - intros q Hq. rewrite select_file_update; [|reflexivity].
    apply String.eqb_neq in Hq. now rewrite Hq.
  - intros [Hk Hp]. split.
    + unfold keyed in *. cbn [files] in *.
      rewrite sql_facts.update_files_paths by reflexivity. exact Hk.
    + unfold paired in *. cbn [files file_index] in *.
      intros x Hx. apply in_map_iff in Hx. destruct Hx as (y & <- & Hy).
      destruct (String.eqb (Registry.path y) path); apply (Hp y Hy).
Qed.

(** An upsert that returns [True] can be read back.  The Registry holds
    for the path a row with the values given, the time of the upsert and
    the summary and stack that the path had before; [get_file_metadata]
    answers with the five columns it selects of that row, and
    [get_summary] with its summary.  The Content-Index row of the path
    holds the content and the two formatted dates; each table holds the
    path once, and the rows of the other paths are the same as before. *)
Theorem insert_file_then_lookup (path content : string) (lm ct size : Z) (w : World) :
  fst (insert_file path content lm ct size w) = Val true ->
  let db' := disk (snd (insert_file path content lm ct size w)) in
  let old := sql.select_file path (files (disk w)) in
  let summary := match old with Some r => Registry.summary r | None => None end in
  let tech_stack := match old with Some r => Registry.tech_stack r | None => None end in
  sql.select_file path (files db')
  = Some (Registry.mk path "file" (file_ext path) lm ct size
            (sql_datetime_now (attempts w)) summary tech_stack)
  /\ option_map metadata_columns (get_file_metadata db' path)
     = Some (lm, ct, tech_stack, "file", file_ext path)
  /\ get_summary db' path = summary
  /\ (exists c_str m_str,
        date_token ct = Some c_str /\ date_token lm = Some m_str
        /\ sql.select_index path (file_index db')
           = Some (ContentIndex.mk path "file" (file_ext path) content
                     (or_empty summary) (or_empty tech_stack) c_str m_str))
  /\ sql.count_files path (files db') = 1
  /\ sql.count_index path (file_index db') = 1
  /\ (forall q, q <> path ->
        sql.select_file q (files db') = sql.select_file q (files (disk w))
        /\ sql.select_index q (file_index db') = sql.select_index q (file_index (disk w))).
Proof.
  cbv zeta.
  destruct (insert_file_run path content lm ct size w) as [n' ->].
  destruct (upsert_succeeds (attempts w) lm ct) eqn:Hok; cbn [fst snd disk];
    [intros _ | discriminate].
  unfold upsert_effect, get_file_metadata, get_summary. cbn [files file_index].
  set (old := sql.select_file path (files (disk w))).
  set (r := upsert_registry_row path "file" (file_ext path) lm ct size _ old).
  set (c := upsert_index_row path "file" (file_ext path) content _ _ old).
  assert (Hrow : sql.select_file path
                   (sql.replace_into_files r (files (disk w))) = Some r)
    by apply (sql_facts.select_file_replace r).
  split; [exact Hrow|]. split; [now rewrite Hrow|]. split; [now rewrite Hrow|].
  split; [|split; [|split]].
  - unfold upsert_succeeds in Hok. unfold c, token_or_empty.
    destruct (date_token ct) as [c_str|]; [|now rewrite andb_false_r in Hok].
    destruct (date_token lm) as [m_str|]; [|now rewrite !andb_false_r in Hok].
    exists c_str, m_str. repeat split.
    apply (sql_facts.select_index_rewrite
             (upsert_index_row path "file" (file_ext path) content c_str m_str old)).
  - apply (sql_facts.count_files_replace r).
  - apply (sql_facts.count_index_rewrite c).
  - intros q Hq. split.
    + now apply select_file_replace_other.
    + now apply (select_index_rewrite_other q c).
Qed.

End RoundTrips.

Lemma update_tech_stack_then_lookup_witness :
  let db' := disk (snd (@update_tech_stack utc_host "/A/sub/notes.txt" "Plain Text"
                          (mkWorld notes_db 0))) in
  get_file_metadata db' "/A/sub/notes.txt"
  = Some (Registry.mk "/A/sub/notes.txt" "file" "txt" 1704412800 1704412800 5
            "2026-01-01 00:00:00" None (Some "Plain Text"))
  /\ option_map ContentIndex.tech_stack
       (sql.select_index "/A/sub/notes.txt" (file_index db')) = Some "".
Proof.
  cbv zeta.
  destruct (@update_tech_stack_then_lookup utc_host "/A/sub/notes.txt" "Plain Text"
              (mkWorld notes_db 0)) as (H1 & _ & H3 & _); [reflexivity|].
  split; [exact H1 | now rewrite H3].
Defined.

Lemma insert_file_then_lookup_witness :
  let db' := disk (snd (@insert_file utc_host "/A/b.md" "# b" 1704412800 1704412800 3
                          (mkWorld notes_db 0))) in
  option_map metadata_columns (get_file_metadata db' "/A/b.md")
  = Some (1704412800%Z, 1704412800%Z, None, "file", "md")
  /\ get_summary db' "/A/b.md" = None
  /\ sql.select_file "/A/sub/notes.txt" (files db')
     = sql.select_file "/A/sub/notes.txt" (files notes_db).
Proof.
  cbv zeta.
  destruct (@insert_file_then_lookup utc_host "/A/b.md" "# b" 1704412800 1704412800 3
              (mkWorld notes_db 0)) as (_ & H2 & H3 & _ & _ & _ & H7); [reflexivity|].
  split; [exact H2|]. split; [exact H3|]. apply H7. discriminate.
Defined.

(* ================================================================== *)
(** * Further facts: the statistics of a folder *)
(* ================================================================== *)

Section AggregateFacts.
Context {host : Host}.
Import pystr pystr_facts.

Lemma dedup_from_In (l : list string) :
  forall seen x, In x (dedup_from seen l) -> In x l /\ ~ In x seen.
Proof.
  induction l as [|y l IH]; intros seen x; simpl; [contradiction|].
  destruct (mem y seen) eqn:E.
  - intros H. apply IH in H. tauto.
  - intros [<-|H].
    + split; [now left|]. intros Hin. apply mem_In in Hin. congruence.
    + apply IH in H. simpl in H. tauto.
Qed.

Lemma dedup_from_NoDup (l : list string) : forall seen, NoDup (dedup_from seen l).
Proof.
  induction l as [|y l IH]; intros seen; simpl; [constructor|].
  destruct (mem y seen); [apply IH|].
  constructor; [|apply IH]. intros H. apply dedup_from_In in H. apply H. now left.
Qed.

Lemma dedup_from_length (l : list string) :
  forall seen, List.length (dedup_from seen l) <= List.length l.
Proof.
  induction l as [|y l IH]; intros seen; simpl; [lia|].
  destruct (mem y seen); simpl; [specialize (IH seen) | specialize (IH (y :: seen))]; lia.
Qed.

Lemma truthy_iff (s : string) : truthy s = true <-> s <> "".
Proof.
  unfold truthy. rewrite negb_true_iff. apply String.eqb_neq.
Qed.

Lemma upper_truthy (s : string) : truthy s = true -> truthy (upper s) = true.
Proof.
  destruct s; [discriminate | reflexivity].
Qed.

(** The label that [_infer_stack_from_ext] gives to an extension. *)
Lemma stack_label_truthy (ext : string) :
  truthy ext = true ->
  forall lbl,
    In lbl (match dict_get (lower ext) stack_mapping with
            | Some lbl => [if truthy lbl then lbl else upper ext]
            | None => [upper ext]
            end) ->
    truthy lbl = true.
Proof.
  intros Hext lbl.
  destruct (dict_get (lower ext) stack_mapping) as [l|].
  - destruct (truthy l) eqn:E; intros [<-|[]]; [exact E | now apply upper_truthy].
  - intros [<-|[]]. now apply upper_truthy.
Qed.

Lemma flat_map_length_le {A B} (f : A -> list B) (l : list A) :
  (forall x, List.length (f x) <= 1) -> List.length (flat_map f l) <= List.length l.
Proof.
  intros Hf. induction l as [|x l IH]; simpl; [lia|].
  rewrite length_app. specialize (Hf x). lia.
Qed.

(** The stack inferred for a folder names each technology once, names at
    most twelve, and has no empty label. *)
Lemma infer_stack_labels (ext_counts : Counter.t) :
  NoDup (_infer_stack_from_ext ext_counts)
  /\ List.length (_infer_stack_from_ext ext_counts) <= 12
  /\ (forall lbl, In lbl (_infer_stack_from_ext ext_counts) -> lbl <> "").
Proof.
  unfold _infer_stack_from_ext.
  split; [apply dedup_from_NoDup|]. split.
  - etransitivity; [apply dedup_from_length|].
    etransitivity; [apply flat_map_length_le|].
    + intros [ext cnt]. destruct (negb (truthy ext)); [simpl; lia|].
      destruct (dict_get (lower ext) stack_mapping); cbn [List.length]; lia.
    + unfold Counter.most_common. apply firstn_le_length.
  - intros lbl H. apply dedup_from_In in H. destruct H as [H _].
    apply in_flat_map in H. destruct H as ([ext cnt] & _ & H).
    destruct (truthy ext) eqn:E; simpl in H; [|contradiction].
    apply truthy_iff. now apply (stack_label_truthy ext).
Qed.

Lemma flat_map_none {A B} (f : A -> list B) (l : list A) :
  (forall x, In x l -> f x = []) -> flat_map f l = [].
Proof.
  induction l as [|x l IH]; intros H; simpl; [reflexivity|].
  rewrite (H x) by now left. apply IH. intros y Hy. apply H. now right.
Qed.

Lemma stats_fold (rows : list Registry.row) :
  forall a,
    let a' := fold_left stats_step rows a in
    file_count a' = file_count a + List.length (filter (fun r => negb (is_folder_row r)) rows)
    /\ folder_count a' = folder_count a + List.length (filter is_folder_row rows)
    /\ filenames a' = (filenames a ++ map (fun r => posixpath.basename (Registry.path r)) rows)%list
    /\ (forall k n, In (k, n) (ext_counts a') ->
          (exists n0, In (k, n0) (ext_counts a))
          \/ exists r, In r rows /\ is_folder_row r = false /\ Registry.ext r = k).
Proof.
  induction rows as [|r rows IH]; intros a; cbn [fold_left filter map List.length].
  - cbv zeta. rewrite !Nat.add_0_r, app_nil_r. repeat split. intros k n H. left. now exists n.
  - cbv zeta. destruct (IH (stats_step a r)) as (H1 & H2 & H3 & H4).
    rewrite H1, H2, H3. unfold stats_step at 1 2 3. cbn [file_count folder_count filenames].
    fold (is_folder_row r). destruct (is_folder_row r) eqn:Hk; cbn [negb List.length].
    + repeat split; try lia.
      * now rewrite <- app_assoc.
      * intros k n H. apply H4 in H. destruct H as [(n0 & H)|(r' & Hr' & Hf & He)].
        -- left. exists n0. unfold stats_step in H. cbn [ext_counts] in H.
           fold (is_folder_row r) in H. now rewrite Hk in H.
        -- right. exists r'. split; [now right | auto].
    + repeat split; try lia.
      * now rewrite <- app_assoc.
      * intros k n H. apply H4 in H. destruct H as [(n0 & H)|(r' & Hr' & Hf & He)].
        -- unfold stats_step in H. cbn [ext_counts] in H.
           fold (is_folder_row r) in H. rewrite Hk in H.
           assert (G : forall c, In (k, n0) (Counter.incr (Registry.ext r) c) ->
                                 k = Registry.ext r \/ exists n1, In (k, n1) c).
           { induction c as [|[k' n'] c IHc]; simpl.
             - intros [[= -> _]|[]]. now left.
             - destruct (String.eqb k' (Registry.ext r)) eqn:E.
               + intros [[= <- _]|Hin]; right; [exists n' | exists n0]; [now left | now right].
               + intros [[= <- <-]|Hin]; [right; exists n'; now left|].
                 destruct (IHc Hin) as [->|(n1 & Hn1)]; [now left|].
                 right. exists n1. now right. }
           destruct (G _ H) as [->|Hold]; [|now left].
           right. exists r. split; [now left | auto].
        -- right. exists r'. split; [now right | auto].
Qed.

Lemma insert_desc_In (x y : string * nat) (l : Counter.t) :
  In y (Counter.insert_desc x l) <-> y = x \/ In y l.
Proof.
  induction l as [|z l IH]; simpl.
  - split; intros [H|H]; auto.
  - destruct (Nat.ltb (snd z) (snd x)); simpl; [split; intros [H|H]; auto|].
    rewrite IH. split; intros H; intuition.
Qed.

Lemma sort_desc_In (y : string * nat) (c : Counter.t) :
  In y (Counter.sort_desc c) <-> In y c.
Proof.
  unfold Counter.sort_desc.
  assert (G : forall acc, In y (fold_left (fun acc x => Counter.insert_desc x acc) c acc)
                          <-> In y c \/ In y acc).
  { induction c as [|x c IH]; intros acc; simpl; [intuition|].
    rewrite IH, insert_desc_In. intuition. }
  rewrite G. simpl. intuition.
Qed.

Lemma startswith_app (a b : string) : startswith (a ++ b) a = true.
Proof. apply startswith_iff. now exists b. Qed.

Lemma startswith_refl (a : string) : startswith a a = true.
Proof. apply startswith_iff. exists "". induction a; simpl; congruence. Qed.

(** The summary that [_compute_folder_stats] writes reports the number
    of rows that are not folders as files and the number of folder rows
    as subfolders.  The stack is [Mixed], or names at most twelve
    technologies, each once and none empty, separated by commas; it is
    [Mixed] when no file row has an extension. *)
Theorem folder_stats_report_counts (rows : list Registry.row) (max_children : nat) :
  let nfolders := List.length (filter is_folder_row rows) in
  let nfiles := List.length (filter (fun r => negb (is_folder_row r)) rows) in
  let stats := _compute_folder_stats rows max_children in
  startswith (fst (fst stats))
    ("Folder with " ++ str_of_nat nfiles ++ " files and " ++ str_of_nat nfolders
     ++ " subfolders.") = true
  /\ nfiles + nfolders = List.length rows
  /\ (snd (fst stats) = "Mixed"
      \/ exists labels,
           snd (fst stats) = join ", " labels
           /\ labels <> [] /\ NoDup labels /\ List.length labels <= 12
           /\ forall lbl, In lbl labels -> lbl <> "")
  /\ snd (fst stats) <> ""
  /\ ((forall r, In r rows -> is_folder_row r = true \/ Registry.ext r = "") ->
      snd (fst stats) = "Mixed").
Proof.
  cbv zeta. unfold _compute_folder_stats.
  destruct (stats_fold rows (mk_acc 0 0 Counter.empty [] [])) as (H1 & H2 & _ & H4).
  cbn [file_count folder_count ext_counts] in H1, H2, H4.
  set (a := fold_left stats_step rows (mk_acc 0 0 Counter.empty [] [])) in *.
  cbn [fst snd]. rewrite H1, H2. cbn [Nat.add].
  split; [|split; [|split; [|split]]].
  - destruct (truthy _).
    + apply startswith_iff. eexists. rewrite !append_assoc. reflexivity.
    + apply startswith_refl.
  - clear. induction rows as [|r rows IH]; simpl; [reflexivity|].
    destruct (is_folder_row r); simpl; lia.
  - destruct (infer_stack_labels (ext_counts a)) as (Hnd & Hlen & Hne).
    destruct (_infer_stack_from_ext (ext_counts a)) as [|x l] eqn:E; [now left|].
    right. exists (x :: l). repeat split; try assumption. discriminate.
  - destruct (infer_stack_labels (ext_counts a)) as (_ & _ & Hne).
    destruct (_infer_stack_from_ext (ext_counts a)) as [|x l]; [discriminate|].
    assert (Hx : x <> "") by (apply Hne; now left).
    simpl. destruct l; [exact Hx|]. destruct x; [congruence | discriminate].
  - intros Hrows.
    assert (E : _infer_stack_from_ext (ext_counts a) = []).
    { unfold _infer_stack_from_ext.
      replace (flat_map _ (Counter.most_common 12 (ext_counts a))) with (@nil string);
        [reflexivity|].
      symmetry. apply flat_map_none. intros [k n] Hin.
      unfold Counter.most_common in Hin. apply In_firstn, sort_desc_In, H4 in Hin.
      destruct Hin as [(n0 & [])|(r & Hr & Hf & He)].
      destruct (Hrows r Hr) as [Hf'|Hext]; [congruence|].
      rewrite <- He, Hext. reflexivity. }
    now rewrite E.
Qed.

End AggregateFacts.

(* ================================================================== *)
(** * Further facts: stripped and cleaned texts, date clauses *)
(* ================================================================== *)

Module strip_facts.
Import pystr pystr_facts.

Lemma drop_while_head (f : ascii -> bool) (l : list ascii) : head_free f (drop_while f l).
Proof.
  induction l as [|c l IH]; simpl; [exact I|].
  destruct (f c) eqn:E; [exact IH | exact E].
Qed.

Lemma drop_while_fix (f : ascii -> bool) (l : list ascii) :
  head_free f l -> drop_while f l = l.
Proof.
  destruct l as [|c l]; simpl; [reflexivity|]. now intros ->.
Qed.

Lemma drop_while_split (f : ascii -> bool) (l : list ascii) :
  exists pre, l = (pre ++ drop_while f l)%list.
Proof.
  induction l as [|c l IH]; simpl; [now exists []|].
  destruct (f c); [|now exists []].
  destruct IH as [pre E]. exists (c :: pre). simpl. now rewrite <- E.
Qed.

Lemma drop_while_In (f : ascii -> bool) (l : list ascii) (c : ascii) :
  In c (drop_while f l) -> In c l.
Proof.
  destruct (drop_while_split f l) as [pre E]. intros H. rewrite E.
  apply in_or_app. now right.
Qed.

(** Dropping a prefix keeps the end of the list. *)
Lemma drop_while_keeps_end (f g : ascii -> bool) (l : list ascii) :
  head_free g (rev l) -> head_free g (rev (drop_while f l)).
Proof.
  destruct (drop_while_split f l) as [pre E]. intros H.
  rewrite E, rev_app_distr in H.
  destruct (rev (drop_while f l)); [exact I | exact H].
Qed.

Lemma strip_is (s : string) : strip s = str (strip_chars (chars s)).
Proof. reflexivity. Qed.

Lemma strip_chars_ends (l : list ascii) :
  head_free is_space (strip_chars l) /\ head_free is_space (rev (strip_chars l)).
Proof.
  unfold strip_chars. split; [apply drop_while_head|].
  apply drop_while_keeps_end. rewrite rev_involutive. apply drop_while_head.
Qed.

Lemma strip_chars_fix (l : list ascii) :
  head_free is_space l -> head_free is_space (rev l) -> strip_chars l = l.
Proof.
  intros H1 H2. unfold strip_chars.
  rewrite (drop_while_fix _ (rev l) H2), rev_involutive. now apply drop_while_fix.
Qed.

Lemma strip_chars_In (l : list ascii) (c : ascii) : In c (strip_chars l) -> In c l.
Proof.
  unfold strip_chars. intros H. apply drop_while_In, in_rev, drop_while_In, in_rev in H.
  exact H.
Qed.

Lemma strip_idempotent (s : string) : strip (strip s) = strip s.
Proof.
  rewrite !strip_is, chars_str. f_equal.
  destruct (strip_chars_ends (chars s)). now apply strip_chars_fix.
Qed.

End strip_facts.

Section CleanString.
Context {ai_host : AiHost}.
Import pystr pystr_facts strip_facts.

Lemma contains_chars_absent (c : ascii) (l : list ascii) :
  ~ In c l -> contains_chars [c] l = false.
Proof.
  induction l as [|d l IH]; intros H; simpl; [reflexivity|].
  rewrite IH by (intros Hin; apply H; now right).
  destruct (Ascii.eqb c d) eqn:E; [|reflexivity].
  apply Ascii.eqb_eq in E. subst. exfalso. apply H. now left.
Qed.

(** What [clean_string] returns consists of word characters and
    whitespace, with no whitespace at either end, and is left as it is
    when it is cleaned again.  So a fallback filter holds no colon. *)
Theorem clean_string_is_plain (s : string) :
  (forall c, In c (chars (clean_string s)) -> plain_char c = true)
  /\ strip (clean_string s) = clean_string s
  /\ clean_string (clean_string s) = clean_string s
  /\ contains ":" (clean_string s) = false.
Proof.
  assert (Hplain : forall c, In c (chars (clean_string s)) -> plain_char c = true).
  { unfold clean_string. destruct (truthy s); simpl; [|contradiction].
    intros c Hc. rewrite strip_is, !chars_str in Hc.
    apply strip_chars_In, in_map_iff in Hc. destruct Hc as (d & <- & _).
    fold (plain_char d). destruct (plain_char d) eqn:E; [exact E | reflexivity]. }
  assert (Hstrip : strip (clean_string s) = clean_string s).
  { unfold clean_string. destruct (truthy s); simpl; [|reflexivity].
    apply strip_idempotent. }
  split; [exact Hplain|]. split; [exact Hstrip|]. split.
  - unfold clean_string at 1. destruct (truthy (clean_string s)) eqn:E; simpl.
    + rewrite <- Hstrip at 2. f_equal. rewrite <- (str_chars (clean_string s)) at 2.
      f_equal. rewrite <- (map_id (chars (clean_string s))) at 2.
      apply map_ext_in. intros c Hc. apply Hplain in Hc. unfold plain_char in Hc.
      now rewrite Hc.
    + unfold truthy in E. apply negb_false_iff, String.eqb_eq in E. now rewrite E.
  - unfold contains. apply contains_chars_absent. intros Hin. now apply Hplain in Hin.
Qed.






End CleanString.

Example year_beyond_the_twenties_is_no_time_word :
  @date_parts ai_down 0 (mkIntent (Some "2031") None None) "reports 2031" = []
  /\ @date_parts ai_down 0 (mkIntent (Some "march 3") None None) "reports 2024"
     = [date_clause "2024"].
Proof. split; reflexivity. Qed.

(* ================================================================== *)
(** * Further facts: folder listings and the files without a summary *)
(* ================================================================== *)

Module order_facts.

Lemma ascii_compare_trans (a b c : ascii) :
  Ascii.compare a b = Lt -> Ascii.compare b c = Lt -> Ascii.compare a c = Lt.
Proof.
  unfold Ascii.compare. rewrite !N.compare_lt_iff. apply N.lt_trans.
Qed.

Lemma compare_trans (a : string) :
  forall b c, String.compare a b = Lt -> String.compare b c = Lt -> String.compare a c = Lt.
Proof.
  induction a as [|x a IH]; intros [|y b] [|z c]; simpl; try discriminate; auto.
  destruct (Ascii.compare x y) eqn:Exy; try discriminate.
  - apply Ascii.compare_eq_iff in Exy. subst y.
    destruct (Ascii.compare x z); try discriminate; auto. apply IH.
  - intros _. destruct (Ascii.compare y z) eqn:Eyz; try discriminate.
    + apply Ascii.compare_eq_iff in Eyz. subst z. now rewrite Exy.
    + now rewrite (ascii_compare_trans _ _ _ Exy Eyz).
Qed.

Lemma ltb_trans (a b c : string) :
  String.ltb a b = true -> String.ltb b c = true -> String.ltb a c = true.
Proof.
  unfold String.ltb. intros H1 H2.
  destruct (String.compare a b) eqn:E1; try discriminate.
  destruct (String.compare b c) eqn:E2; try discriminate.
  now rewrite (compare_trans _ _ _ E1 E2).
Qed.

Lemma ltb_total (a b : string) :
  String.ltb a b = true \/ a = b \/ String.ltb b a = true.
Proof.
  unfold String.ltb. rewrite (String.compare_antisym b a).
  destruct (String.compare a b) eqn:E; simpl; auto.
  right. left. now apply String.compare_eq_iff.
Qed.

Lemma ltb_irrefl (a : string) : String.ltb a a = false.
Proof.
  unfold String.ltb. pose proof (String.compare_antisym a a) as H.
  destruct (String.compare a a); simpl in H; try discriminate; reflexivity.
Qed.

Lemma key_ltb_trans (a b c : nat * string) :
  key_ltb a b = true -> key_ltb b c = true -> key_ltb a c = true.
Proof.
  unfold key_ltb. rewrite !orb_true_iff, !andb_true_iff, !Nat.ltb_lt, !Nat.eqb_eq.
  intros [H1|[H1 S1]] [H2|[H2 S2]].
  - left. lia.
  - left. lia.
  - left. lia.
  - right. split; [lia|]. eapply ltb_trans; eassumption.
Qed.

Lemma key_ltb_total (a b : nat * string) :
  key_ltb a b = true \/ a = b \/ key_ltb b a = true.
Proof.
  unfold key_ltb. destruct a as [m s], b as [n t]. simpl.
  rewrite !orb_true_iff, !andb_true_iff, !Nat.ltb_lt, !Nat.eqb_eq.
  destruct (Nat.lt_total m n) as [H|[H|H]]; auto.
  subst n. destruct (ltb_total s t) as [H|[H|H]]; auto. subst t. auto.
Qed.

Lemma key_ltb_irrefl (a : nat * string) : key_ltb a a = false.
Proof.
  unfold key_ltb. now rewrite Nat.ltb_irrefl, ltb_irrefl, andb_false_r.
Qed.

Lemma key_ltb_asym (a b : nat * string) : key_ltb a b = true -> key_ltb b a = false.
Proof.
  intros H. destruct (key_ltb b a) eqn:E; [|reflexivity].
  pose proof (key_ltb_trans _ _ _ H E) as T. now rewrite key_ltb_irrefl in T.
Qed.

Lemma key_le_trans (a b c : FolderEntry.t) : key_le a b -> key_le b c -> key_le a c.
Proof.
  unfold key_le. intros H1 H2.
  destruct (key_ltb (entry_key c) (entry_key a)) eqn:E; [|reflexivity].
  destruct (key_ltb_total (entry_key a) (entry_key b)) as [H|[H|H]].
  - now rewrite (key_ltb_trans _ _ _ E H) in H2.
  - rewrite H in E. congruence.
  - congruence.
Qed.

End order_facts.

Section FolderListingFacts.
Context {host : Host}.
Import pystr pystr_facts order_facts.

Lemma insert_by_key_perm (x : FolderEntry.t) (l : list FolderEntry.t) :
  Permutation (insert_by_key x l) (x :: l).
Proof.
  induction l as [|y l IH]; simpl; [reflexivity|].
  destruct (key_ltb (entry_key x) (entry_key y)); [reflexivity|].
  rewrite IH. apply perm_swap.
Qed.

Lemma sorted_by_key_perm (l : list FolderEntry.t) : Permutation (sorted_by_key l) l.
Proof.
  unfold sorted_by_key.
  assert (G : forall acc, Permutation (fold_left (fun acc x => insert_by_key x acc) l acc)
                                      (l ++ acc)%list).
  { induction l as [|x l IH]; intros acc; simpl; [reflexivity|].
    rewrite IH, insert_by_key_perm. symmetry. apply Permutation_middle. }
  rewrite G. now rewrite app_nil_r.
Qed.

Lemma insert_by_key_sorted (x : FolderEntry.t) (l : list FolderEntry.t) :
  StronglySorted key_le l -> StronglySorted key_le (insert_by_key x l).
Proof.
  induction 1 as [|y l Hl IH Hy]; simpl; [repeat constructor|].
  destruct (key_ltb (entry_key x) (entry_key y)) eqn:E.
  - constructor; [now constructor|].
    assert (Hxy : key_le x y) by now apply key_ltb_asym.
    constructor; [exact Hxy|].
    eapply Forall_impl; [|exact Hy]. intros z Hz. eapply key_le_trans; eassumption.
  - constructor; [exact IH|].
    apply Forall_forall. intros z Hz.
    apply (Permutation_in _ (insert_by_key_perm x l)) in Hz.
    destruct Hz as [<-|Hz]; [exact E|].
    rewrite Forall_forall in Hy. now apply Hy.
Qed.

Lemma sorted_by_key_sorted (l : list FolderEntry.t) : StronglySorted key_le (sorted_by_key l).
Proof.
  unfold sorted_by_key.
  assert (G : forall acc, StronglySorted key_le acc ->
                          StronglySorted key_le
                            (fold_left (fun acc x => insert_by_key x acc) l acc)).
  { induction l as [|x l IH]; intros acc Hacc; simpl; [exact Hacc|].
    apply IH. now apply insert_by_key_sorted. }
  apply G. constructor.
Qed.

Lemma rstrip_char_split (c : ascii) (s : string) :
  exists k, s = rstrip_char c s ++ str (repeat c k).
Proof.
  unfold rstrip_char.
  assert (G : forall l, exists k, l = (repeat c k ++ drop_while (Ascii.eqb c) l)%list).
  { induction l as [|d l IH]; simpl; [now exists 0|].
    destruct (Ascii.eqb c d) eqn:E; [|now exists 0].
    apply Ascii.eqb_eq in E. subst d. destruct IH as [k Hk]. exists (S k). simpl.
    now rewrite <- Hk. }
  destruct (G (rev (chars s))) as [k Hk]. exists k.
  rewrite <- str_app. rewrite <- (str_chars s) at 1. f_equal.
  rewrite <- (rev_involutive (chars s)) at 1. rewrite Hk at 1.
  rewrite rev_app_distr. f_equal. clear.
  induction k as [|k IH]; simpl; [reflexivity|].
  rewrite IH. clear. induction k as [|k IH]; simpl; [reflexivity|]. now rewrite <- IH.
Qed.

Lemma contains_repeat_sep (k : nat) :
  0 < k -> contains posixpath.sep (str (repeat posixpath.sep_char k)) = true.
Proof.
  destruct k as [|k]; [lia|]. intros _. reflexivity.
Qed.

Lemma slice_from_app (a b : string) : slice_from (len a) (a ++ b) = b.
Proof.
  unfold slice_from. rewrite chars_app, len_chars, skipn_app, skipn_all, Nat.sub_diag.
  simpl. apply str_chars.
Qed.

Lemma string_app_inv_head (a b c : string) : a ++ b = a ++ c -> b = c.
Proof.
  intros H. apply chars_inj. apply (f_equal chars) in H. rewrite !chars_app in H.
  now apply app_inv_head in H.
Qed.

(** A row that passes the prefix test and the test of the loop is not
    the folder itself. *)
Lemma listed_is_not_folder (fp : string) (r : Registry.row) :
  startswith (Registry.path r) (child_base fp) = true ->
  is_listed (child_base fp) r = true ->
  Registry.path r <> fp.
Proof.
  unfold is_listed. intros Hpre Hl E. apply andb_true_iff in Hl. destruct Hl as [Ht Hc].
  apply startswith_iff in Hpre. destruct Hpre as [rest Hrest].
  rewrite Hrest, slice_from_app in Ht, Hc.
  destruct (rstrip_char_split posixpath.sep_char fp) as [k Hk].
  rewrite E in Hrest. unfold child_base in Hrest. rewrite append_assoc in Hrest.
  rewrite Hk in Hrest at 1. apply string_app_inv_head in Hrest.
  destruct k as [|k]; [discriminate|].
  cbn [repeat] in Hrest. change (str (posixpath.sep_char :: repeat posixpath.sep_char k))
    with (posixpath.sep ++ str (repeat posixpath.sep_char k)) in Hrest.
  apply (string_app_inv_head posixpath.sep) in Hrest. subst rest.
  destruct k as [|k]; [discriminate|].
  rewrite contains_repeat_sep in Hc by lia. discriminate.
Qed.

(** [list_folder_children] always returns its entries with the folders
    first and, within the folders and within the files, in the order of
    their lower-cased names.  When the [LIKE] test of its query is the
    prefix test on the paths of the Registry, the entries are those of
    the direct children of the folder, each once. *)
Theorem list_folder_children_sorted (db : Database) (folder_path : string) :
  StronglySorted key_le (list_folder_children db folder_path)
  /\ ((forall r, In r (files db) ->
                 sql.like (Registry.path r) (child_base (abspath folder_path) ++ "%")
                 = startswith (Registry.path r) (child_base (abspath folder_path))) ->
      Permutation (list_folder_children db folder_path)
                  (map entry_of (direct_children db (abspath folder_path)))).
Proof.
  unfold list_folder_children. fold (child_base (abspath folder_path)).
  set (fp := abspath folder_path) in *.
  split; [apply sorted_by_key_sorted|]. intros Hlike.
  rewrite sorted_by_key_perm. apply Permutation_map.
  replace (filter (is_listed (child_base fp)) _) with (direct_children db fp); [reflexivity|].
  unfold direct_children. rewrite filter_filter_and.
  apply filter_ext_in. intros r Hr. rewrite (Hlike r Hr).
  unfold is_direct_child, is_descendant.
  destruct (startswith (Registry.path r) (child_base fp)) eqn:Hpre; [|reflexivity].
  fold (is_listed (child_base fp) r). cbn [andb].
  destruct (is_listed (child_base fp) r) eqn:Hl.
  - pose proof (listed_is_not_folder fp r Hpre Hl) as Hne.
    apply String.eqb_neq in Hne. rewrite Hne. unfold is_listed in Hl.
    apply andb_true_iff in Hl. destruct Hl as [-> ->]. reflexivity.
  - unfold is_listed in Hl. destruct (negb (Registry.path r =? fp)); [|reflexivity].
    cbn [andb]. exact Hl.
Qed.

(** A file whose summary was saved with a text that is not empty is no
    longer reported by [get_unsummarized_files]; the other paths are
    reported as before, in the same order. *)
Theorem summarized_file_leaves_the_queue (path new_summary : string) (w : World) :
  truthy new_summary = true ->
  fst (update_summary path new_summary w) = Val tt ->
  get_unsummarized_files (disk (snd (update_summary path new_summary w)))
  = filter (fun p => negb (String.eqb p path)) (get_unsummarized_files (disk w)).
Proof.
  intros Hs.
  destruct (update_summary_run path new_summary w) as (r & n' & ->).
  cbn [fst snd disk]. intros ->.
  unfold get_unsummarized_files, update_summary_effect, sql.update_files_summary.
  cbn [files]. fold unsummarized.
  induction (files (disk w)) as [|x t IH]; cbn [map filter]; [reflexivity|].
  assert (Hdone : forall y, unsummarized
                    (Registry.mk (Registry.path y) (Registry.kind y) (Registry.ext y)
                       (Registry.last_modified y) (Registry.creation_time y)
                       (Registry.size y) (Registry.indexed_at y) (Some new_summary)
                       (Registry.tech_stack y)) = false).
  { intros y. unfold unsummarized. cbn [Registry.kind Registry.summary].
    unfold truthy in Hs. apply negb_true_iff in Hs. now rewrite Hs, andb_false_r. }
  destruct (String.eqb (Registry.path x) path) eqn:E.
  - rewrite Hdone, IH. destruct (unsummarized x); cbn [map filter]; [|reflexivity].
    now rewrite E.
  - destruct (unsummarized x); cbn [map filter]; [|exact IH].
    rewrite E. cbn [negb]. now rewrite IH.
Qed.

End FolderListingFacts.

Lemma summarized_file_leaves_the_queue_witness :
  get_unsummarized_files notes_db = ["/A/sub/notes.txt"]
  /\ get_unsummarized_files
       (disk (snd (@update_summary utc_host "/A/sub/notes.txt" "Meeting notes"
                     (mkWorld notes_db 0))))
     = filter (fun p => negb (String.eqb p "/A/sub/notes.txt"))
              (get_unsummarized_files notes_db).
Proof.
  split; [reflexivity|].
  apply (@summarized_file_leaves_the_queue utc_host "/A/sub/notes.txt" "Meeting notes"
           (mkWorld notes_db 0)); reflexivity.
Defined.

Lemma list_folder_children_sorted_witness :
  map FolderEntry.path (@list_folder_children utc_host listing_db "/D")
  = ["/D/zeta"; "/D/a.md"; "/D/B.txt"]
  /\ StronglySorted key_le (@list_folder_children utc_host listing_db "/D")
  /\ Permutation (@list_folder_children utc_host listing_db "/D")
                 (map entry_of (direct_children listing_db (@abspath utc_host "/D"))).
Proof.
  split; [reflexivity|].
  destruct (@list_folder_children_sorted utc_host listing_db "/D") as [Hsorted Hperm].
  split; [exact Hsorted|]. apply Hperm.
  intros r [<-|[<-|[<-|[<-|[<-|[]]]]]]; reflexivity.
Defined.

(* ================================================================== *)
(** * Further facts: what a scan keeps and what it registers *)
(* ================================================================== *)

Section ScanInvariants.
Context {host : Host}.
Import pystr pystr_facts.

Lemma add_index_root_run (root_path : string) (w : World) :
  exists r n',
    add_index_root root_path w
    = (r, mkWorld (match r with
                   | Val _ =>
                       set_index_roots
                         (sql.replace_into_index_roots
                            (IndexRoot.mk (abspath root_path) (time_now (attempts w))))
                         (disk w)
                   | Raise => disk w
                   end) n').
Proof.
  unfold add_index_root. run_proc.
  split_outcomes;
    first [ exists (Val tt); eexists; reflexivity | exists Raise; eexists; reflexivity ].
Qed.

Variable I : Database -> Prop.

Lemma process_file_keeps (path : string) (node : FileNode) (w : World) :
  (readable node = true -> kept_by_file_upsert I (abspath path)) ->
  I (disk w) -> I (disk (snd (process_file path node w))).
Proof.
  intros Hk Hw. unfold process_file, readable, try_except, bind, of_option, ret, raise in *.
  destruct (file_stat node) as [st|]; [|exact Hw].
  destruct (file_text node) as [text|]; [|exact Hw].
  destruct (insert_file_run (abspath path) text (st_mtime st) (st_created st) (st_size st) w)
    as [n' ->].
  destruct (upsert_succeeds _ _ _); cbn [snd disk]; [|exact Hw].
  now apply Hk.
Qed.

Lemma index_files_keeps (root : string) (fs : list (string * FileNode)) :
  (forall e, In e fs -> eligible e = true -> readable (snd e) = true ->
             kept_by_file_upsert I (abspath (posixpath.join root (fst e)))) ->
  forall count w, I (disk w) -> I (disk (snd (index_files root fs count w))).
Proof.
  induction fs as [|[file node] fs IH]; intros Hk count w Hw; [exact Hw|].
  assert (Hk' : forall e, In e fs -> eligible e = true -> readable (snd e) = true ->
                          kept_by_file_upsert I (abspath (posixpath.join root (fst e))))
    by (intros e He; apply Hk; now right).
  specialize (Hk (file, node) (or_introl eq_refl)). unfold eligible in Hk. cbn [fst snd] in Hk.
  cbn [index_files].
  destruct (startswith file "."); cbn [negb andb] in *; [now apply IH|].
  destruct (mem (lower (posixpath.splitext_ext file)) SUPPORTED_EXTS);
    cbn [negb andb] in *; [|now apply IH].
  unfold bind.
  pose proof (process_file_keeps (posixpath.join root file) node w (Hk eq_refl) Hw) as H1.
  destruct (process_file_run (posixpath.join root file) node w) as [w1 E].
  rewrite E in *. cbn [snd] in H1. now apply IH.
Qed.

Lemma index_dirs_keeps (visited : list (string * option Stat * list (string * FileNode))) :
  (forall d, In d visited -> snd (fst d) <> None -> kept_by_folder_upsert I (abspath (fst (fst d)))) ->
  (forall d e, In d visited -> In e (snd d) -> eligible e = true -> readable (snd e) = true ->
               kept_by_file_upsert I (abspath (posixpath.join (fst (fst d)) (fst e)))) ->
  forall count folders_seen w,
    I (disk w) -> I (disk (snd (index_dirs visited count folders_seen w))).
Proof.
  induction visited as [|[[root st] fs] visited IH]; intros Hd Hf count seen w Hw; [exact Hw|].
  cbn [index_dirs]. unfold bind at 1.
  set (step := try_except _ _).
  assert (H1 : exists fs1 w1, step w = (Val fs1, w1) /\ I (disk w1)).
  { unfold step, try_except, bind, of_option, ret, raise.
    destruct st as [stats|]; [|now exists seen, w].
    destruct (insert_folder_run (abspath root) (st_mtime stats) (st_created stats) w)
      as [n' ->].
    destruct (upsert_succeeds _ _ _); eexists; eexists; (split; [reflexivity|]);
      cbn [disk]; [|exact Hw].
    apply (Hd (root, Some stats, fs)); [now left | discriminate | exact Hw]. }
  destruct H1 as (fs1 & w1 & -> & Hw1).
  unfold bind at 1.
  pose proof (index_files_keeps root fs
                (fun e He => Hf (root, st, fs) e (or_introl eq_refl) He) count w1 Hw1) as H2.
  destruct (index_files_run root fs count w1) as [w2 E]. rewrite E in *. cbn [snd] in H2.
  apply IH; [| |exact H2].
  - intros d Hin. apply Hd. now right.
  - intros d e Hin. apply Hf. now right.
Qed.

Lemma aggregates_keep (l : list string) :
  kept_by_aggregate I ->
  forall w, I (disk w) ->
    I (disk (snd (for_each l (fun folder => try_except (update_folder_aggregate folder 60)
                                              (ret tt)) w))).
Proof.
  intros Hk. induction l as [|x l IH]; intros w Hw; [exact Hw|].
  cbn [for_each]. unfold bind, try_except at 1.
  destruct (update_folder_aggregate_run x 60 w) as (r & n' & ->).
  destruct r as [[]|]; apply IH; cbn [disk]; [now apply Hk | exact Hw].
Qed.

(** A property of the store that withstands the four kinds of writes
    of a scan holds after the scan, however the scan ends. *)
Lemma scan_directory_keeps (root_path : string) (fs : DirNode) (w : World) :
  kept_by_roots I -> kept_by_aggregate I ->
  (forall d, In d (walk (abspath root_path) fs) -> snd (fst d) <> None ->
             kept_by_folder_upsert I (abspath (fst (fst d)))) ->
  (forall d e, In d (walk (abspath root_path) fs) -> In e (snd d) ->
               eligible e = true -> readable (snd e) = true ->
               kept_by_file_upsert I (abspath (posixpath.join (fst (fst d)) (fst e)))) ->
  I (disk w) -> I (disk (snd (scan_directory root_path fs w))).
Proof.
  intros Hr Ha Hd Hf Hw. unfold scan_directory. unfold bind at 1.
  destruct (add_index_root_run (abspath root_path) w) as (r & n' & ->).
  destruct r as [[]|]; [|exact Hw].
  set (w0 := mkWorld _ n').
  assert (Hw0 : I (disk w0)) by (apply Hr, Hw).
  unfold bind at 1.
  pose proof (index_dirs_keeps _ Hd Hf 0 [] w0 Hw0) as H1.
  destruct (index_dirs_run (walk (abspath root_path) fs) 0 [] w0) as (seen & w1 & E).
  rewrite E in *. cbn [snd] in H1. cbv beta iota. unfold bind at 1.
  pose proof (aggregates_keep (sorted_by_len_desc seen) Ha w1 H1) as H2.
  destruct (for_each_guarded_run (fun folder => update_folder_aggregate folder 60)
              (sorted_by_len_desc seen) w1) as [w2 E2].
  rewrite E2 in *. exact H2.
Qed.

End ScanInvariants.

Section ScanTheorems.
Context {host : Host}.
Import pystr pystr_facts.

(** A scan keeps the Registry and the Content Index paired, whatever
    fails on the way. *)
Theorem scan_directory_keeps_pairing (root_path : string) (fs : DirNode) (w : World) :
  consistent (disk w) -> consistent (disk (snd (scan_directory root_path fs w))).
Proof.
  apply scan_directory_keeps.
  - intros f db H. exact H.
  - intros folder n db. apply folder_aggregate_effect_consistent.
  - intros d _ _ lm ct now c m db. apply upsert_effect_consistent.
  - intros d e _ _ _ _ content lm ct size now c m db. apply upsert_effect_consistent.
Qed.

(** A scan registers nothing else: every path of the Registry after a
    scan was in it before, or is a visited directory, or is a file of a
    visited directory whose name does not start with a dot, whose
    extension is supported and which could be stat'ed and read. *)
Theorem scan_directory_registers_only_scanned_paths
    (root_path : string) (fs : DirNode) (w : World) (r : Registry.row) :
  In r (files (disk (snd (scan_directory root_path fs w)))) ->
  In (Registry.path r) (map Registry.path (files (disk w)))
  \/ scanned_path root_path fs (Registry.path r).
Proof.
  revert r.
  apply (scan_directory_keeps
           (fun db => forall r, In r (files db) ->
                                In (Registry.path r) (map Registry.path (files (disk w)))
                                \/ scanned_path root_path fs (Registry.path r))).
  - intros f db H. exact H.
  - intros folder n db H r Hr. unfold folder_aggregate_effect in Hr. cbn [files] in Hr.
    apply in_map_iff in Hr. destruct Hr as (x & <- & Hx).
    destruct (String.eqb (Registry.path x) (abspath folder)); apply (H x Hx).
  - intros d Hd _ lm ct now c m db H r Hr. unfold upsert_effect in Hr. cbn [files] in Hr.
    apply sql_facts.In_replace_into_files in Hr. destruct Hr as [->|[Hr _]]; [|now apply H].
    right. left. now exists d.
  - intros d e Hd He Hel Hre content lm ct size now c m db H r Hr.
    unfold upsert_effect in Hr. cbn [files] in Hr.
    apply sql_facts.In_replace_into_files in Hr. destruct Hr as [->|[Hr _]]; [|now apply H].
    right. right. now exists d, e.
  - intros r Hr. left. now apply in_map.
Qed.




Section NoFaults.
Hypothesis no_faults : forall n, write_refused n = false.





End NoFaults.

End ScanTheorems.

(* ================================================================== *)
(** * Further facts: normalised paths *)
(* ================================================================== *)

Module normal_facts.
Import pystr pystr_facts posixpath normal.

Lemma forallb_rev {A} (f : A -> bool) (l : list A) : forallb f (rev l) = forallb f l.
Proof.
  induction l as [|x l IH]; simpl; [reflexivity|].
  rewrite forallb_app, IH. simpl. rewrite andb_true_r. apply andb_comm.
Qed.

Lemma is_sep_sym (d : ascii) : Ascii.eqb sep_char d = is_sep d.
Proof. unfold is_sep. apply Ascii.eqb_sym. Qed.

Lemma split_chars_sep_free (x : list ascii) :
  forallb (fun ch => negb (is_sep ch)) x = true ->
  forall cur, split_chars sep_char cur x = [str (rev cur ++ x)].
Proof.
  induction x as [|a x IH]; intros Hx cur; cbn [split_chars app].
  - now rewrite app_nil_r.
  - cbn [forallb] in Hx. apply andb_true_iff in Hx. destruct Hx as [Ha Hx].
    rewrite is_sep_sym. apply negb_true_iff in Ha. rewrite Ha.
    rewrite (IH Hx). cbn [rev]. now rewrite <- app_assoc.
Qed.

Lemma split_chars_app (x rest : list ascii) :
  forallb (fun ch => negb (is_sep ch)) x = true ->
  forall cur,
    split_chars sep_char cur (x ++ sep_char :: rest)
    = str (rev cur ++ x) :: split_chars sep_char [] rest.
Proof.
  induction x as [|a x IH]; intros Hx cur; cbn [split_chars app].
  - rewrite Ascii.eqb_refl. now rewrite app_nil_r.
  - cbn [forallb] in Hx. apply andb_true_iff in Hx. destruct Hx as [Ha Hx].
    rewrite is_sep_sym. apply negb_true_iff in Ha. rewrite Ha.
    rewrite (IH Hx). cbn [rev]. now rewrite <- app_assoc.
Qed.

Lemma split_chars_elements (l : list ascii) :
  forall cur x,
    forallb (fun ch => negb (is_sep ch)) cur = true ->
    In x (split_chars sep_char cur l) -> sep_free x = true.
Proof.
  induction l as [|d l IH]; intros cur x Hcur; cbn [split_chars].
  - intros [<-|[]]. unfold sep_free. rewrite chars_str, forallb_rev. exact Hcur.
  - rewrite is_sep_sym. destruct (is_sep d) eqn:Hd.
    + intros [<-|H].
      * unfold sep_free. rewrite chars_str, forallb_rev. exact Hcur.
      * now apply (IH [] x).
    + apply IH. cbn [forallb]. now rewrite Hd.
Qed.

Lemma chars_join_cons (x y : string) (l : list string) :
  chars (pystr.join sep (x :: y :: l))
  = (chars x ++ sep_char :: chars (pystr.join sep (y :: l)))%list.
Proof.
  cbn [pystr.join]. now rewrite chars_app.
Qed.

Lemma clean_comp_sep_free (c : string) : clean_comp c = true -> sep_free c = true.
Proof. unfold clean_comp. intros H. now apply andb_true_iff in H. Qed.

Lemma split_join (comps : list string) :
  forallb clean_comp comps = true -> comps <> [] ->
  forall cur,
    split_chars sep_char cur (chars (pystr.join sep comps))
    = match comps with
      | [] => []
      | x :: rest => str (rev cur ++ chars x) :: rest
      end.
Proof.
  induction comps as [|x comps IH]; intros Hc Hne cur; [congruence|].
  simpl in Hc. apply andb_true_iff in Hc. destruct Hc as [Hx Hc].
  apply clean_comp_sep_free in Hx. unfold sep_free in Hx.
  destruct comps as [|y comps].
  - cbn [pystr.join]. now apply split_chars_sep_free.
  - rewrite chars_join_cons, (split_chars_app _ _ Hx). f_equal.
    rewrite (IH Hc) by discriminate. simpl. f_equal. apply str_chars.
Qed.

Lemma norm_comps_clean (init : nat) (comps : list string) :
  forallb clean_comp comps = true ->
  forall acc, norm_comps init comps acc = (acc ++ comps)%list.
Proof.
  induction comps as [|c comps IH]; intros Hc acc; simpl; [now rewrite app_nil_r|].
  simpl in Hc. apply andb_true_iff in Hc. destruct Hc as [Hx Hc].
  unfold clean_comp in Hx. rewrite !andb_true_iff, !negb_true_iff in Hx.
  destruct Hx as [[[Ht Hdot] Hdd] _].
  assert (He : String.eqb c "" = false).
  { unfold truthy in Ht. now apply negb_true_iff in Ht. }
  rewrite He, Hdot, Hdd. simpl. rewrite (IH Hc). now rewrite <- app_assoc.
Qed.

Lemma norm_comps_skip (init k : nat) (comps acc : list string) :
  norm_comps init (repeat "" k ++ comps) acc = norm_comps init comps acc.
Proof. induction k as [|k IH]; simpl; [reflexivity | exact IH]. Qed.

Lemma forallb_removelast {A} (f : A -> bool) (l : list A) :
  forallb f l = true -> forallb f (removelast l) = true.
Proof.
  induction l as [|x l IH]; simpl; [reflexivity|].
  intros H. apply andb_true_iff in H. destruct H as [Hx Hl].
  destruct l; [reflexivity|]. simpl. rewrite Hx. now apply IH.
Qed.

Lemma clean_last (acc : list string) :
  forallb clean_comp acc = true ->
  match acc with [] => false | _ => String.eqb (last acc "") ".." end = false.
Proof.
  destruct acc as [|a acc]; [reflexivity|]. intros H.
  assert (Hl : clean_comp (last (a :: acc) "") = true).
  { rewrite forallb_forall in H. apply H.
    destruct (exists_last (l := a :: acc)) as (l' & z & E); [discriminate|].
    rewrite E, last_last. apply in_or_app. right. now left. }
  unfold clean_comp in Hl. rewrite !andb_true_iff, !negb_true_iff in Hl. tauto.
Qed.

(** With a leading separator, the component loop yields clean
    components from sep-free ones. *)
Lemma norm_comps_yields_clean (init : nat) (comps : list string) :
  init <> 0 ->
  (forall c, In c comps -> sep_free c = true) ->
  forall acc, forallb clean_comp acc = true ->
              forallb clean_comp (norm_comps init comps acc) = true.
Proof.
  intros Hinit. induction comps as [|c comps IH]; intros Hc acc Hacc; simpl; [exact Hacc|].
  assert (Hc' : forall c', In c' comps -> sep_free c' = true)
    by (intros c' H; apply Hc; now right).
  destruct (String.eqb c "" || String.eqb c ".") eqn:E1; [now apply IH|].
  apply orb_false_iff in E1. destruct E1 as [Hemp Hdot].
  destruct (String.eqb c "..") eqn:Hdd; cbn [negb orb].
  - apply Nat.eqb_neq in Hinit. rewrite Hinit. cbn [andb orb].
    rewrite (clean_last acc Hacc). apply IH; [exact Hc'|].
    now apply forallb_removelast.
  - apply IH; [exact Hc'|]. rewrite forallb_app, Hacc. simpl.
    unfold clean_comp, truthy. rewrite Hemp, Hdot, Hdd. simpl.
    rewrite (Hc c) by now left. reflexivity.
Qed.

Lemma clean_comp_head (c : string) :
  clean_comp c = true -> exists a rest, c = String a rest /\ is_sep a = false.
Proof.
  unfold clean_comp, sep_free. rewrite !andb_true_iff. intros [[[Ht _] _] Hs].
  destruct c as [|a rest]; [discriminate|]. exists a, rest. split; [reflexivity|].
  cbn [chars list_ascii_of_string forallb] in Hs. apply andb_true_iff in Hs.
  now apply negb_true_iff.
Qed.

Lemma join_head_free (comps : list string) :
  forallb clean_comp comps = true ->
  head_free is_sep (chars (pystr.join sep comps)).
Proof.
  destruct comps as [|x rest]; [intros _; exact I|].
  cbn [forallb]. intros H. apply andb_true_iff in H. destruct H as [Hx _].
  destruct (clean_comp_head x Hx) as (a & x' & -> & Ha).
  destruct rest; exact Ha.
Qed.

Lemma split_of_joined (comps : list string) :
  forallb clean_comp comps = true ->
  forall init, norm_comps init (split_chars sep_char [] (chars (pystr.join sep comps))) []
               = comps.
Proof.
  intros Hc init. destruct comps as [|x rest].
  - reflexivity.
  - rewrite (split_join _ Hc) by discriminate. cbn [rev app].
    rewrite str_chars. now rewrite (norm_comps_clean _ _ Hc).
Qed.

Lemma starts_sep_head_free (l : list ascii) :
  head_free is_sep l -> starts [sep_char] l = false.
Proof.
  destruct l as [|b l]; [reflexivity|]. cbn [head_free starts].
  intros H. rewrite andb_true_r. rewrite <- H. apply is_sep_sym.
Qed.

(** [normpath] leaves a normalised path as it is. *)
Lemma normpath_of_normal (p : string) : normal_path p -> normpath p = p.
Proof.
  intros (init & comps & Hinit & Hc & ->).
  pose proof (join_head_free comps Hc) as Hj.
  pose proof (split_of_joined comps Hc) as Hs.
  set (j := pystr.join sep comps) in *.
  destruct Hinit as [->| ->]; unfold normpath.
  - change (str (repeat sep_char 1) ++ j) with (String sep_char j).
    cbn [truthy String.eqb negb].
    assert (E1 : startswith (String sep_char j) "/" = true) by reflexivity.
    assert (E2 : startswith (String sep_char j) "//" = false).
    { change (startswith (String sep_char j) "//") with (starts [sep_char] (chars j)).
      apply (starts_sep_head_free _ Hj). }
    rewrite E1, E2. cbn [andb].
    unfold split. cbn [chars list_ascii_of_string split_chars]. rewrite Ascii.eqb_refl.
    cbn [rev str string_of_list_ascii].
    change ("" :: ?l) with (repeat "" 1 ++ l)%list.
    rewrite norm_comps_skip. fold (chars j). rewrite Hs. fold j.
    reflexivity.
  - change (str (repeat sep_char 2) ++ j) with (String sep_char (String sep_char j)).
    cbn [truthy String.eqb negb].
    assert (E1 : startswith (String sep_char (String sep_char j)) "/" = true) by reflexivity.
    assert (E2 : startswith (String sep_char (String sep_char j)) "//" = true) by reflexivity.
    assert (E3 : startswith (String sep_char (String sep_char j)) "///" = false).
    { change (startswith (String sep_char (String sep_char j)) "///")
        with (starts [sep_char] (chars j)).
      apply (starts_sep_head_free _ Hj). }
    rewrite E1, E2, E3. cbn [andb negb].
    unfold split. cbn [chars list_ascii_of_string split_chars]. rewrite !Ascii.eqb_refl.
    cbn [rev str string_of_list_ascii].
    change ("" :: "" :: ?l) with (repeat "" 2 ++ l)%list.
    rewrite norm_comps_skip. fold (chars j). rewrite Hs. fold j.
    reflexivity.
Qed.

(** [normpath] of an absolute path is normalised. *)
Lemma normpath_normal (p : string) : isabs p = true -> normal_path (normpath p).
Proof.
  intros Habs. unfold normpath.
  assert (Ht : truthy p = true).
  { destruct p; [discriminate | reflexivity]. }
  rewrite Ht. cbn [negb]. unfold isabs in Habs. change sep with "/" in Habs. rewrite Habs.
  set (init := if startswith p "//" && negb (startswith p "///") then 2 else 1).
  assert (Hinit : init = 1 \/ init = 2).
  { unfold init. destruct (_ && _); auto. }
  set (comps := norm_comps init (split sep_char p) []).
  assert (Hc : forallb clean_comp comps = true).
  { apply norm_comps_yields_clean; [destruct Hinit; lia | | reflexivity].
    intros c Hin. now apply (split_chars_elements (chars p) [] c). }
  assert (Htr : truthy (str (repeat sep_char init) ++ pystr.join sep comps) = true).
  { destruct Hinit as [->| ->]; reflexivity. }
  rewrite Htr. now exists init, comps.
Qed.

Lemma normal_isabs (p : string) : normal_path p -> isabs p = true.
Proof.
  intros (init & comps & [->| ->] & _ & ->); reflexivity.
Qed.

Lemma normal_truthy (p : string) : normal_path p -> truthy p = true.
Proof.
  intros (init & comps & [->| ->] & _ & ->); reflexivity.
Qed.

Lemma drop_while_app_all (f : ascii -> bool) (x y : list ascii) :
  forallb f x = true -> drop_while f (x ++ y) = drop_while f y.
Proof.
  induction x as [|a x IH]; cbn [app forallb drop_while]; [reflexivity|].
  intros H. apply andb_true_iff in H. destruct H as [-> H]. now apply IH.
Qed.

Lemma join_snoc (cs : list string) (c : string) :
  cs <> [] -> pystr.join sep (cs ++ [c]) = pystr.join sep cs ++ sep ++ c.
Proof.
  induction cs as [|x cs IH]; [congruence|]. intros _.
  destruct cs as [|y cs]; [reflexivity|].
  change (pystr.join sep ((x :: y :: cs) ++ [c]))
    with (x ++ sep ++ pystr.join sep ((y :: cs) ++ [c])).
  rewrite IH by discriminate.
  change (pystr.join sep (x :: y :: cs)) with (x ++ sep ++ pystr.join sep (y :: cs)).
  now rewrite !append_assoc.
Qed.

Lemma repeat_sep_all (n : nat) : forallb is_sep (repeat sep_char n) = true.
Proof. induction n; simpl; [reflexivity | exact IHn]. Qed.

Lemma rev_repeat {A} (a : A) (n : nat) : rev (repeat a n) = repeat a n.
Proof.
  induction n as [|n IH]; simpl; [reflexivity|]. rewrite IH. clear.
  induction n as [|n IH]; simpl; [reflexivity | now rewrite IH].
Qed.

Lemma sep_free_rev (c : string) :
  sep_free c = true -> forallb (fun ch => negb (is_sep ch)) (rev (chars c)) = true.
Proof. unfold sep_free. now rewrite forallb_rev. Qed.

(** The last character of a joined list of clean components is no
    separator. *)
Lemma join_last_free (cs : list string) :
  forallb clean_comp cs = true -> cs <> [] ->
  exists a l, rev (chars (pystr.join sep cs)) = a :: l /\ is_sep a = false.
Proof.
  intros Hc Hne. destruct (exists_last Hne) as (cs' & c & ->).
  rewrite forallb_app in Hc. apply andb_true_iff in Hc. destruct Hc as [_ Hc].
  cbn [forallb] in Hc. rewrite andb_true_r in Hc.
  assert (Hrev : exists a l, rev (chars c) = a :: l /\ is_sep a = false).
  { pose proof (sep_free_rev c (clean_comp_sep_free c Hc)) as Hs.
    destruct (clean_comp_head c Hc) as (a0 & c' & E & _).
    destruct (rev (chars c)) as [|a l] eqn:Er.
    - apply (f_equal (@rev ascii)) in Er. rewrite rev_involutive, E in Er. discriminate.
    - exists a, l. split; [reflexivity|]. cbn [forallb] in Hs.
      apply andb_true_iff in Hs. now apply negb_true_iff. }
  destruct Hrev as (a & l & Er & Ha).
  destruct cs' as [|x cs'].
  - exists a, l. now split.
  - rewrite join_snoc by discriminate. rewrite !chars_app, !rev_app_distr, Er.
    eexists a, _. split; [reflexivity | exact Ha].
Qed.

(** [dirname] of a normalised path is normalised: the path without its
    last component. *)
Lemma dirname_of_normal (init : nat) (cs : list string) (c : string) :
  (init = 1 \/ init = 2) -> forallb clean_comp (cs ++ [c]) = true ->
  dirname (str (repeat sep_char init) ++ pystr.join sep (cs ++ [c]))
  = str (repeat sep_char init) ++ pystr.join sep cs.
Proof.
  intros Hinit Hc. rewrite forallb_app in Hc. apply andb_true_iff in Hc.
  destruct Hc as [Hcs Hclean]. cbn [forallb] in Hclean. rewrite andb_true_r in Hclean.
  pose proof (sep_free_rev c (clean_comp_sep_free c Hclean)) as Hfree.
  unfold dirname, dirname_chars.
  destruct cs as [|x cs'].
  - cbn [app pystr.join]. rewrite chars_app, chars_str, rev_app_distr, rev_repeat.
    rewrite (drop_while_app_all _ _ _ Hfree).
    assert (E : drop_while (fun ch => negb (is_sep ch)) (repeat sep_char init)
                = repeat sep_char init).
    { destruct Hinit as [->| ->]; reflexivity. }
    rewrite E, repeat_sep_all, rev_repeat.
    change (pystr.join sep []) with "". clear.
    induction (str (repeat sep_char init)); simpl; congruence.
  - set (cs := x :: cs') in *.
    rewrite join_snoc by discriminate.
    rewrite <- !append_assoc, !chars_app, !rev_app_distr.
    change (chars sep) with [sep_char]. cbn [rev app].
    rewrite (drop_while_app_all _ _ _ Hfree).
    set (t := (rev (chars (pystr.join sep cs)) ++ rev (chars (str (repeat sep_char init))))%list).
    change (drop_while (fun c0 => negb (is_sep c0)) (sep_char :: t)) with (sep_char :: t).
    change (forallb is_sep (sep_char :: t)) with (forallb is_sep t).
    change (drop_while is_sep (sep_char :: t)) with (drop_while is_sep t).
    destruct (join_last_free cs Hcs) as (a & l & Er & Ha); [discriminate|].
    assert (Et : t = a :: (l ++ rev (chars (str (repeat sep_char init))))%list).
    { unfold t. now rewrite Er. }
    assert (E1 : forallb is_sep t = false) by (rewrite Et; cbn [forallb]; now rewrite Ha).
    assert (E2 : drop_while is_sep t = t) by (rewrite Et; cbn [drop_while]; now rewrite Ha).
    rewrite E1, E2. unfold t.
    rewrite <- rev_app_distr, rev_involutive, <- chars_app.
    apply str_chars.
Qed.

Lemma dirname_of_root (init : nat) :
  (init = 1 \/ init = 2) ->
  dirname (str (repeat sep_char init)) = str (repeat sep_char init).
Proof. intros [->| ->]; reflexivity. Qed.

Lemma dirname_normal (p : string) : normal_path p -> normal_path (dirname p).
Proof.
  intros (init & comps & Hinit & Hc & ->).
  destruct comps as [|x comps'].
  - change (pystr.join sep []) with "".
    assert (E : str (repeat sep_char init) ++ "" = str (repeat sep_char init)).
    { clear. induction (str (repeat sep_char init)); simpl; congruence. }
    rewrite E, dirname_of_root by exact Hinit.
    exists init, []. split; [exact Hinit|]. split; [reflexivity|].
    change (pystr.join sep []) with "". now rewrite E.
  - destruct (exists_last (l := x :: comps')) as (cs & c & E); [discriminate|].
    rewrite E in *. rewrite dirname_of_normal by assumption.
    exists init, cs. split; [exact Hinit|]. split; [|reflexivity].
    rewrite forallb_app in Hc. now apply andb_true_iff in Hc.
Qed.

End normal_facts.

Section AbspathFacts.
Context {host : Host}.
Import pystr pystr_facts normal normal_facts.

Lemma abspath_normal (p : string) : cwd_is_absolute -> normal_path (abspath p).
Proof.
  intros Hcwd. unfold abspath, posixpath.abspath. apply normpath_normal.
  destruct (posixpath.isabs p) eqn:E; [exact E|].
  unfold posixpath.join. unfold posixpath.isabs in E. rewrite E.
  unfold cwd_is_absolute, posixpath.isabs in Hcwd. apply startswith_iff in Hcwd.
  destruct Hcwd as [rest Hrest].
  destruct (_ || _); apply startswith_iff; rewrite Hrest.
  - exists (rest ++ p). now rewrite append_assoc.
  - exists (rest ++ posixpath.sep ++ p). now rewrite append_assoc.
Qed.

Lemma abspath_of_normal (p : string) : normal_path p -> abspath p = p.
Proof.
  intros H. unfold abspath, posixpath.abspath.
  rewrite (normal_isabs p H). now apply normpath_of_normal.
Qed.

Lemma abspath_idempotent (p : string) : cwd_is_absolute -> abspath (abspath p) = abspath p.
Proof. intros H. apply abspath_of_normal. now apply abspath_normal. Qed.

Lemma ancestor_normal (k : nat) : forall p, normal_path p -> normal_path (ancestor k p).
Proof.
  induction k as [|k IH]; intros p H; [exact H|]. apply IH. now apply dirname_normal.
Qed.

End AbspathFacts.

(* ================================================================== *)
(** * Further facts: aggregates up the tree *)
(* ================================================================== *)

Section UpTreeFacts.
Context {host : Host} {fs : FileSystem}.
Import pystr pystr_facts normal normal_facts.

(** One turn of the loop on the store: the aggregate of [current] when
    the Registry holds it as a folder. *)
Lemma up_tree_turn_run (current : string) (w : World) :
  exists w1,
    (forall (k : Proc unit),
        bind (reading (fun db => get_file_metadata db current))
             (fun meta =>
                bind (match meta with
                      | Some m =>
                          if String.eqb (Registry.kind m) "folder"
                          then try_except (update_folder_aggregate current 60) (ret tt)
                          else ret tt
                      | None => ret tt
                      end) (fun _ => k)) w = k w1)
    /\ (disk w1 = disk w
        \/ (disk w1 = folder_aggregate_effect current 60 (disk w)
            /\ exists m, get_file_metadata (disk w) current = Some m
                         /\ Registry.kind m = "folder")).
Proof.
  unfold bind, reading.
  destruct (get_file_metadata (disk w) current) as [m|] eqn:Hm; [|exists w; auto].
  destruct (String.eqb (Registry.kind m) "folder") eqn:Hk; [|exists w; auto].
  apply String.eqb_eq in Hk. unfold try_except.
  destruct (update_folder_aggregate_run current 60 w) as (r & n' & ->).
  destruct r as [[]|]; eexists; (split; [reflexivity|]); cbn [disk]; [right | left]; eauto.
Qed.

Lemma up_tree_loop_run (stop : option string) :
  forall fuel current w, exists w', up_tree_loop fuel stop current w = (Val tt, w').
Proof.
  induction fuel as [|fuel IH]; intros current w; cbn [up_tree_loop]; [now exists w|].
  destruct (truthy current && negb (String.eqb current (posixpath.dirname current)));
    [|now exists w].
  destruct (up_tree_turn_run current w) as (w1 & -> & _).
  destruct (match stop with Some s => _ | None => false end); [now exists w1 | apply IH].
Qed.

(** The fuel given to the loop is enough: more of it changes nothing. *)
Lemma up_tree_fuel (stop : option string) :
  forall n m current w,
    len current <= n -> len current <= m ->
    up_tree_loop n stop current w = up_tree_loop m stop current w.
Proof.
  induction n as [|n IH]; intros m current w Hn Hm.
  - assert (current = "") as -> by (destruct current; [reflexivity | simpl in Hn; lia]).
    destruct m; reflexivity.
  - destruct m as [|m].
    + assert (current = "") as -> by (destruct current; [reflexivity | simpl in Hm; lia]).
      reflexivity.
    + cbn [up_tree_loop]. destruct (truthy current); cbn [andb]; [|reflexivity].
      destruct (String.eqb current (posixpath.dirname current)) eqn:E; cbn [negb];
        [reflexivity|].
      destruct (up_tree_turn_run current w) as (w1 & Et & _). rewrite !Et.
      destruct (match stop with Some s => _ | None => false end); [reflexivity|].
      apply String.eqb_neq in E.
      destruct (posixpath_facts.dirname_shrinks current) as [E'|L]; [congruence|].
      apply IH; lia.
Qed.

Lemma up_tree_loop_keeps (I : Database -> Prop) (stop : option string) :
  kept_by_aggregate I ->
  forall fuel current w,
    I (disk w) -> I (disk (snd (up_tree_loop fuel stop current w))).
Proof.
  intros Hk. induction fuel as [|fuel IH]; intros current w Hw; cbn [up_tree_loop];
    [exact Hw|].
  destruct (truthy current && negb (String.eqb current (posixpath.dirname current)));
    [|exact Hw].
  destruct (up_tree_turn_run current w) as (w1 & -> & Hw1).
  assert (I (disk w1)) by (destruct Hw1 as [->|[-> _]]; [exact Hw | now apply Hk]).
  destruct (match stop with Some s => _ | None => false end); [assumption | now apply IH].
Qed.

Lemma aggregate_fixed_columns (folder : string) (n : nat) (db : Database) :
  map fixed_columns (files (folder_aggregate_effect folder n db))
  = map fixed_columns (files db)
  /\ index_roots (folder_aggregate_effect folder n db) = index_roots db.
Proof.
  unfold folder_aggregate_effect, sql.update_files_aggregate. cbn [files index_roots].
  split; [|reflexivity]. rewrite map_map. apply map_ext. intros x.
  now destruct (String.eqb (Registry.path x) (abspath folder)).
Qed.

(** The aggregates up the tree never raise, keep the Registry and the
    Content Index paired, leave the indexed roots alone, and write no
    column of the Registry but [summary] and [tech_stack]: no row is
    added, removed or moved. *)
Theorem up_tree_is_safe (path : string) (stop_at : option string) (w : World) :
  consistent (disk w) ->
  let r := update_folder_aggregate_up_tree path stop_at w in
  fst r = Val tt
  /\ consistent (disk (snd r))
  /\ index_roots (disk (snd r)) = index_roots (disk w)
  /\ map fixed_columns (files (disk (snd r))) = map fixed_columns (files (disk w)).
Proof.
  intros Hc. cbv zeta. unfold update_folder_aggregate_up_tree.
  set (stop := match stop_at with Some s => _ | None => None end).
  set (current := if path_isdir (abspath path) then _ else _).
  split; [|split].
  - destruct (up_tree_loop_run stop (len current) current w) as [w' ->]. reflexivity.
  - apply (up_tree_loop_keeps consistent); [|exact Hc].
    intros folder n db. apply folder_aggregate_effect_consistent.
  - apply and_comm.
    apply (up_tree_loop_keeps
             (fun db => map fixed_columns (files db) = map fixed_columns (files (disk w))
                        /\ index_roots db = index_roots (disk w))); [|auto].
    intros folder n db [H1 H2].
    destruct (aggregate_fixed_columns folder n db) as [-> ->]. auto.
Qed.

Lemma keyed_select_file (db : Database) (x m : Registry.row) :
  keyed db -> In x (files db) ->
  sql.select_file (Registry.path x) (files db) = Some m -> m = x.
Proof.
  unfold keyed, sql.select_file. induction (files db) as [|y t IH]; [contradiction|].
  cbn [map find]. intros Hk Hin. inversion Hk as [|p l Hy Ht]; subst.
  destruct (String.eqb (Registry.path y) (Registry.path x)) eqn:E.
  - intros [= <-]. destruct Hin as [H|H]; [exact H|].
    apply String.eqb_eq in E. exfalso. apply Hy. rewrite E. now apply in_map.
  - destruct Hin as [->|H]; [now rewrite String.eqb_refl in E | now apply IH].
Qed.

Lemma aggregate_keeps_other_rows (folder : string) (n : nat) (db : Database) (x : Registry.row) :
  In x (files db) -> Registry.path x <> abspath folder ->
  In x (files (folder_aggregate_effect folder n db)).
Proof.
  intros Hin Hne. unfold folder_aggregate_effect, sql.update_files_aggregate. cbn [files].
  apply in_map_iff. exists x. split; [|exact Hin].
  apply String.eqb_neq in Hne. now rewrite Hne.
Qed.

Lemma aggregate_keyed (folder : string) (n : nat) (db : Database) :
  keyed db -> keyed (folder_aggregate_effect folder n db).
Proof.
  unfold keyed, folder_aggregate_effect, sql.update_files_aggregate. cbn [files].
  now rewrite sql_facts.update_files_paths.
Qed.

Lemma Forall2_compose {A} (P Q R : A -> A -> Prop) (l1 l2 l3 : list A) :
  (forall x y z, P x y -> Q y z -> R x z) ->
  Forall2 P l1 l2 -> Forall2 Q l2 l3 -> Forall2 R l1 l3.
Proof.
  intros H H12. revert l3. induction H12 as [|x y l1 l2 Hxy _ IH]; intros l3 H23;
    inversion H23; subst; constructor; eauto.
Qed.

Lemma Forall2_same {A} (R : A -> A -> Prop) (l : list A) :
  (forall x, In x l -> R x x) -> Forall2 R l l.
Proof.
  induction l as [|x l IH]; intros H; constructor.
  - apply H. now left.
  - apply IH. intros y Hy. apply H. now right.
Qed.

(** The rows after an aggregate of a folder that the Registry holds as
    a folder, against the rows before. *)
Lemma aggregate_rows (current : string) (n : nat) (db : Database) (m : Registry.row) :
  keyed db -> abspath current = current ->
  get_file_metadata db current = Some m -> Registry.kind m = "folder" ->
  Forall2 (fun x x' => fixed_columns x' = fixed_columns x
                       /\ (x' = x \/ (Registry.kind x = "folder"
                                      /\ Registry.path x = current)))
          (files db) (files (folder_aggregate_effect current n db)).
Proof.
  intros Hk Habs Hm Hfolder.
  unfold folder_aggregate_effect, sql.update_files_aggregate. cbn [files]. rewrite Habs.
  set (upd := fun x => if String.eqb (Registry.path x) current then _ else x).
  assert (G : forall l, (forall x, In x l -> In x (files db)) ->
                        Forall2 (fun x x' => fixed_columns x' = fixed_columns x
                                             /\ (x' = x \/ (Registry.kind x = "folder"
                                                            /\ Registry.path x = current)))
                                l (map upd l)).
  { induction l as [|x l IH]; intros Hl; cbn [map]; constructor.
    - unfold upd. destruct (String.eqb (Registry.path x) current) eqn:E; [|auto].
      apply String.eqb_eq in E. split; [reflexivity|]. right. split; [|exact E].
      unfold get_file_metadata in Hm. rewrite <- E in Hm.
      rewrite <- (keyed_select_file db x m Hk (Hl x (or_introl eq_refl)) Hm). exact Hfolder.
    - apply IH. intros y Hy. apply Hl. now right. }
  apply G. auto.
Qed.

Lemma aggregated_paths (P : Registry.row -> Registry.row -> Prop) (l l' : list Registry.row) :
  (forall x x', P x x' -> fixed_columns x' = fixed_columns x) ->
  Forall2 P l l' -> map Registry.path l' = map Registry.path l.
Proof.
  intros HP H. induction H as [|x x' l l' Hx _ IH]; cbn [map]; [reflexivity|].
  rewrite IH. f_equal. apply HP in Hx. unfold fixed_columns in Hx. congruence.
Qed.

Lemma up_tree_loop_rows (stop : option string) :
  forall fuel current w,
    normal_path current -> keyed (disk w) ->
    Forall2 (aggregated_from current stop)
            (files (disk w)) (files (disk (snd (up_tree_loop fuel stop current w)))).
Proof.
  assert (Hsame : forall current l, Forall2 (aggregated_from current stop) l l).
  { intros current l. apply Forall2_same. intros x _. split; auto. }
  induction fuel as [|fuel IH]; intros current w Hn Hk; cbn [up_tree_loop];
    [apply Hsame|].
  destruct (truthy current && negb (String.eqb current (posixpath.dirname current)))
    eqn:Hloop; [|apply Hsame].
  apply andb_true_iff in Hloop. destruct Hloop as [Htruthy _].
  destruct (up_tree_turn_run current w) as (w1 & -> & Hw1).
  pose proof (abspath_of_normal current Hn) as Habs. rewrite Habs.
  assert (H1 : Forall2 (fun x x' => fixed_columns x' = fixed_columns x
                                    /\ (x' = x \/ (Registry.kind x = "folder"
                                                   /\ Registry.path x = current)))
                       (files (disk w)) (files (disk w1))).
  { destruct Hw1 as [->|(-> & m & Hm & Hfolder)].
    - apply Forall2_same. intros x _. auto.
    - now apply (aggregate_rows current 60 (disk w) m). }
  assert (Hk1 : keyed (disk w1)).
  { unfold keyed in *. rewrite (aggregated_paths _ _ _ (fun x x' H => proj1 H) H1). exact Hk. }
  destruct (match stop with Some s => truthy s && String.eqb current s | None => false end)
    eqn:Hstop.
  - cbn [snd]. eapply Forall2_impl; [|exact H1].
    intros x x' [Hf [->|[Hfolder Hpath]]]; split; auto.
    right. split; [exact Hfolder|]. exists 0. split; [exact Hpath|]. intros j Hj. lia.
  - eapply Forall2_compose;
      [| exact H1 | exact (IH (posixpath.dirname current) w1 (dirname_normal _ Hn) Hk1)].
    intros x y z [Hf1 H1'] [Hf2 H2']. split; [congruence|].
    destruct H1' as [->|[Hfolder Hpath]].
    + destruct H2' as [->|(Hfolder & k & Hp & Hj)]; [now left|].
      right. split; [exact Hfolder|]. exists (S k). split; [exact Hp|].
      intros [|j] Hlt; cbn [ancestor].
      * intros ->. rewrite Htruthy, String.eqb_refl in Hstop. discriminate.
      * apply Hj. lia.
    + right. split; [exact Hfolder|]. exists 0. split; [exact Hpath|]. intros j Hj. lia.
Qed.

Lemma up_tree_run (path : string) (stop_at : option string) (w : World) :
  exists w', update_folder_aggregate_up_tree path stop_at w = (Val tt, w').
Proof. unfold update_folder_aggregate_up_tree. apply up_tree_loop_run. Qed.

Lemma up_tree_rewrites_rows (path : string) (stop_at : option string) (w : World) :
  cwd_is_absolute -> keyed (disk w) ->
  let start := if path_isdir (abspath path) then abspath path
               else posixpath.dirname (abspath path) in
  let stop := match stop_at with
              | Some s => if truthy s then Some (abspath s) else None
              | None => None
              end in
  Forall2 (aggregated_from start stop)
          (files (disk w))
          (files (disk (snd (update_folder_aggregate_up_tree path stop_at w)))).
Proof.
  intros Hcwd Hk. cbv zeta. unfold update_folder_aggregate_up_tree.
  apply up_tree_loop_rows; [|exact Hk].
  destruct (path_isdir (abspath path)); [|apply dirname_normal]; now apply abspath_normal.
Qed.

(** The aggregates up the tree rewrite folder rows only, and only those
    of the folders from where the walk starts (the path itself when it
    is a directory, else its parent) up to the stop root: row by row,
    the Registry afterwards is the Registry before, but for the
    [summary] and [tech_stack] of those folders. *)
Theorem up_tree_rewrites_only_folders_above
    (path : string) (stop_at : option string) (w : World) :
  cwd_is_absolute -> keyed (disk w) ->
  let start := if path_isdir (abspath path) then abspath path
               else posixpath.dirname (abspath path) in
  let stop := match stop_at with
              | Some s => if truthy s then Some (abspath s) else None
              | None => None
              end in
  Forall2 (aggregated_from start stop)
          (files (disk w))
          (files (disk (snd (update_folder_aggregate_up_tree path stop_at w)))).
Proof. exact (up_tree_rewrites_rows path stop_at w). Qed.

End UpTreeFacts.

(* ================================================================== *)
(** * Further facts: saving a summary *)
(* ================================================================== *)

Section SaveFacts.
Context {host : Host} {fs : FileSystem} {engine : TextEngine} {ai_host : AiHost}.
Import pystr pystr_facts normal normal_facts.

Lemma queue_after_summary (path new_summary : string) (db : Database) :
  truthy new_summary = true ->
  get_unsummarized_files (update_summary_effect path new_summary db)
  = filter (fun p => negb (String.eqb p path)) (get_unsummarized_files db).
Proof.
  intros Hs.
  unfold get_unsummarized_files, update_summary_effect, sql.update_files_summary.
  cbn [files]. fold unsummarized.
  induction (files db) as [|x t IH]; cbn [map filter]; [reflexivity|].
  assert (Hdone : forall y, unsummarized
                    (Registry.mk (Registry.path y) (Registry.kind y) (Registry.ext y)
                       (Registry.last_modified y) (Registry.creation_time y)
                       (Registry.size y) (Registry.indexed_at y) (Some new_summary)
                       (Registry.tech_stack y)) = false).
  { intros y. unfold unsummarized. cbn [Registry.kind Registry.summary].
    unfold truthy in Hs. apply negb_true_iff in Hs. now rewrite Hs, andb_false_r. }
  destruct (String.eqb (Registry.path x) path) eqn:E.
  - rewrite Hdone, IH. destruct (unsummarized x); cbn [map filter]; [|reflexivity].
    now rewrite E.
  - destruct (unsummarized x); cbn [map filter]; [|exact IH].
    rewrite E. cbn [negb]. now rewrite IH.
Qed.

Lemma queue_NoDup (db : Database) : keyed db -> NoDup (get_unsummarized_files db).
Proof.
  unfold keyed, get_unsummarized_files. apply NoDup_map_filter.
Qed.

Lemma filter_head_out (path : string) (rest : list string) :
  NoDup (path :: rest) ->
  filter (fun p => negb (String.eqb p path)) (path :: rest) = rest.
Proof.
  intros H. inversion H as [|p l Hp Hl]; subst. cbn [filter].
  rewrite String.eqb_refl. cbn [negb]. apply forallb_filter_id, forallb_forall.
  intros q Hq. apply negb_true_iff, String.eqb_neq. intros ->. contradiction.
Qed.

(** Rows that agree but for the aggregates of folders give the same
    queue of files without a summary, and the same answer for a file. *)
Lemma queue_aggregated (start : string) (stop : option string) (l l' : list Registry.row) :
  Forall2 (aggregated_from start stop) l l' ->
  map Registry.path (filter unsummarized l') = map Registry.path (filter unsummarized l).
Proof.
  induction 1 as [|x x' l l' [Hf Hx] _ IH]; [reflexivity|]. cbn [filter].
  assert (E : unsummarized x' = unsummarized x /\ Registry.path x' = Registry.path x).
  { destruct Hx as [->|[Hfolder _]]; [auto|].
    unfold fixed_columns in Hf. injection Hf as Hp Hkind _ _ _ _ _.
    unfold unsummarized. rewrite Hkind, Hfolder. auto. }
  destruct E as [-> Hp]. destruct (unsummarized x); cbn [map]; now rewrite ?Hp, IH.
Qed.

Lemma select_file_aggregated (start : string) (stop : option string)
    (l l' : list Registry.row) (p : string) (x : Registry.row) :
  Forall2 (aggregated_from start stop) l l' ->
  sql.select_file p l = Some x ->
  exists x', sql.select_file p l' = Some x' /\ aggregated_from start stop x x'.
Proof.
  unfold sql.select_file. induction 1 as [|y y' l l' Hy _ IH]; [discriminate|].
  cbn [find]. assert (Hp : Registry.path y' = Registry.path y).
  { destruct Hy as [Hf _]. unfold fixed_columns in Hf. congruence. }
  rewrite Hp. destruct (String.eqb (Registry.path y) p).
  - intros [= <-]. now exists y'.
  - exact IH.
Qed.

Section NoFaults.
Hypothesis no_faults : forall n, write_refused n = false.

Lemma update_summary_no_faults (path new_summary : string) (w : World) :
  exists n', update_summary path new_summary w
             = (Val tt, mkWorld (update_summary_effect path new_summary (disk w)) n').
Proof.
  unfold update_summary, update_summary_effect, get_file_metadata. run_proc.
  rewrite no_faults. simpl.
  destruct (sql.select_index path (file_index (disk w))) as [row|] eqn:Hsel; simpl.
  - repeat (rewrite no_faults; simpl). eexists. reflexivity.
  - rewrite (sql_facts.delete_index_absent _ _ Hsel).
    repeat (rewrite no_faults; simpl). eexists. reflexivity.
Qed.

Lemma update_summary_effect_keyed (path s : string) (db : Database) :
  keyed db -> keyed (update_summary_effect path s db).
Proof.
  unfold keyed, update_summary_effect, sql.update_files_summary. cbn [files].
  now rewrite sql_facts.update_files_paths.
Qed.

(** Saving the summary of a path that the Registry holds as a file, and
    aggregating above it: the summary is stored, the file leaves the queue
    of files without a summary, and the other files stay in it. *)
Lemma save_and_aggregate_file (path summary : string) (d : Daemon) (row : Registry.row) :
  cwd_is_absolute -> keyed (disk (store d)) ->
  sql.select_file path (files (disk (store d))) = Some row ->
  Registry.kind row <> "folder" ->
  truthy summary = true ->
  exists d',
    save_and_aggregate path summary d = (Val tt, d')
    /\ ai d' = ai d
    /\ keyed (disk (store d'))
    /\ get_summary (disk (store d')) path = Some summary
    /\ get_unsummarized_files (disk (store d'))
       = filter (fun p => negb (String.eqb p path))
                (get_unsummarized_files (disk (store d))).
Proof.
  intros Hcwd Hk Hrow Hkind Hs. unfold save_and_aggregate, bind, on_store, reading.
  destruct (update_summary_no_faults path summary (store d)) as [n' ->]. cbn [store ai disk].
  set (w1 := mkWorld _ n').
  set (stop_at := get_best_root_for_path _ path).
  assert (Hk1 : keyed (disk w1)) by now apply update_summary_effect_keyed.
  pose proof (up_tree_rewrites_rows path stop_at w1 Hcwd Hk1) as Hrows. cbv zeta in Hrows.
  destruct (update_folder_aggregate_up_tree path stop_at w1) as [r w2] eqn:Eup.
  assert (r = Val tt) as ->.
  { pose proof (up_tree_run path stop_at w1) as [w' Hw']. rewrite Eup in Hw'. congruence. }
  cbn [snd] in Hrows. eexists. split; [reflexivity|]. cbn [ai store].
  split; [reflexivity|]. split; [|split].
  - unfold keyed in *.
    rewrite (aggregated_paths _ _ _ (fun x x' H => proj1 H) Hrows). exact Hk1.
  - unfold get_summary.
    assert (H1 : sql.select_file path (files (disk w1))
                 = Some (Registry.mk (Registry.path row) (Registry.kind row)
                           (Registry.ext row) (Registry.last_modified row)
                           (Registry.creation_time row) (Registry.size row)
                           (Registry.indexed_at row) (Some summary)
                           (Registry.tech_stack row))).
    { unfold w1, update_summary_effect, sql.update_files_summary. cbn [disk files].
      rewrite select_file_update; [|reflexivity]. now rewrite String.eqb_refl, Hrow. }
    destruct (select_file_aggregated _ _ _ _ _ _ Hrows H1) as (x' & -> & _ & Hx').
    destruct Hx' as [->|[Hfolder _]]; [reflexivity | contradiction].
  - unfold get_unsummarized_files. fold unsummarized.
    rewrite (queue_aggregated _ _ _ _ Hrows).
    change (map Registry.path (filter unsummarized (files (disk w1))))
      with (get_unsummarized_files (disk w1)).
    unfold w1. cbn [disk]. now apply queue_after_summary.
Qed.

End NoFaults.

End SaveFacts.

(* ================================================================== *)
(** * Further facts: the text helpers and the background summariser *)
(* ================================================================== *)

Section AiTextFacts.
Context {ai_host : AiHost}.
Import pystr pystr_facts.

Lemma guarded_reply_run (prompt failure : string) (a : AiState) :
  try_except (stripped_reply prompt) (ret failure) a
  = (Val (reply_or prompt failure), after_chat prompt a).
Proof.
  unfold try_except, stripped_reply, bind, ollama_chat, of_option, ret, raise, reply_or,
    after_chat.
  destruct (chat prompt) as [|[text|]]; reflexivity.
Qed.

Lemma generate_summary_run (text_content : string) (a : AiState) :
  generate_summary text_content a
  = (Val (reply_or (summary_prompt (slice_to 4000 text_content)) "Analysis failed."),
     after_chat (summary_prompt (slice_to 4000 text_content)) a).
Proof. apply guarded_reply_run. Qed.

Lemma slice_to_twice (n : nat) (s : string) : slice_to n (slice_to n s) = slice_to n s.
Proof.
  unfold slice_to. rewrite chars_str, firstn_firstn. now rewrite Nat.min_id.
Qed.

(** The three helpers that hand a text to the generator never raise:
    each returns the stripped reply, or its own failure text when the
    call fails or the reply has no content.  Each makes one call, leaves
    the intent cache alone, and shows the generator only the first 4000,
    2000 and 3000 characters of the text. *)
Theorem text_helpers_never_raise (text query : string) (a : AiState) :
  generate_summary text a
  = (Val (reply_or (summary_prompt (slice_to 4000 text)) "Analysis failed."),
     after_chat (summary_prompt (slice_to 4000 text)) a)
  /\ detect_tech_stack text a
     = (Val (reply_or (tech_stack_prompt text) "Unknown"),
        after_chat (tech_stack_prompt text) a)
  /\ analyze_search_context text query a
     = (Val (reply_or (search_context_prompt text query) "Context analysis failed."),
        after_chat (search_context_prompt text query) a)
  /\ generate_summary (slice_to 4000 text) a = generate_summary text a
  /\ detect_tech_stack (slice_to 2000 text) a = detect_tech_stack text a
  /\ analyze_search_context (slice_to 3000 text) query a
     = analyze_search_context text query a.
Proof.
  split; [apply guarded_reply_run|]. split; [apply guarded_reply_run|].
  split; [apply guarded_reply_run|].
  unfold generate_summary, detect_tech_stack, analyze_search_context,
    tech_stack_prompt, search_context_prompt.
  now rewrite !slice_to_twice.
Qed.

End AiTextFacts.

Section WorkerFacts.
Context {host : Host} {fs : FileSystem} {engine : TextEngine} {ai_host : AiHost}.
Import pystr pystr_facts normal normal_facts.

Lemma queue_head_is_file (db : Database) (path : string) (rest : list string) :
  get_unsummarized_files db = path :: rest ->
  exists row, sql.select_file path (files db) = Some row
              /\ (keyed db -> Registry.kind row = "file").
Proof.
  unfold get_unsummarized_files. fold unsummarized. intros H.
  assert (Hin : In path (map Registry.path (filter unsummarized (files db))))
    by (rewrite H; now left).
  apply in_map_iff in Hin. destruct Hin as (x & Hp & Hx). apply filter_In in Hx.
  destruct Hx as [Hx Hu].
  destruct (sql.select_file path (files db)) as [row|] eqn:Hsel.
  - exists row. split; [reflexivity|]. intros Hk. rewrite <- Hp in Hsel.
    rewrite (keyed_select_file db x row Hk Hx Hsel).
    unfold unsummarized in Hu. apply andb_true_iff in Hu. now apply String.eqb_eq.
  - exfalso. unfold sql.select_file in Hsel.
    apply (find_none _ _ Hsel) in Hx. rewrite Hp, String.eqb_refl in Hx. discriminate.
Qed.

(** A turn of the background summariser, on a storage that refuses no
    write, takes the first file of the queue out of it: when the file
    exists and can be read and the summary obtained for it is not empty,
    the summary is stored for the file and the queue afterwards is the
    rest of the queue.  The summary is whatever [generate_summary]
    returned, so also its failure text. *)
Theorem summarizer_turn_takes_the_first_file
    (d : Daemon) (path : string) (rest : list string) (content summary : string)
    (a' : AiState) :
  cwd_is_absolute -> keyed (disk (store d)) ->
  (forall n, write_refused n = false) ->
  get_unsummarized_files (disk (store d)) = path :: rest ->
  path_exists path = true -> read_text path = Some content ->
  generate_summary content (ai d) = (Val summary, a') ->
  truthy summary = true ->
  let d' := snd (summarizer_turn d) in
  get_summary (disk (store d')) path = Some summary
  /\ get_unsummarized_files (disk (store d')) = rest
  /\ ai d' = a'.
Proof.
  intros Hcwd Hk Hnf Hq Hex Hread Hgen Hs. cbv zeta.
  destruct (queue_head_is_file _ _ _ Hq) as (row & Hrow & Hkind).
  specialize (Hkind Hk).
  set (d1 := mkDaemon (store d) a').
  destruct (save_and_aggregate_file Hnf path summary d1 row Hcwd Hk Hrow) as
    (d' & Hsave & Hai & _ & Hsum & Hqueue); [rewrite Hkind; discriminate | exact Hs |].
  assert (Hturn : summarizer_turn d = (Val tt, d')).
  { unfold summarizer_turn, try_except, bind, on_store, reading, read_file, of_option,
      on_ai, ret. destruct d as [w a]. cbn [store ai] in *.
    rewrite Hq, Hex, Hread. cbn [store ai]. rewrite Hgen. fold d1. now rewrite Hsave. }
  rewrite Hturn. cbn [snd]. split; [exact Hsum|]. split; [|exact Hai].
  rewrite Hqueue. cbn [d1 store]. rewrite Hq. apply filter_head_out.
  rewrite <- Hq. now apply queue_NoDup.
Qed.

(** A file that is first in the queue and does not exist, or cannot be
    read, stays first: a turn of the summariser changes nothing then, so
    no number of turns summarises the files behind it. *)
Theorem summarizer_stuck_behind_a_missing_file
    (d : Daemon) (path : string) (rest : list string) (n : nat) :
  get_unsummarized_files (disk (store d)) = path :: rest ->
  path_exists path = false \/ read_text path = None ->
  summarizer_turns n d = (Val tt, d).
Proof.
  intros Hq Hmiss.
  assert (Hturn : summarizer_turn d = (Val tt, d)).
  { unfold summarizer_turn, try_except. unfold bind at 1. unfold on_store at 1, reading at 1.
    rewrite Hq. destruct d as [w a]. cbn [store ai].
    destruct (path_exists path); [|reflexivity].
    destruct Hmiss as [Hm|Hm]; [discriminate|].
    unfold bind, read_file, of_option. now rewrite Hm. }
  induction n as [|n IH]; [reflexivity|].
  cbn [summarizer_turns]. unfold bind. now rewrite Hturn.
Qed.

End WorkerFacts.

(* ================================================================== *)
(** * Further facts: requests *)
(* ================================================================== *)

Section RequestFacts.
Context {host : Host} {fs : FileSystem} {engine : TextEngine} {ai_host : AiHost}
        {faults : ChatFaults}.
Import pystr pystr_facts normal normal_facts.

Lemma on_ai_store {A} (m : SE AiState A) (d : Daemon) : store (snd (on_ai m d)) = store d.
Proof. unfold on_ai. now destruct (m (ai d)). Qed.

Lemma refine_summary_run (current_summary instruction : string) (a : AiState) :
  exists v a', refine_summary current_summary instruction a = (Val v, a').
Proof.
  unfold refine_summary, ollama_chat.
  destruct (chat _) as [|[text|]]; eexists; eexists; reflexivity.
Qed.

(** Every request is answered: [handle_request] never raises.  The
    requests [ping], [search], [refine_summary], [list_folder] and those
    of an unknown method leave the store as it is.  A [refine_summary]
    request is always answered as a success: when the text generator
    fails, the text of the failure is what is returned as the new
    summary. *)
Theorem handle_request_always_answers (request : Request) (d : Daemon) :
  exists response d',
    handle_request request d = (Val response, d')
    /\ (reads_only request = true -> store d' = store d)
    /\ (forall cur instr, request = RefineSummary cur instr ->
          exists text, response = Refined text).
Proof.
  unfold handle_request, try_except.
  destruct request as [|path|query use_ai root_path|path|path summary|cur instr
                       |path query|path|method]; cbn [reads_only].
  - answered.
  - destruct (handle_index_folder path d) as [[r|] d']; answered.
  - unfold bind, on_store, reading, on_ai, ret. destruct d as [w a]. cbn [store ai].
    destruct (handle_search (disk w) query use_ai root_path a) as [[r|] a']; answered.
  - destruct (handle_get_summary path d) as [[r|] d']; answered.
  - destruct (handle_save_summary path summary d) as [[r|] d']; answered.
  - unfold bind, on_ai, ret. destruct d as [w a]. cbn [store ai].
    destruct (refine_summary_run cur instr a) as (v & a' & ->). answered.
  - destruct (handle_expanded_details path query d) as [[r|] d']; answered.
  - unfold handle_list_folder. destruct path as [p|].
    + destruct (negb (truthy p) || negb (path_exists p) || negb (path_isdir p)).
      * answered.
      * unfold bind, on_store, reading, ret. destruct d as [w a]. cbn [store ai]. answered.
    + answered.
  - answered.
Qed.

Section NoFaults.
Hypothesis no_faults : forall n, write_refused n = false.

(** A summary saved for a path that the Registry holds as a file is what
    [get_summary] answers afterwards, from the store and without a call
    of the text generator. *)
Theorem saved_summary_is_served
    (d : Daemon) (path summary : string) (row : Registry.row) :
  cwd_is_absolute -> keyed (disk (store d)) ->
  sql.select_file path (files (disk (store d))) = Some row ->
  Registry.kind row <> "folder" ->
  truthy summary = true ->
  let d1 := snd (handle_request (SaveSummary path summary) d) in
  fst (handle_request (SaveSummary path summary) d) = Val Saved
  /\ handle_request (GetSummary path) d1 = (Val (SummaryOf summary "db"), d1).
Proof.
  intros Hcwd Hk Hrow Hkind Hs. cbv zeta.
  destruct (save_and_aggregate_file no_faults path summary d row Hcwd Hk Hrow Hkind Hs)
    as (d' & Hsave & _ & _ & Hsum & _).
  assert (E : handle_request (SaveSummary path summary) d = (Val Saved, d')).
  { unfold handle_request, try_except, handle_save_summary, bind. now rewrite Hsave. }
  rewrite E. cbn [fst snd]. split; [reflexivity|].
  unfold handle_request, try_except, handle_get_summary, bind, on_store, reading.
  rewrite Hsum. cbn [truthy_opt]. rewrite Hs. cbn [or_empty]. unfold ret.
  now destruct d'.
Qed.

(** [get_summary] for a file without a stored summary asks the text
    generator once: the summary obtained, when it is not empty, is
    stored, and the same request is answered from the store afterwards.
    The summary is whatever [generate_summary] returned, so also its
    failure text. *)
Theorem get_summary_generates_once
    (d : Daemon) (path content summary : string) (row : Registry.row) (a' : AiState) :
  cwd_is_absolute -> keyed (disk (store d)) ->
  sql.select_file path (files (disk (store d))) = Some row ->
  Registry.kind row <> "folder" ->
  truthy_opt (Registry.summary row) = false ->
  path_exists path = true -> read_text path = Some content ->
  generate_summary content (ai d) = (Val summary, a') ->
  truthy summary = true ->
  let d1 := snd (handle_request (GetSummary path) d) in
  fst (handle_request (GetSummary path) d) = Val (SummaryOf summary "ai")
  /\ ai d1 = a'
  /\ handle_request (GetSummary path) d1 = (Val (SummaryOf summary "db"), d1).
Proof.
  intros Hcwd Hk Hrow Hkind Hnone Hex Hread Hgen Hs. cbv zeta.
  set (d0 := mkDaemon (store d) a').
  destruct (save_and_aggregate_file no_faults path summary d0 row Hcwd Hk Hrow Hkind Hs)
    as (d' & Hsave & Hai & _ & Hsum & _).
  assert (E : handle_request (GetSummary path) d = (Val (SummaryOf summary "ai"), d')).
  { unfold handle_request, try_except, handle_get_summary, bind, on_store, reading,
      read_file, of_option, on_ai, ret.
    unfold get_summary at 1. rewrite Hrow, Hnone, Hex, Hread. cbn [negb].
    destruct d as [w a]. cbn [store ai] in *. rewrite Hgen. fold d0. now rewrite Hsave. }
  rewrite E. cbn [fst snd]. split; [reflexivity|]. split; [exact Hai|].
  unfold handle_request, try_except, handle_get_summary, bind, on_store, reading.
  rewrite Hsum. cbn [truthy_opt]. rewrite Hs. cbn [or_empty]. unfold ret.
  now destruct d'.
Qed.

Lemma update_folder_aggregate_no_faults (folder_path : string) (max_children : nat) (w : World) :
  exists n', update_folder_aggregate folder_path max_children w
             = (Val tt, mkWorld (folder_aggregate_effect folder_path max_children (disk w)) n').
Proof.
  unfold update_folder_aggregate, folder_aggregate_effect, reading, bind.
  generalize (abspath folder_path). intros fp.
  generalize (_compute_folder_stats (_fetch_children_rows (disk w) fp false) max_children).
  generalize (_compute_folder_stats (_fetch_children_rows (disk w) fp true) max_children).
  intros [[rs rt] rc] [[ds dt] dc].
  cbn [fst snd]. run_proc. repeat (rewrite no_faults; simpl). eexists. reflexivity.
Qed.

Lemma ancestor_len (k : nat) : forall p, len (ancestor k p) <= len p.
Proof.
  induction k as [|k IH]; intros p; cbn [ancestor]; [lia|].
  etransitivity; [apply IH|].
  destruct (posixpath_facts.dirname_shrinks p) as [->|H]; lia.
Qed.

Lemma folder_summary_prefix (rows : list Registry.row) (n : nat) :
  startswith (fst (fst (_compute_folder_stats rows n))) "Folder with " = true.
Proof.
  unfold _compute_folder_stats. cbn [fst]. destruct (truthy _); reflexivity.
Qed.

Lemma up_tree_turn_no_faults (current : string) (w : World) (m : Registry.row) :
  get_file_metadata (disk w) current = Some m -> Registry.kind m = "folder" ->
  exists n',
    forall (k : Proc unit),
      bind (reading (fun db => get_file_metadata db current))
           (fun meta =>
              bind (match meta with
                    | Some m =>
                        if String.eqb (Registry.kind m) "folder"
                        then try_except (update_folder_aggregate current 60) (ret tt)
                        else ret tt
                    | None => ret tt
                    end) (fun _ => k)) w
      = k (mkWorld (folder_aggregate_effect current 60 (disk w)) n').
Proof.
  intros Hm Hfolder. unfold bind, reading. rewrite Hm, Hfolder, String.eqb_refl.
  unfold try_except.
  destruct (update_folder_aggregate_no_faults current 60 w) as [n' ->]. now exists n'.
Qed.

(** The walk that starts at a folder of the Registry leaves the
    aggregate of its direct children as the summary of that folder. *)
Lemma up_tree_loop_from_folder (stop : option string) (fuel : nat) (path : string)
    (w : World) (m : Registry.row) :
  normal_path path -> keyed (disk w) -> path <> posixpath.dirname path ->
  sql.select_file path (files (disk w)) = Some m -> Registry.kind m = "folder" ->
  exists w',
    up_tree_loop (S fuel) stop path w = (Val tt, w')
    /\ get_summary (disk w') path
       = Some (fst (fst (_compute_folder_stats (_fetch_children_rows (disk w) path false) 60))).
Proof.
  intros Hn Hk Hroot Hm Hfolder. cbn [up_tree_loop].
  rewrite (normal_truthy path Hn).
  apply String.eqb_neq in Hroot. rewrite Hroot. cbn [andb negb].
  destruct (up_tree_turn_no_faults path w m Hm Hfolder) as [n' ->].
  set (w2 := mkWorld _ n').
  set (direct := fst (fst (_compute_folder_stats (_fetch_children_rows (disk w) path false) 60))).
  pose proof (abspath_of_normal path Hn) as Habs.
  assert (H2 : exists x2, sql.select_file path (files (disk w2)) = Some x2
                          /\ Registry.path x2 = path
                          /\ Registry.kind x2 = "folder"
                          /\ Registry.summary x2 = Some direct).
  { unfold w2, folder_aggregate_effect, sql.update_files_aggregate. cbn [disk files].
    rewrite Habs. rewrite select_file_update; [|reflexivity].
    rewrite String.eqb_refl, Hm. cbn [option_map]. eexists. split; [reflexivity|].
    cbn [Registry.path Registry.kind Registry.summary]. repeat split; auto.
    unfold sql.select_file in Hm. apply find_some in Hm. now apply String.eqb_eq. }
  destruct H2 as (x2 & Hsel2 & Hp2 & Hk2 & Hs2).
  destruct (match stop with Some s => _ | None => false end).
  - exists w2. split; [reflexivity|]. unfold get_summary. now rewrite Hsel2.
  - assert (Hkeyed2 : keyed (disk w2)) by (unfold w2; cbn [disk]; now apply aggregate_keyed).
    pose proof (up_tree_loop_rows stop fuel (posixpath.dirname path) w2
                  (dirname_normal _ Hn) Hkeyed2) as Hrows.
    destruct (up_tree_loop_run stop fuel (posixpath.dirname path) w2) as [w' E].
    rewrite E in *. cbn [snd] in Hrows. exists w'. split; [reflexivity|].
    destruct (select_file_aggregated _ _ _ _ _ _ Hrows Hsel2) as (x' & Hsel' & _ & Hx').
    unfold get_summary. rewrite Hsel'.
    destruct Hx' as [->|(_ & k & Hpk & _)]; [exact Hs2|].
    exfalso. rewrite Hp2 in Hpk. apply String.eqb_neq in Hroot.
    pose proof (ancestor_len k (posixpath.dirname path)) as Hlen. rewrite <- Hpk in Hlen.
    destruct (posixpath_facts.dirname_shrinks path) as [E'|L]; [congruence | lia].
Qed.

(** A summary saved for a folder does not last.  For a folder of the
    Registry that is a directory and is not the top of the tree (a path
    that is its own parent, where the walk up the tree does not start),
    the request is answered [Saved], but the aggregate of the folder is
    computed right after the summary is stored and takes its place:
    what [get_summary] finds afterwards is the aggregate text, which
    starts with [Folder with]. *)
Theorem saved_summary_of_a_folder_is_replaced
    (d : Daemon) (path summary : string) (row : Registry.row) :
  cwd_is_absolute -> keyed (disk (store d)) ->
  abspath path = path -> path_isdir path = true ->
  path <> posixpath.dirname path ->
  sql.select_file path (files (disk (store d))) = Some row ->
  Registry.kind row = "folder" ->
  let d1 := snd (handle_request (SaveSummary path summary) d) in
  let stored := update_summary_effect path summary (disk (store d)) in
  let aggregate := fst (fst (_compute_folder_stats (_fetch_children_rows stored path false) 60)) in
  fst (handle_request (SaveSummary path summary) d) = Val Saved
  /\ get_summary (disk (store d1)) path = Some aggregate
  /\ startswith aggregate "Folder with " = true.
Proof.
  intros Hcwd Hk Habs Hdir Hroot Hrow Hfolder. cbv zeta.
  assert (Hn : normal_path path) by (rewrite <- Habs; now apply abspath_normal).
  destruct (update_summary_no_faults no_faults path summary (store d)) as [n1 E1].
  set (w1 := mkWorld (update_summary_effect path summary (disk (store d))) n1) in *.
  assert (Hk1 : keyed (disk w1)) by now apply update_summary_effect_keyed.
  assert (H1 : exists m, sql.select_file path (files (disk w1)) = Some m
                         /\ Registry.kind m = "folder").
  { unfold w1, update_summary_effect, sql.update_files_summary. cbn [disk files].
    rewrite select_file_update; [|reflexivity].
    rewrite String.eqb_refl, Hrow. cbn [option_map]. eexists. split; [reflexivity|].
    exact Hfolder. }
  destruct H1 as (m & Hm & Hmk).
  assert (Hlen : exists f, len path = S f).
  { destruct path as [|c p]; [|now exists (len p)]. exfalso. now apply Hroot. }
  destruct Hlen as [f Hlen].
  destruct (up_tree_loop_from_folder
              (match get_best_root_for_path (disk w1) path with
               | Some s => if truthy s then Some (abspath s) else None
               | None => None
               end) f path w1 m Hn Hk1 Hroot Hm Hmk) as (w' & Eloop & Hsum).
  assert (E : handle_request (SaveSummary path summary) d
              = (Val Saved, mkDaemon w' (ai d))).
  { unfold handle_request, try_except, handle_save_summary, save_and_aggregate, bind,
      on_store, reading. rewrite E1. cbn [store ai].
    unfold update_folder_aggregate_up_tree. rewrite Habs, Hdir, Hlen.
    fold w1. rewrite Eloop. reflexivity. }
  rewrite E. cbn [fst snd store]. split; [reflexivity|].
  split; [exact Hsum | apply folder_summary_prefix].
Qed.

End NoFaults.

End RequestFacts.

(* ================================================================== *)
(** * Further facts: registered roots and folder bubbling *)
(* ================================================================== *)

Section RootRoundTrip.
Context {host : Host}.
Import pystr pystr_facts normal normal_facts.

(** A root that was registered is found again: once [add_index_root]
    has returned, every path at or under the root has a best root, which
    covers the path and is at least as long as the root registered. *)
Theorem registered_root_is_found (root_path path : string) (w : World) :
  cwd_is_absolute ->
  fst (add_index_root root_path w) = Val tt ->
  covers (abspath root_path) (abspath path) = true ->
  exists b,
    get_best_root_for_path (disk (snd (add_index_root root_path w))) path = Some b
    /\ covers b (abspath path) = true
    /\ len (abspath root_path) <= len b.
Proof.
  intros Hcwd Hrun Hcov.
  destruct (add_index_root_run root_path w) as (r & n' & E). rewrite E in *.
  cbn [fst snd disk] in *. subst r.
  unfold get_best_root_for_path, set_index_roots. cbn [index_roots].
  set (roots := map IndexRoot.root_path _).
  assert (Hin : In (abspath root_path) roots).
  { unfold roots, sql.replace_into_index_roots. rewrite map_app. apply in_or_app.
    right. now left. }
  pose proof (best_root_loop_spec (abspath path) roots None) as H.
  destruct (best_root_loop (abspath path) roots None) as [b|].
  - destruct H as ([[=]|(r & _ & _ & Hc)] & _ & Hmax). exists b.
    split; [reflexivity|]. split; [exact Hc|].
    rewrite <- (abspath_idempotent root_path Hcwd) at 1.
    apply Hmax; [exact Hin|]. now rewrite abspath_idempotent.
  - destruct H as [_ H]. specialize (H _ Hin).
    rewrite abspath_idempotent in H by exact Hcwd. congruence.
Qed.

End RootRoundTrip.

Section Bubbling.
Context {host : Host} {engine : TextEngine}.
Import pystr pystr_facts.

Lemma climb_keeps (db : Database) (stop : option string) :
  forall fuel cur acc x, In x acc -> In x (climb fuel db stop cur acc).
Proof.
  induction fuel as [|fuel IH]; intros cur acc x Hx; cbn [climb]; [exact Hx|].
  destruct (truthy cur && negb (String.eqb cur (posixpath.dirname cur))); [|exact Hx].
  assert (Hx' : In x (if is_folder_record db cur then set_add cur acc else acc)).
  { destruct (is_folder_record db cur); [|exact Hx]. apply set_add_In. now right. }
  destruct (match stop with Some s => _ | None => false end); [exact Hx' | now apply IH].
Qed.

(** The walk up the tree collects every Registry folder that it reaches
    before the stop root and before the top of the tree. *)
Lemma climb_reaches (db : Database) (stop : option string) :
  forall k fuel cur acc,
    len cur <= fuel ->
    (forall j, j <= k -> truthy (ancestor j cur) = true
                         /\ ancestor j cur <> posixpath.dirname (ancestor j cur)) ->
    (forall j, j < k -> stop <> Some (ancestor j cur)) ->
    is_folder_record db (ancestor k cur) = true ->
    In (ancestor k cur) (climb fuel db stop cur acc).
Proof.
  induction k as [|k IH]; intros fuel cur acc Hfuel Hloop Hstop Hfolder.
  - destruct (Hloop 0 (le_n 0)) as [Ht Hne]. cbn [ancestor] in *.
    destruct fuel as [|fuel].
    { destruct cur; [discriminate | simpl in Hfuel; lia]. }
    cbn [climb]. apply String.eqb_neq in Hne. rewrite Ht, Hne, Hfolder. cbn [andb negb].
    assert (Hin : In cur (set_add cur acc)) by (apply set_add_In; now left).
    destruct (match stop with Some s => _ | None => false end);
      [exact Hin | now apply climb_keeps].
  - destruct (Hloop 0 (Nat.le_0_l _)) as [Ht Hne]. cbn [ancestor] in Ht, Hne.
    destruct fuel as [|fuel].
    { destruct cur; [discriminate | simpl in Hfuel; lia]. }
    cbn [climb ancestor]. pose proof Hne as Hne'. apply String.eqb_neq in Hne'.
    rewrite Ht, Hne'. cbn [andb negb].
    assert (Hs : match stop with Some s => truthy s && String.eqb cur s | None => false end
                 = false).
    { specialize (Hstop 0 (Nat.lt_0_succ _)). cbn [ancestor] in Hstop.
      destruct stop as [s|]; [|reflexivity].
      destruct (String.eqb cur s) eqn:E; [|apply andb_false_r].
      apply String.eqb_eq in E. congruence. }
    rewrite Hs. apply IH.
    + destruct (posixpath_facts.dirname_shrinks cur) as [E|L]; [congruence | lia].
    + intros j Hj. apply (Hloop (S j)). lia.
    + intros j Hj. apply (Hstop (S j)). lia.
    + exact Hfolder.
Qed.

Lemma parent_folders_reach (db : Database) (paths : list string) (p : string) (k : nat) :
  In p paths ->
  (forall j, j <= k -> truthy (ancestor (S j) (abspath p)) = true
                       /\ ancestor (S j) (abspath p)
                          <> posixpath.dirname (ancestor (S j) (abspath p))) ->
  (forall j, j < k ->
     option_map abspath (get_best_root_for_path db (abspath p))
     <> Some (ancestor (S j) (abspath p))) ->
  is_folder_record db (ancestor (S k) (abspath p)) = true ->
  In (ancestor (S k) (abspath p)) (_get_parent_folders_for_paths db paths).
Proof.
  intros Hin Hloop Hstop Hfolder. unfold _get_parent_folders_for_paths.
  rewrite sorted_by_len_In, set_order_In.
  assert (Hkeep : forall l acc x, In x acc -> In x (fold_left (parent_folders_step db) l acc)).
  { induction l as [|q l IH]; intros acc x Hx; cbn [fold_left]; [exact Hx|].
    apply IH. unfold parent_folders_step. now apply climb_keeps. }
  assert (G : forall acc, In (ancestor (S k) (abspath p))
                             (fold_left (parent_folders_step db) paths acc)).
  { induction paths as [|q paths IH]; intros acc; [contradiction|]. cbn [fold_left].
    destruct Hin as [->|Hin]; [|now apply IH].
    apply Hkeep. unfold parent_folders_step. cbn [ancestor].
    apply (climb_reaches db _ k); auto. }
  apply G.
Qed.

Lemma append_folders_reach (pf : list string) (fp : string) :
  In fp pf ->
  forall seen, In fp seen
               \/ exists h, In h (append_folders seen pf) /\ Hit.path h = fp.
Proof.
  induction pf as [|x pf IH]; intros Hin seen; [contradiction|]. cbn [append_folders].
  destruct (mem x seen) eqn:E.
  - destruct Hin as [->|Hin]; [left; now apply mem_In|]. apply (IH Hin).
  - destruct Hin as [->|Hin].
    + right. eexists. split; [now left | reflexivity].
    + destruct (IH Hin (x :: seen)) as [[->|H]|(h & Hh & Hp)].
      * right. eexists. split; [now left | reflexivity].
      * now left.
      * right. exists h. split; [now right | exact Hp].
Qed.

Lemma firstn_short {A} (n : nat) (l : list A) :
  List.length (firstn n l) < n -> firstn n l = l.
Proof.
  intros H. apply firstn_all2. rewrite length_firstn in H. lia.
Qed.

(** Folder bubbling is complete below the cap.  When fewer than 20
    entries are returned, the result holds every Registry folder above a
    matching file that the walk reaches: each folder found by going up
    from the file, before the best indexed root of the file is passed and
    before the top of the tree. *)
Theorem parent_folders_are_returned
    (db : Database) (query : string) (root_path : option string) (f : Hit.t) (k : nat) :
  In f (scoped_results db query root_path) ->
  Hit.kind f = "file" ->
  (forall j, j <= k -> truthy (ancestor (S j) (abspath (Hit.path f))) = true
                       /\ ancestor (S j) (abspath (Hit.path f))
                          <> posixpath.dirname (ancestor (S j) (abspath (Hit.path f)))) ->
  (forall j, j < k ->
     option_map abspath (get_best_root_for_path db (abspath (Hit.path f)))
     <> Some (ancestor (S j) (abspath (Hit.path f)))) ->
  is_folder_record db (ancestor (S k) (abspath (Hit.path f))) = true ->
  List.length (search_index db query root_path) < 20 ->
  exists h, In h (search_index db query root_path)
            /\ Hit.path h = ancestor (S k) (abspath (Hit.path f)).
Proof.
  intros Hf Hkind Hloop Hstop Hfolder Hlen.
  unfold search_index in *.
  set (res := scoped_results db query root_path) in *.
  assert (Hfile : In (Hit.path f)
                     (map Hit.path (filter (fun r => String.eqb (Hit.kind r) "file") res))).
  { apply in_map, filter_In. split; [exact Hf|]. rewrite Hkind. reflexivity. }
  destruct (map Hit.path (filter (fun r => String.eqb (Hit.kind r) "file") res))
    as [|p0 ps] eqn:Hfiles; [contradiction|].
  rewrite <- Hfiles in *.
  rewrite (firstn_short _ _ Hlen).
  pose proof (parent_folders_reach db _ (Hit.path f) k Hfile Hloop Hstop Hfolder) as Hpf.
  destruct (append_folders_reach _ _ Hpf (map Hit.path res)) as [Hseen|(h & Hh & Hp)].
  - apply in_map_iff in Hseen. destruct Hseen as (h & Hp & Hh).
    exists h. split; [apply in_or_app; now left | exact Hp].
  - exists h. split; [apply in_or_app; now right | exact Hp].
Qed.

End Bubbling.

(* ================================================================== *)
(** * Further facts: index rebuild *)
(* ================================================================== *)

Section RebuildFacts.
Context {host : Host}.
Import pystr pystr_facts.

Lemma rebuild_rows_raise (rows : list Registry.row) :
  forall c r c', for_each rows rebuild_row c = (r, c') -> committed c' = committed c.
Proof.
  induction rows as [|x rows IH]; intros c r c'; cbn [for_each].
  - unfold ret. now intros [= _ <-].
  - unfold bind at 1. unfold rebuild_row. run_proc.
    destruct (date_token (Registry.creation_time x)) as [cs|]; simpl; [|now intros [= _ <-]].
    destruct (date_token (Registry.last_modified x)) as [ms|]; simpl; [|now intros [= _ <-]].
    destruct (write_refused (conn_attempts c)); simpl; [now intros [= _ <-]|].
    intros H. apply IH in H. exact H.
Qed.

(** [rebuild_fts_index] either puts the Content Index back in step with
    the Registry or leaves it empty.  When it returns, the Content Index
    holds one row for each Registry row, in the order of the Registry,
    with the summary and the stack of that row: rows of unregistered
    paths are gone, and a stack written by [update_tech_stack] is there.
    When it raises, the Registry is as before and the Content Index is
    empty, unless the very first statement was refused. *)
Theorem rebuild_resynchronises_or_empties (w : World) :
  let r := rebuild_fts_index w in
  (fst r = Val tt ->
     files (disk (snd r)) = files (disk w)
     /\ index_roots (disk (snd r)) = index_roots (disk w)
     /\ file_index (disk (snd r)) = map rebuilt_index_row (files (disk w)))
  /\ (fst r = Raise ->
        disk (snd r) = disk w
        \/ disk (snd r) = set_file_index (fun _ => []) (disk w)).
Proof.
  cbv zeta. split.
  - destruct (rebuild_fts_index w) as [r w'] eqn:E. cbn [fst snd]. intros ->.
    apply rebuild_fts_index_run in E. rewrite E. unfold rebuild_effect. auto.
  - destruct (rebuild_fts_index w) as [r w'] eqn:E. cbn [fst snd]. intros ->.
    revert E. unfold rebuild_fts_index, with_connection, execute_ddl.
    unfold bind at 1. simpl.
    destruct (write_refused (attempts w)); simpl; [intros [= <-]; now left|].
    unfold bind at 1. simpl.
    destruct (write_refused (S (attempts w))); simpl; [intros [= <-]; now right|].
    unfold bind at 1. unfold commit at 1. simpl.
    destruct (write_refused (S (S (attempts w)))); simpl; [intros [= <-]; now right|].
    unfold bind at 1. unfold query at 1. simpl.
    unfold bind at 1.
    destruct (for_each (files (disk w)) rebuild_row _) as [[[]|] c1] eqn:Hloop.
    + pose proof (rebuild_rows_raise _ _ _ _ Hloop) as Hc. simpl in Hc.
      unfold commit. destruct (write_refused (conn_attempts c1)); simpl; [|discriminate].
      intros [= <-]. right. exact Hc.
    + pose proof (rebuild_rows_raise _ _ _ _ Hloop) as Hc. simpl in Hc.
      intros [= <-]. right. exact Hc.
Qed.

End RebuildFacts.

Example rebuild_runs :
  fst (@rebuild_fts_index utc_host (mkWorld notes_db 0)) = Val tt
  /\ fst (@rebuild_fts_index utc_host (mkWorld late_db 0)) = Raise
  /\ file_index (disk (snd (@rebuild_fts_index utc_host (mkWorld late_db 0)))) = [].
Proof. repeat split; vm_compute; reflexivity. Qed.

(* ================================================================== *)
(** * The further properties on the sample store *)
(* ================================================================== *)

Lemma path_matches_are_returned_witness :
  exists h, In h (@search_index utc_host rejecting_engine notes_db "notes" None)
            /\ Hit.path h = "/A/sub/notes.txt".
Proof.
  apply (@path_matches_are_returned utc_host rejecting_engine notes_db "notes" None
           (ContentIndex.mk "/A/sub/notes.txt" "file" "txt" "hello" "" ""
              "2024 Jan 05 Friday" "2024 Jan 05 Friday")).
  - reflexivity.
  - reflexivity.
  - vm_compute. left. reflexivity.
  - intros root H. discriminate H.
Defined.

Lemma parent_folders_are_returned_witness :
  exists h, In h (@search_index utc_host rejecting_engine notes_db "notes" None)
            /\ Hit.path h = "/A/sub".
Proof.
  apply (@parent_folders_are_returned utc_host rejecting_engine notes_db "notes" None
           (Hit.mk "/A/sub/notes.txt" "file" "hello") 0).
  - vm_compute. left. reflexivity.
  - reflexivity.
  - intros j Hj. assert (j = 0) as -> by lia. split; [reflexivity | discriminate].
  - intros j Hj. lia.
  - reflexivity.
  - vm_compute. lia.
Defined.

Lemma update_summary_then_lookup_witness :
  let db' := disk (snd (@update_summary utc_host "/A/sub/notes.txt" "Meeting notes"
                          (mkWorld notes_db 0))) in
  get_summary db' "/A/sub/notes.txt" = Some "Meeting notes"
  /\ sql.count_index "/A/sub/notes.txt" (file_index db') = 1
  /\ get_summary db' "/A/sub" = get_summary notes_db "/A/sub".
Proof.
  cbv zeta.
  destruct (@update_summary_then_lookup utc_host "/A/sub/notes.txt" "Meeting notes"
              (mkWorld notes_db 0)) as (H1 & H2 & _ & H4); [reflexivity|].
  split; [exact H1|]. split; [exact H2|].
  unfold get_summary. destruct (H4 "/A/sub") as [-> _]; [discriminate | reflexivity].
Defined.

Lemma scan_directory_keeps_pairing_witness :
  consistent (disk (snd (@scan_directory utc_host "/A" notes_tree (mkWorld notes_db 0)))).
Proof.
  apply (@scan_directory_keeps_pairing utc_host "/A" notes_tree (mkWorld notes_db 0)).
  exact notes_db_consistent.
Defined.

Lemma scan_directory_registers_only_scanned_paths_witness :
  In "/A/sub/notes.txt" (map Registry.path (files empty_db))
  \/ @scanned_path utc_host "/A" notes_tree "/A/sub/notes.txt".
Proof.
  apply (@scan_directory_registers_only_scanned_paths utc_host "/A" notes_tree
           (mkWorld empty_db 0)
           (Registry.mk "/A/sub/notes.txt" "file" "txt" 1704412800 1704412800 5
              "2026-01-01 00:00:00" None None)).
  vm_compute. right. right. left. reflexivity.
Defined.


Lemma up_tree_is_safe_witness :
  let r := @update_folder_aggregate_up_tree utc_host notes_fs "/A/sub/notes.txt" (Some "/A")
             (mkWorld notes_db 0) in
  fst r = Val tt
  /\ consistent (disk (snd r))
  /\ index_roots (disk (snd r)) = index_roots notes_db
  /\ map fixed_columns (files (disk (snd r))) = map fixed_columns (files notes_db).
Proof.
  apply (@up_tree_is_safe utc_host notes_fs "/A/sub/notes.txt" (Some "/A")
           (mkWorld notes_db 0)).
  exact notes_db_consistent.
Defined.

Lemma up_tree_rewrites_only_folders_above_witness :
  Forall2 (aggregated_from "/A/sub" (Some "/A"))
          (files notes_db)
          (files (disk (snd (@update_folder_aggregate_up_tree utc_host notes_fs
                               "/A/sub/notes.txt" (Some "/A") (mkWorld notes_db 0))))).
Proof.
  apply (@up_tree_rewrites_only_folders_above utc_host notes_fs "/A/sub/notes.txt"
           (Some "/A") (mkWorld notes_db 0)).
  - reflexivity.
  - exact (proj1 notes_db_consistent).
Defined.

Lemma summarizer_turn_takes_the_first_file_witness :
  let d := mkDaemon (mkWorld notes_db 0) (mkAiState [] 0 0) in
  let d' := snd (@summarizer_turn utc_host_reading notes_fs ai_answering d) in
  get_unsummarized_files notes_db = ["/A/sub/notes.txt"]
  /\ get_summary (disk (store d')) "/A/sub/notes.txt" = Some "Notes of a meeting."
  /\ get_unsummarized_files (disk (store d')) = []
  /\ chats (ai d') = 1.
Proof.
  cbv zeta. split; [reflexivity|].
  destruct (@summarizer_turn_takes_the_first_file utc_host_reading notes_fs ai_answering
              (mkDaemon (mkWorld notes_db 0) (mkAiState [] 0 0))
              "/A/sub/notes.txt" [] "hello" "Notes of a meeting."
              (@after_chat ai_answering (summary_prompt "hello") (mkAiState [] 0 0)))
    as (H1 & H2 & H3).
  - reflexivity.
  - exact (proj1 notes_db_consistent).
  - intros n. reflexivity.
  - reflexivity.
  - reflexivity.
  - reflexivity.
  - vm_compute. reflexivity.
  - reflexivity.
  - split; [exact H1|]. split; [exact H2|]. rewrite H3. reflexivity.
Defined.

Lemma summarizer_stuck_behind_a_missing_file_witness :
  let d := mkDaemon (mkWorld notes_db 0) (mkAiState [] 0 0) in
  @summarizer_turns utc_host notes_fs ai_answering 3 d = (Val tt, d).
Proof.
  apply (@summarizer_stuck_behind_a_missing_file utc_host notes_fs ai_answering
           (mkDaemon (mkWorld notes_db 0) (mkAiState [] 0 0)) "/A/sub/notes.txt" [] 3).
  - reflexivity.
  - right. reflexivity.
Defined.

Lemma saved_summary_is_served_witness :
  let d := mkDaemon (mkWorld notes_db 0) (mkAiState [] 0 0) in
  let d1 := snd (@handle_request utc_host notes_fs rejecting_engine ai_down
                   refused_connection (SaveSummary "/A/sub/notes.txt" "Meeting notes") d) in
  @handle_request utc_host notes_fs rejecting_engine ai_down refused_connection
    (GetSummary "/A/sub/notes.txt") d1
  = (Val (SummaryOf "Meeting notes" "db"), d1).
Proof.
  cbv zeta.
  apply (@saved_summary_is_served utc_host notes_fs rejecting_engine ai_down
           refused_connection (fun n => eq_refl)
           (mkDaemon (mkWorld notes_db 0) (mkAiState [] 0 0))
           "/A/sub/notes.txt" "Meeting notes"
           (Registry.mk "/A/sub/notes.txt" "file" "txt" 1704412800 1704412800 5
              "2026-01-01 00:00:00" None None)).
  - reflexivity.
  - exact (proj1 notes_db_consistent).
  - reflexivity.
  - discriminate.
  - reflexivity.
Defined.

Lemma get_summary_generates_once_witness :
  let d := mkDaemon (mkWorld notes_db 0) (mkAiState [] 0 0) in
  let ask := @handle_request utc_host_reading notes_fs rejecting_engine ai_down
               refused_connection (GetSummary "/A/sub/notes.txt") in
  fst (ask d) = Val (SummaryOf "Analysis failed." "ai")
  /\ chats (ai (snd (ask d))) = 1
  /\ ask (snd (ask d)) = (Val (SummaryOf "Analysis failed." "db"), snd (ask d)).
Proof.
  cbv zeta.
  destruct (@get_summary_generates_once utc_host_reading notes_fs rejecting_engine ai_down
              refused_connection (fun n => eq_refl)
              (mkDaemon (mkWorld notes_db 0) (mkAiState [] 0 0))
              "/A/sub/notes.txt" "hello" "Analysis failed."
              (Registry.mk "/A/sub/notes.txt" "file" "txt" 1704412800 1704412800 5
                 "2026-01-01 00:00:00" None None)
              (@after_chat ai_down (summary_prompt "hello") (mkAiState [] 0 0)))
    as (H1 & H2 & H3).
  - reflexivity.
  - exact (proj1 notes_db_consistent).
  - reflexivity.
  - discriminate.
  - reflexivity.
  - reflexivity.
  - reflexivity.
  - vm_compute. reflexivity.
  - reflexivity.
  - split; [exact H1|]. split; [rewrite H2; reflexivity | exact H3].
Defined.

Lemma saved_summary_of_a_folder_is_replaced_witness :
  let d := mkDaemon (mkWorld notes_db 0) (mkAiState [] 0 0) in
  let d1 := snd (@handle_request utc_host notes_fs rejecting_engine ai_down
                   refused_connection (SaveSummary "/A/sub" "My notes") d) in
  fst (@handle_request utc_host notes_fs rejecting_engine ai_down
         refused_connection (SaveSummary "/A/sub" "My notes") d) = Val Saved
  /\ get_summary (disk (store d1)) "/A/sub"
     = Some "Folder with 1 files and 0 subfolders. Top types: txt:1.".
Proof.
  cbv zeta.
  destruct (@saved_summary_of_a_folder_is_replaced utc_host notes_fs rejecting_engine ai_down
              refused_connection (fun n => eq_refl)
              (mkDaemon (mkWorld notes_db 0) (mkAiState [] 0 0))
              "/A/sub" "My notes"
              (Registry.mk "/A/sub" "folder" "" 1704412800 1704412800 0
                 "2026-01-01 00:00:00"
                 (Some "Folder with 1 files and 0 subfolders. Top types: txt:1.")
                 (Some "TXT")))
    as (H1 & H2 & _).
  - reflexivity.
  - exact (proj1 notes_db_consistent).
  - reflexivity.
  - reflexivity.
  - discriminate.
  - reflexivity.
  - reflexivity.
  - split; [exact H1|]. rewrite H2. vm_compute. reflexivity.
Defined.

Lemma registered_root_is_found_witness :
  exists b,
    @get_best_root_for_path utc_host
      (disk (snd (@add_index_root utc_host "/A" (mkWorld empty_db 0)))) "/A/sub/notes.txt"
    = Some b
    /\ covers b "/A/sub/notes.txt" = true
    /\ pystr.len "/A" <= pystr.len b.
Proof.
  apply (@registered_root_is_found utc_host "/A" "/A/sub/notes.txt" (mkWorld empty_db 0));
    reflexivity.
Defined.
